(** * Verification of [src/plot/visualize.py]

    A shallow embedding of the plotting pipeline (load, clean, shared
    limits, render) and the properties of it that the specification
    states.

    - Numbers are IEEE binary64 values: the kernel's primitive floats,
      reasoned about through their specification in [SpecFloat].  An
      integer column or position is taken at its float value, which is
      exact up to 2^53 in magnitude; beyond that pandas keeps the column
      as 64-bit integers, which compare exactly until they are converted,
      and the properties below are stated for binary64 entries.
    - A table is what [pd.read_csv] returned: column names and rows of
      cells.  Rows are addressed by position; pandas' index labels are
      not modelled.
    - pandas, numpy and matplotlib calls are modelled by what they
      compute on these tables.  [DataFrame.sort_values] with its default
      quicksort fixes the order of the keys, not the order of rows with
      equal keys: [sort_values] is the sort that keeps such rows in the
      order of the input, and only [order_preserving_sort_keeps_last]
      below depends on that choice.  [plt.plot] is a line added to the
      figure, [plt.xlim] and [plt.ylim] are the calls with their
      arguments, refused when an argument is NaN or infinite.
    - Exceptions are values of [result]; printing and saving figures are
      effects on a [World] threaded through [main]. *)

From Stdlib Require Import Floats ZArith PArith Lia Bool List String Ascii.
From Stdlib Require Import Sorted Uint63 DecimalString.
Import ListNotations.

(** * Part I: the program *)

(** ** Numbers *)

Definition notna (v : float) : bool := negb (is_nan v).

(** Python's two-argument [min(a, b)] and [max(a, b)]: the first argument
    is kept unless the second one compares strictly better. *)
Definition py_min (a b : float) : float := if (b <? a)%float then b else a.
Definition py_max (a b : float) : float := if (a <? b)%float then b else a.

(** [np.nanmin] and [np.nanmax]: NaN entries are ignored, an array made of
    NaN only yields NaN.  The source calls them on non-empty arrays only
    (the [len(x) > 0] guards); on the empty list the model answers NaN. *)
Definition np_nanmin (l : list float) : float :=
  match filter notna l with
  | [] => nan
  | v :: vs => fold_left py_min vs v
  end.

Definition np_nanmax (l : list float) : float :=
  match filter notna l with
  | [] => nan
  | v :: vs => fold_left py_max vs v
  end.

(** An integer position as a float ([RangeIndex], [np.arange]). *)
Definition float_of_nat (n : nat) : float :=
  of_uint63 (Uint63.of_Z (Z.of_nat n)).

(** The literals [1e-3] and [1e-12] of the source. *)
Definition f_1em3 : float := 0x1.0624dd2f1a9fcp-10%float.
Definition f_1em12 : float := 0x1.19799812dea11p-40%float.

(** ** Exceptions, output and the monad of the script *)

Inductive exn : Type :=
| ValueError (msg : string)
| KeyError (key : string).

Inductive result (A : Type) : Type :=
| Ok (a : A)
| Raise (e : exn).
Arguments Ok {A} a.
Arguments Raise {A} e.

Definition rbind {A B} (r : result A) (k : A -> result B) : result B :=
  match r with
  | Ok a => k a
  | Raise e => Raise e
  end.

Declare Scope result_scope.
Delimit Scope result_scope with result.
Notation "'let*' x ':=' r 'in' k" := (rbind r (fun x => k))
  (at level 10, x pattern, r at level 100, k at level 200) : result_scope.

Fixpoint rmap {A B} (f : A -> result B) (l : list A) : result (list B) :=
  match l with
  | [] => Ok []
  | a :: l' =>
      match f a with
      | Raise e => Raise e
      | Ok b =>
          match rmap f l' with
          | Raise e => Raise e
          | Ok bs => Ok (b :: bs)
          end
      end
  end.

(** ** Tables *)

(** A cell as [pd.read_csv] delivers it: a number (NaN stands for a missing
    entry; an entry that reads as a number is that number, an integer at
    its binary64 value) or text on which numeric coercion fails. *)
Inductive cell : Type :=
| Numeric (v : float)
| Text (s : string).

Record DataFrame : Type := mkDataFrame {
  columns : list string;
  rows : list (list cell)
}.

Definition NoOfEvals : string := "NoOfEvals"%string.

Fixpoint col_index (c : string) (cs : list string) : option nat :=
  match cs with
  | [] => None
  | c' :: cs' =>
      if String.eqb c' c then Some 0%nat else option_map S (col_index c cs')
  end.

Definition cell_at (i : nat) (r : list cell) : cell := nth i r (Numeric nan).

Fixpoint set_cell (i : nat) (c : cell) (r : list cell) : list cell :=
  match r, i with
  | [], _ => []
  | _ :: r', O => c :: r'
  | x :: r', S i' => x :: set_cell i' c r'
  end.

(** [pd.to_numeric(..., errors="coerce")] on one entry.  A column that
    pandas holds as 64-bit integers is left as it is by [to_numeric]; its
    entries are binary64 values here, the same numbers up to 2^53 in
    magnitude. *)
Definition to_numeric (c : cell) : float :=
  match c with
  | Numeric v => v
  | Text _ => nan
  end.

(** [.astype(float)] on one entry: text that is no number raises. *)
Definition astype_float (c : cell) : result float :=
  match c with
  | Numeric v => Ok v
  | Text s =>
      Raise (ValueError
               ("could not convert string to float: '" ++ s ++ "'")%string)
  end.

Definition value_at (i : nat) (r : list cell) : float :=
  to_numeric (cell_at i r).

(** ** read_csv_clean *)

Section Cleaning.

Variable A : Type.
Variable key : A -> float.

(** [dropna(subset=[key])] *)
Definition dropna (l : list A) : list A :=
  filter (fun r => notna (key r)) l.

(** [sort_values(key)], ascending; it runs after [dropna], so no key is
    NaN.  The default [kind="quicksort"] promises the ascending order of
    the keys and nothing about rows of equal key.  This is the sort that
    keeps such rows in the order of the input. *)
Fixpoint insert_by (a : A) (l : list A) : list A :=
  match l with
  | [] => [a]
  | b :: l' =>
      if (key a <=? key b)%float then a :: l else b :: insert_by a l'
  end.

Definition sort_values (l : list A) : list A := fold_right insert_by [] l.

(** [drop_duplicates(subset=[key], keep="last")]: a row stays when no later
    row has an equal key. *)
Fixpoint drop_duplicates_last (l : list A) : list A :=
  match l with
  | [] => []
  | a :: l' =>
      if existsb (fun b => (key b =? key a)%float) l'
      then drop_duplicates_last l'
      else a :: drop_duplicates_last l'
  end.

End Cleaning.

Arguments dropna {A} key l.
Arguments insert_by {A} key a l.
Arguments sort_values {A} key l.
Arguments drop_duplicates_last {A} key l.

Record Path : Type := mkPath {
  path_str : string;
  path_name : string;
  path_stem : string
}.

(** What the script prints, kept structured. *)
Inductive message : Type :=
| WarnDropped (n : nat) (name : string)
| WarnEmpty (name : string)
| InfoTable (name : string) (n_rows n_unique : nat) (min_x max_x : float)
    (all_zero : bool)
| WarnSingleX (name : string)
| InfoLimits (xmin xmax ymin ymax : float) (logy : bool)
| OkWrote (file : string).

(** Python's [repr] of a [str], as the f-string of line 12 applies it to
    every column name.  The text is put between apostrophes, or between
    double quotes when it holds an apostrophe and no double quote; the
    quote character in use and the backslash are escaped by a backslash;
    tab, line feed and carriage return become [\t], [\n], [\r], any other
    control character becomes [\xhh]; every other ASCII character is
    copied.  A byte above 127 is copied too, as Python copies a printable
    character that is not ASCII. *)
Definition squote : ascii := "'"%char.
Definition dquote : ascii := ascii_of_nat 34.
Definition backslash : ascii := "\"%char.

Fixpoint contains_char (c : ascii) (s : string) : bool :=
  match s with
  | EmptyString => false
  | String c' s' => Ascii.eqb c' c || contains_char c s'
  end.

Definition repr_quote (s : string) : ascii :=
  if contains_char squote s && negb (contains_char dquote s)
  then dquote else squote.

Definition hex_digit (n : nat) : ascii :=
  nth n ["0"; "1"; "2"; "3"; "4"; "5"; "6"; "7"; "8"; "9";
         "a"; "b"; "c"; "d"; "e"; "f"]%char "0"%char.

Definition repr_char (q c : ascii) : string :=
  let n := nat_of_ascii c in
  if Ascii.eqb c q || Ascii.eqb c backslash
  then String backslash (String c EmptyString)
  else if Nat.eqb n 9 then "\t"%string
  else if Nat.eqb n 10 then "\n"%string
  else if Nat.eqb n 13 then "\r"%string
  else if Nat.ltb n 32 || Nat.eqb n 127
  then String backslash
         (String "x"%char
            (String (hex_digit (n / 16))
               (String (hex_digit (n mod 16)) EmptyString)))
  else String c EmptyString.

Fixpoint repr_chars (q : ascii) (s : string) : string :=
  match s with
  | EmptyString => EmptyString
  | String c s' => (repr_char q c ++ repr_chars q s')%string
  end.

Definition py_repr (s : string) : string :=
  let q := repr_quote s in
  String q (repr_chars q s ++ String q EmptyString)%string.

(** [repr] of the list of column names. *)
Definition py_list_repr (cs : list string) : string :=
  ("[" ++ String.concat ", " (map py_repr cs) ++ "]")%string.

Definition missing_column_message (path : Path) (df : DataFrame) : string :=
  (path_str path ++ " must include a 'NoOfEvals' column. Found columns: "
     ++ py_list_repr (columns df))%string.

(** Lines 14-20: coerce the key column, drop its NaN rows, sort, deduplicate;
    [k] is the position of the key column.  Rows are addressed by position,
    so [reset_index(drop=True)] has nothing left to do. *)
Definition coerce_key (k : nat) (r : list cell) : list cell :=
  set_cell k (Numeric (value_at k r)) r.

Definition clean_rows (k : nat) (rs : list (list cell)) : list (list cell) :=
  drop_duplicates_last (value_at k)
    (sort_values (value_at k) (dropna (value_at k) (map (coerce_key k) rs))).

(** Lines 23-32. *)
Definition nunique (l : list float) : nat :=
  List.length (drop_duplicates_last (fun v => v) (dropna (fun v => v) l)).

Definition diagnostics (name : string) (xs : list float) : list message :=
  match xs with
  | [] => [WarnEmpty name]
  | _ =>
      let n_unique := nunique xs in
      InfoTable name (List.length xs) n_unique (np_nanmin xs) (np_nanmax xs)
        (forallb (fun v => (v =? 0)%float) xs)
      :: (if Nat.eqb n_unique 1 then [WarnSingleX name] else [])
  end.

(** The table [df] is what [pd.read_csv(path)] returned. *)
Definition read_csv_clean (path : Path) (df : DataFrame)
  : result (DataFrame * list message) :=
  match col_index NoOfEvals (columns df) with
  | None => Raise (ValueError (missing_column_message path df))
  | Some k =>
      let coerced := map (coerce_key k) (rows df) in
      let before := List.length coerced in
      let kept := dropna (value_at k) coerced in
      let warn :=
        if Nat.ltb (List.length kept) before
        then [WarnDropped (before - List.length kept) (path_name path)]
        else [] in
      let out :=
        drop_duplicates_last (value_at k) (sort_values (value_at k) kept) in
      Ok (mkDataFrame (columns df) out,
          warn ++ diagnostics (path_name path) (map (value_at k) out))
  end.

(** ** trial_columns, per_trial_xy *)

Definition trial_columns (df : DataFrame) : list string :=
  filter (fun c => negb (String.eqb c NoOfEvals)) (columns df).

Definition rebase_x (rebase : bool) (x : list float) : list float :=
  if rebase && Nat.ltb 0 (List.length x)
  then map (fun v => (v - nth 0 x nan)%float) x
  else x.

Definition index_x (n : nat) : list float := map float_of_nat (seq 0 n).

Definition per_trial_xy (df : DataFrame) (col : string)
  (rebase use_index : bool) : result (list float * list float) :=
  match col_index col (columns df) with
  | None => Raise (KeyError col)
  | Some j =>
      let kept := filter (fun r => notna (value_at j r)) (rows df) in
      let y := map (value_at j) kept in
      if use_index then Ok (index_x (List.length y), y)
      else
        match col_index NoOfEvals (columns df) with
        | None => Raise (KeyError NoOfEvals)
        | Some k =>
            (let* x := rmap (fun r => astype_float (cell_at k r)) kept in
             Ok (rebase_x rebase x, y))%result
        end
  end.

(** ** The mean curve

    [mean(axis=1, skipna=True)] on one row, as pandas computes it: the
    entries that are NaN are replaced by 0, the row is summed from left
    to right, and the sum is divided by the number of entries that are
    not NaN; a row without such an entry gives NaN.  The source computes
    the mean series twice with the same code, in [compute_global_limits]
    and in [plot_single_method]; [mean_xy] is that code, and [cols] are
    the trial columns of [df]. *)
Definition nan_to_zero (v : float) : float := if is_nan v then 0%float else v.

Definition row_sum (vals : list float) : float :=
  match map nan_to_zero vals with
  | [] => 0%float
  | v :: vs => fold_left PrimFloat.add vs v
  end.

Definition row_mean (vals : list float) : float :=
  let count := List.length (filter notna vals) in
  if Nat.eqb count 0 then nan
  else (row_sum vals / float_of_nat count)%float.

Definition select_columns (df : DataFrame) (cols : list string)
  : result (list nat) :=
  rmap (fun c =>
          match col_index c (columns df) with
          | Some j => Ok j
          | None => Raise (KeyError c)
          end) cols.

(** The payload of the [KeyError] that [df[["NoOfEvals"] + cols]] raises
    when the table has the columns [cols] and lacks [NoOfEvals]; the text
    for a selection of which no column exists is the one of pandas 2. *)
Definition missing_key_index (cols : list string) : string :=
  match cols with
  | [] => "None of [Index(['NoOfEvals'], dtype='object')] are in the [columns]"
  | _ => "['NoOfEvals'] not in index"
  end%string.

Definition mean_xy (df : DataFrame) (cols : list string) (x_as_index : bool)
  : result (list float * list float) :=
  (let* js := select_columns df cols in
   let y := map (fun r => row_mean (map (fun j => value_at j r) js)) (rows df) in
   if x_as_index then Ok (index_x (List.length y), y)
   else
     match col_index NoOfEvals (columns df) with
     | None => Raise (KeyError (missing_key_index cols))
     | Some k =>
         let* x := rmap (fun r => astype_float (cell_at k r)) (rows df) in
         Ok (x, y)
     end)%result.

(** ** compute_global_limits *)

Record limits : Type := mkLimits {
  xmin : float;
  xmax : float;
  ymin : float;
  ymax : float
}.

Definition initial_limits : limits :=
  mkLimits infinity neg_infinity infinity neg_infinity.

Definition update_x (lim : limits) (x : list float) : limits :=
  if Nat.ltb 0 (List.length x)
  then mkLimits (py_min (xmin lim) (np_nanmin x))
                (py_max (xmax lim) (np_nanmax x)) (ymin lim) (ymax lim)
  else lim.

Definition fold_range (lim : limits) (y : list float) : limits :=
  mkLimits (xmin lim) (xmax lim)
           (py_min (ymin lim) (np_nanmin y)) (py_max (ymax lim) (np_nanmax y)).

Definition update_y (logy : bool) (lim : limits) (y : list float) : limits :=
  if Nat.ltb 0 (List.length y)
  then
    if logy
    then
      let ypos := filter (fun v => (0 <? v)%float) y in
      if Nat.ltb 0 (List.length ypos) then fold_range lim ypos else lim
    else fold_range lim y
  else lim.

Definition update_limits (logy : bool) (lim : limits)
  (xy : list float * list float) : limits :=
  update_y logy (update_x lim (fst xy)) (snd xy).

Fixpoint scan_trials (logy rebase x_as_index : bool) (df : DataFrame)
  (cols : list string) (lim : limits) : result limits :=
  match cols with
  | [] => Ok lim
  | col :: cols' =>
      (let* xy := per_trial_xy df col rebase x_as_index in
       scan_trials logy rebase x_as_index df cols' (update_limits logy lim xy))%result
  end.

Definition scan_table (logy mean_only rebase x_as_index : bool)
  (lim : limits) (df : DataFrame) : result limits :=
  match trial_columns df with
  | [] => Ok lim
  | cols =>
      if mean_only
      then (let* xy := mean_xy df cols x_as_index in
            Ok (update_limits logy lim xy))%result
      else scan_trials logy rebase x_as_index df cols lim
  end.

Fixpoint scan_datasets (logy mean_only rebase x_as_index : bool)
  (datasets : list (string * DataFrame)) (lim : limits) : result limits :=
  match datasets with
  | [] => Ok lim
  | (_, df) :: rest =>
      (let* lim' := scan_table logy mean_only rebase x_as_index lim df in
       scan_datasets logy mean_only rebase x_as_index rest lim')%result
  end.

Definition degenerate (lo hi : float) : bool :=
  negb (is_finite lo) || negb (is_finite hi) || (lo =? hi)%float.

Definition fallbacks (logy : bool) (lim : limits)
  : float * float * float * float :=
  let '(x0, x1) :=
    if degenerate (xmin lim) (xmax lim) then (0%float, 1%float)
    else (xmin lim, xmax lim) in
  let '(y0, y1) :=
    if degenerate (ymin lim) (ymax lim)
    then (if logy then (f_1em3, 1%float) else (0%float, 1%float))
    else (ymin lim, ymax lim) in
  (x0, x1, y0, y1).

Definition compute_global_limits (datasets : list (string * DataFrame))
  (logy mean_only rebase_per_trial x_as_index : bool)
  : result (float * float * float * float) :=
  (let* lim := scan_datasets logy mean_only rebase_per_trial x_as_index
                 datasets initial_limits in
   Ok (fallbacks logy lim))%result.

(** ** plot_single_method

    A figure is the list of calls that build it: the lines given to
    [plt.plot], the scale, the labels, the arguments of [plt.xlim] and
    [plt.ylim], and the file it is saved to.  Line widths, sizes and
    opacities are cosmetic and left out.  What matplotlib makes of the
    arguments of [plt.xlim] and [plt.ylim] (it widens a pair of equal
    ends) is not part of the figure as modelled. *)

Record Line : Type := mkLine {
  line_x : list float;
  line_y : list float;
  line_marker : option string;
  line_label : string
}.

Record Figure : Type := mkFigure {
  fig_lines : list Line;
  fig_log_y : bool;
  fig_xlabel : string;
  fig_ylabel : string;
  fig_title : string;
  fig_xlim_call : float * float;
  fig_ylim_call : float * float;
  fig_file : string
}.

Definition default_markers : list string :=
  ["o"; "s"; "^"; "D"; "v"; "x"; "P"; "*"; "h"; "<"; ">"]%string.

Definition string_of_nat (n : nat) : string :=
  NilEmpty.string_of_uint (Nat.to_uint n).

Fixpoint trial_lines (df : DataFrame) (rebase x_as_index : bool) (i : nat)
  (cols : list string) : result (list Line) :=
  match cols with
  | [] => Ok []
  | col :: cols' =>
      let m := nth (i mod List.length default_markers) default_markers EmptyString in
      (let* xy := per_trial_xy df col rebase x_as_index in
       let* rest := trial_lines df rebase x_as_index (S i) cols' in
       Ok (mkLine (fst xy) (snd xy) (Some m)
             ("Trial " ++ string_of_nat (i + 1))%string :: rest))%result
  end.

Definition mean_line (df : DataFrame) (cols : list string) (x_as_index : bool)
  : result (list Line) :=
  (let* xy := mean_xy df cols x_as_index in
   Ok [mkLine (fst xy) (snd xy) None "Mean"%string])%result.

Definition x_axis_label (mean_only rebase_per_trial x_as_index : bool) : string :=
  if x_as_index then "Step Index per Trial"%string
  else if rebase_per_trial && negb mean_only
       then "Number of Evaluations (per trial rebased)"%string
       else "Number of Evaluations"%string.

(** Lines 179-180: the lower y limit under log scale. *)
Definition clamp_ymin (logy : bool) (ymin : float) : float :=
  if logy && (ymin <=? 0)%float then py_max ymin f_1em12 else ymin.

(** [plt.xlim(lo, hi)] and [plt.ylim(lo, hi)]: matplotlib refuses an end
    that is NaN or infinite. *)
Definition set_limits (lo hi : float) : result (float * float) :=
  if is_finite lo && is_finite hi then Ok (lo, hi)
  else Raise (ValueError "Axis limits cannot be NaN or Inf").

Definition plot_single_method (df : DataFrame) (label : string)
  (xmin xmax ymin ymax : float)
  (logy mean_only show_mean rebase_per_trial x_as_index : bool)
  (output_path : string) : result Figure :=
  let cols := trial_columns df in
  (let* trials :=
     if negb mean_only then trial_lines df rebase_per_trial x_as_index 0 cols
     else Ok [] in
   let* mean :=
     if show_mean || mean_only then mean_line df cols x_as_index
     else Ok [] in
   let* xlim := set_limits xmin xmax in
   let* ylim := set_limits (clamp_ymin logy ymin) ymax in
   Ok (mkFigure (trials ++ mean) logy
         (x_axis_label mean_only rebase_per_trial x_as_index)
         (if logy then "Best Value (Log Scale)" else "Best Value")%string
         label xlim ylim output_path))%result.

(** ** main *)

Record Args : Type := mkArgs {
  files : list Path;
  labels : option (list string);
  no_logy : bool;
  mean_only : bool;
  show_mean : bool;
  rebase_per_trial : bool;
  x_as_index : bool;
  output_dir : string
}.

(** The effects of a run: the lines printed and the figures saved. *)
Record World : Type := mkWorld {
  stdout : list message;
  written : list Figure
}.

Definition M (A : Type) : Type := World -> World * result A.

Definition ret {A} (a : A) : M A := fun w => (w, Ok a).

Definition bind {A B} (m : M A) (k : A -> M B) : M B :=
  fun w =>
    match m w with
    | (w', Ok a) => k a w'
    | (w', Raise e) => (w', Raise e)
    end.

Definition lift {A} (r : result A) : M A := fun w => (w, r).

Definition print (ms : list message) : M unit :=
  fun w => (mkWorld (stdout w ++ ms) (written w), Ok tt).

Definition savefig (fig : Figure) : M unit :=
  fun w => (mkWorld (stdout w) (written w ++ [fig]), Ok tt).

Declare Scope script_scope.
Delimit Scope script_scope with script.
Notation "x <- m ;; k" := (bind m (fun x => k))
  (at level 61, m at next level, right associativity) : script_scope.
Notation "m ;;; k" := (bind m (fun _ => k))
  (at level 61, right associativity) : script_scope.

Fixpoint for_each {A B} (f : A -> M B) (l : list A) : M (list B) :=
  match l with
  | [] => ret []
  | a :: l' =>
      (b <- f a ;; bs <- for_each f l' ;; ret (b :: bs))%script
  end.

Fixpoint replace_spaces (s : string) : string :=
  match s with
  | EmptyString => EmptyString
  | String c s' =>
      String (if Ascii.eqb c " "%char then "_"%char else c) (replace_spaces s')
  end.

(** Line 221, [outdir / f"{label.replace(' ', '_')}.png"], written as the
    directory, a slash and the file name.  [pathlib] spells the joined
    path in its own normal form (it drops a doubled or trailing slash of
    the directory, and a label that starts with a slash replaces the
    directory); no property below depends on the spelling. *)
Definition output_file (output_dir label : string) : string :=
  (output_dir ++ "/" ++ replace_spaces label ++ ".png")%string.

Section Script.

(** The contents of the input files, as [pd.read_csv] parses them. *)
Variable read_csv : Path -> DataFrame.

Definition load (path : Path) : M DataFrame :=
  (r <- lift (read_csv_clean path (read_csv path)) ;;
   print (snd r) ;;; ret (fst r))%script.

Definition choose_labels (args : Args) : list string :=
  match labels args with
  | Some (l :: ls) =>
      if Nat.eqb (List.length (l :: ls)) (List.length (files args))
      then l :: ls
      else map path_stem (files args)
  | _ => map path_stem (files args)
  end.

Definition render (args : Args) (lims : float * float * float * float)
  (d : string * DataFrame) : M unit :=
  let '(x0, x1, y0, y1) := lims in
  let outfile := output_file (output_dir args) (fst d) in
  (fig <- lift (plot_single_method (snd d) (fst d) x0 x1 y0 y1
                  (negb (no_logy args)) (mean_only args) (show_mean args)
                  (rebase_per_trial args) (x_as_index args) outfile) ;;
   savefig fig ;;;
   print [OkWrote outfile])%script.

Definition main (args : Args) : M unit :=
  (datasets <- for_each (fun lf => df <- load (snd lf) ;; ret (fst lf, df))
                 (combine (choose_labels args) (files args)) ;;
   lims <- lift (compute_global_limits datasets (negb (no_logy args))
                   (mean_only args) (rebase_per_trial args) (x_as_index args)) ;;
   print [InfoLimits (fst (fst (fst lims))) (snd (fst (fst lims)))
            (snd (fst lims)) (snd lims) (negb (no_logy args))] ;;;
   _ <- for_each (render args lims) datasets ;;
   ret tt)%script.

End Script.

(** * Part II: vocabulary of the statements

    Predicates, derived functions and example tables that the properties
    below are stated with. *)

(** ** Comparisons through the specification of binary64 *)


Definition cmp (x y : float) : option comparison :=
  SFcompare (Prim2SF x) (Prim2SF y).

Definition sf_nan (s : spec_float) : bool :=
  match s with S754_nan => true | _ => false end.

(** ** Order of rows by key *)

Section RowOrder.

Variable A : Type.
Variable key : A -> float.

Definition key_le (a b : A) : Prop := (key a <=? key b)%float = true.
Definition key_lt (a b : A) : Prop := (key a <? key b)%float = true.
Definition same_key (x : float) (a : A) : bool := (key a =? x)%float.
Definition keys_notna (l : list A) : Prop :=
  Forall (fun a => is_nan (key a) = false) l.

End RowOrder.

Arguments key_le {A} key a b.
Arguments key_lt {A} key a b.
Arguments same_key {A} key x a.
Arguments keys_notna {A} key l.

(** ** Tables with a usable key column *)

Definition numeric_cell (c : cell) : bool :=
  match c with Numeric _ => true | Text _ => false end.

(** The table has the column [NoOfEvals] and every entry of it is a number:
    what the loader establishes. *)
Definition has_numeric_key (df : DataFrame) : bool :=
  match col_index NoOfEvals (columns df) with
  | Some k => forallb (fun r => numeric_cell (cell_at k r)) (rows df)
  | None => false
  end.

Definition kept_rows (j : nat) (df : DataFrame) : list (list cell) :=
  filter (fun r => notna (value_at j r)) (rows df).

(** The file [p] lacks the evaluation-count column. *)
Definition lacks_key (read_csv : Path -> DataFrame) (p : Path) : Prop :=
  ~ In NoOfEvals (columns (read_csv p)).

(** Column names that [repr] writes between apostrophes as they stand:
    printable ASCII without apostrophe and backslash.  [ascii_name] is
    the domain on which [py_repr] follows Python character by
    character. *)
Definition plain_char (c : ascii) : bool :=
  let n := nat_of_ascii c in
  Nat.leb 32 n && Nat.leb n 126
  && negb (Ascii.eqb c squote) && negb (Ascii.eqb c backslash).

Fixpoint plain_name (s : string) : bool :=
  match s with
  | EmptyString => true
  | String c s' => plain_char c && plain_name s'
  end.

Fixpoint ascii_name (s : string) : bool :=
  match s with
  | EmptyString => true
  | String c s' => Nat.ltb (nat_of_ascii c) 128 && ascii_name s'
  end.

(** A table without the evaluation-count column whose names need
    escaping. *)
Definition ex_quoted_names : DataFrame :=
  mkDataFrame ["it's"; "a\b"; "Trial 1"]%string [].

(** ** Ranges *)

Definition between (lo hi v : float) : Prop :=
  (lo <=? v)%float = true /\ (v <=? hi)%float = true.

Definition limits_notna (lim : limits) : Prop :=
  is_nan (xmin lim) = false /\ is_nan (xmax lim) = false /\
  is_nan (ymin lim) = false /\ is_nan (ymax lim) = false.

(** [b] is at least as wide as [a]. *)
Definition wider (a b : limits) : Prop :=
  (xmin b <=? xmin a)%float = true /\ (xmax a <=? xmax b)%float = true /\
  (ymin b <=? ymin a)%float = true /\ (ymax a <=? ymax b)%float = true.

(** A range is either still the initial one or has its ends in order. *)
Definition ordered (lo hi : float) : Prop :=
  (lo <=? hi)%float = true \/ (lo = infinity /\ hi = neg_infinity).

Definition considered (logy : bool) (v : float) : Prop :=
  is_nan v = false /\ (logy = true -> (0 <? v)%float = true).

(** The state of the scan after a list of series. *)
Definition scanned (logy : bool) (series : list (list float * list float))
  (lim : limits) : limits :=
  fold_left (update_limits logy) series lim.

(** ** Scanned and drawn series *)

Definition trial_series (rebase x_as_index : bool) (df : DataFrame)
  (cols : list string) : result (list (list float * list float)) :=
  rmap (fun col => per_trial_xy df col rebase x_as_index) cols.

(** The series of one table that [compute_global_limits] folds in. *)
Definition series_of (mean_only rebase x_as_index : bool) (df : DataFrame)
  : result (list (list float * list float)) :=
  match trial_columns df with
  | [] => Ok []
  | cols =>
      if mean_only
      then rbind (mean_xy df cols x_as_index) (fun xy => Ok [xy])
      else trial_series rebase x_as_index df cols
  end.

Definition all_series (mean_only rebase x_as_index : bool)
  (datasets : list (string * DataFrame))
  : result (list (list (list float * list float))) :=
  rmap (fun d => series_of mean_only rebase x_as_index (snd d)) datasets.

Definition line_xy (l : Line) : list float * list float := (line_x l, line_y l).

(** Where a line of the figure for [df] comes from: it is the series of a
    trial column, drawn unless mean-only is set, or it is the line
    labelled "Mean" and holds the mean series. *)
Definition line_source (df : DataFrame) (mean_only rebase idx : bool)
  (l : Line) : Prop :=
  (mean_only = false /\ line_label l <> "Mean"%string /\
   exists ss, trial_series rebase idx df (trial_columns df) = Ok ss /\
     In (line_xy l) ss) \/
  (line_label l = "Mean"%string /\
   mean_xy df (trial_columns df) idx = Ok (line_xy l)).

(** ** Example tables *)

Definition ex_path : Path := mkPath "runs/a.csv" "a.csv" "a".

(** [NoOfEvals=[0,0,10]] with a value column [[1,2,3]]. *)
Definition ex_dup : DataFrame :=
  mkDataFrame ["NoOfEvals"; "Trial1"]%string
    [[Numeric 0; Numeric 1]; [Numeric 0; Numeric 2]; [Numeric 10; Numeric 3]].

Definition ex_dup_cleaned : DataFrame :=
  mkDataFrame ["NoOfEvals"; "Trial1"]%string
    [[Numeric 0; Numeric 2]; [Numeric 10; Numeric 3]].

(** A cleaned table whose evaluation counts start late. *)
Definition ex_late : DataFrame :=
  mkDataFrame ["NoOfEvals"; "Trial1"]%string
    [[Numeric 10; Numeric 1]; [Numeric 20; Numeric 2]].

(** A table without the evaluation-count column. *)
Definition ex_no_key : DataFrame :=
  mkDataFrame ["Evals"; "Trial1"]%string [[Numeric 0; Numeric 1]].

(** Two methods; one entry of the second trial is no number. *)
Definition ex_a : DataFrame :=
  mkDataFrame ["NoOfEvals"; "Trial1"; "Trial2"]%string
    [[Numeric 0; Numeric 5; Numeric 5]; [Numeric 10; Numeric 4; Text "n/a"];
     [Numeric 20; Numeric 3; Numeric 2]; [Numeric 30; Numeric 2; Numeric 1]].

Definition ex_b : DataFrame :=
  mkDataFrame ["NoOfEvals"; "Trial1"]%string
    [[Numeric 0; Numeric 6]; [Numeric 10; Numeric 5]; [Numeric 20; Numeric 4]].

(** A cleaned table of a single row. *)
Definition ex_one_point : DataFrame :=
  mkDataFrame ["NoOfEvals"; "Trial1"]%string [[Numeric 5; Numeric 3]].

(** A cleaned table whose single evaluation count is infinite, as the text
    [inf] is read from a file. *)
Definition ex_inf : DataFrame :=
  mkDataFrame ["NoOfEvals"; "Trial1"]%string [[Numeric infinity; Numeric 3]].

(** A trial with a negative value. *)
Definition ex_signed : DataFrame :=
  mkDataFrame ["NoOfEvals"; "Trial1"]%string
    [[Numeric 0; Numeric (-1)]; [Numeric 10; Numeric 1]; [Numeric 20; Numeric 2]].

(** Two of three evaluation counts are no numbers. *)
Definition ex_bad_key : DataFrame :=
  mkDataFrame ["NoOfEvals"; "Trial1"]%string
    [[Text "n/a"; Numeric 1]; [Numeric 0; Numeric 2];
     [Numeric nan; Numeric 3]].

(** [xy] is a series of the table [df] that [compute_global_limits] folds
    in: a per-trial series, or the mean series in mean-only mode (of a
    table that has trial columns). *)
Definition scanned_series (mean_only rebase x_as_index : bool)
  (df : DataFrame) (xy : list float * list float) : Prop :=
  (mean_only = false /\
   exists col, In col (trial_columns df) /\
     per_trial_xy df col rebase x_as_index = Ok xy) \/
  (mean_only = true /\ trial_columns df <> [] /\
   mean_xy df (trial_columns df) x_as_index = Ok xy).

(** A table without rows and a table without trial columns. *)
Definition ex_empty : DataFrame :=
  mkDataFrame ["NoOfEvals"; "Trial1"]%string [].

Definition ex_only_key : DataFrame :=
  mkDataFrame ["NoOfEvals"]%string [[Numeric 0]; [Numeric 10]].

(** The label and the marker of the trial line at position [i] (from 0). *)
Definition trial_label (i : nat) : string :=
  ("Trial " ++ string_of_nat (i + 1))%string.

Definition trial_marker (i : nat) : option string :=
  Some (nth (i mod 11) default_markers EmptyString).

(** [d] is the table loaded from the file [snd lf] under the label
    [fst lf]. *)
Definition loaded (read_csv : Path -> DataFrame) (lf : string * Path)
  (d : string * DataFrame) : Prop :=
  fst d = fst lf /\
  exists msgs, read_csv_clean (snd lf) (read_csv (snd lf)) = Ok (snd d, msgs).

(** [fig] is the figure drawn for the table [d] with the flags of [args]
    and the limits [lims], as [main] calls [plot_single_method]. *)
Definition drawn (args : Args) (lims : float * float * float * float)
  (d : string * DataFrame) (fig : Figure) : Prop :=
  plot_single_method (snd d) (fst d)
    (fst (fst (fst lims))) (snd (fst (fst lims))) (snd (fst lims)) (snd lims)
    (negb (no_logy args)) (mean_only args) (show_mean args)
    (rebase_per_trial args) (x_as_index args)
    (output_file (output_dir args) (fst d)) = Ok fig.

(** Two files, their contents, and a command line. *)
Definition ex_files : list Path :=
  [mkPath "runs/a.csv" "a.csv" "a"; mkPath "runs/b.csv" "b.csv" "b"].

Definition ex_read_csv (p : Path) : DataFrame :=
  if String.eqb (path_stem p) "b" then ex_b else ex_a.

Definition ex_args : Args :=
  mkArgs ex_files (Some ["Method A"; "Method B"]%string)
    false false false false false "figures/separate".

Definition ex_world : World := mkWorld [] [].

(** The rows of [ex_b] in another order, one of them twice. *)
Definition ex_b_shuffled : DataFrame :=
  mkDataFrame ["NoOfEvals"; "Trial1"]%string
    [[Numeric 20; Numeric 4]; [Numeric 0; Numeric 6]; [Numeric 10; Numeric 5];
     [Numeric 0; Numeric 6]].

(** * Part III: properties *)

(** ** The order of binary64 values *)

Ltac order_cases :=
  change (Pos.compare_cont Eq) with Pos.compare in *;
  repeat match goal with
    | |- context [Z.compare ?a ?b] => destruct (Z.compare_spec a b)
    | |- context [Pos.compare ?a ?b] => destruct (Pos.compare_spec a b)
    | H : context [Z.compare ?a ?b] |- _ => destruct (Z.compare_spec a b)
    | H : context [Pos.compare ?a ?b] |- _ => destruct (Pos.compare_spec a b)
    end;
  simpl in *; subst; try reflexivity; try discriminate; try lia.

Lemma SFcompare_None a b :
  SFcompare a b = None <-> sf_nan a = true \/ sf_nan b = true.
Proof.
  destruct a, b; simpl; split; intros H;
    try discriminate; try (destruct H; discriminate); auto.
Qed.

Lemma SFcompare_refl a : sf_nan a = false -> SFcompare a a = Some Eq.
Proof.
  destruct a as [s | s | | s m e]; simpl; intros H; try discriminate.
  - reflexivity.
  - destruct s; reflexivity.
  - destruct s; order_cases.
Qed.

Lemma SFcompare_sym a b :
  SFcompare b a = option_map CompOpp (SFcompare a b).
Proof.
  destruct a as [sa | sa | | sa ma ea], b as [sb | sb | | sb mb eb]; simpl;
    try reflexivity;
    try (destruct sa; reflexivity); try (destruct sb; reflexivity);
    try (destruct sa, sb; reflexivity).
  destruct sa, sb; try reflexivity; order_cases.
Qed.

(** Transitivity, strict as soon as one step is strict. *)
Lemma SFcompare_trans a b c r1 r2 :
  SFcompare a b = Some r1 -> SFcompare b c = Some r2 ->
  r1 <> Gt -> r2 <> Gt ->
  SFcompare a c = Some (match r1, r2 with Eq, Eq => Eq | _, _ => Lt end).
Proof.
  destruct a as [sa | sa | | sa ma ea], b as [sb | sb | | sb mb eb],
    c as [sc | sc | | sc mc ec]; simpl; intros H1 H2 N1 N2;
    try discriminate;
    try destruct sa; try destruct sb; try destruct sc;
    injection H1 as <-; injection H2 as <-;
    try congruence; try reflexivity; revert N1 N2; order_cases;
    intros; try congruence.
Qed.

Lemma ltb_cmp x y :
  (x <? y)%float = match cmp x y with Some Lt => true | _ => false end.
Proof. rewrite FloatAxioms.ltb_spec. reflexivity. Qed.

Lemma leb_cmp x y :
  (x <=? y)%float = match cmp x y with Some (Lt | Eq) => true | _ => false end.
Proof. rewrite FloatAxioms.leb_spec. reflexivity. Qed.

Lemma eqb_cmp x y :
  (x =? y)%float = match cmp x y with Some Eq => true | _ => false end.
Proof. rewrite FloatAxioms.eqb_spec. reflexivity. Qed.

Lemma is_nan_sf x : is_nan x = sf_nan (Prim2SF x).
Proof.
  unfold is_nan. rewrite eqb_cmp. unfold cmp.
  destruct (sf_nan (Prim2SF x)) eqn:E.
  - assert (H : SFcompare (Prim2SF x) (Prim2SF x) = None)
      by (apply SFcompare_None; auto).
    rewrite H. reflexivity.
  - rewrite SFcompare_refl by assumption. reflexivity.
Qed.

Lemma cmp_None x y :
  cmp x y = None <-> is_nan x = true \/ is_nan y = true.
Proof. rewrite !is_nan_sf. apply SFcompare_None. Qed.

Lemma cmp_Some x y :
  is_nan x = false -> is_nan y = false -> exists r, cmp x y = Some r.
Proof.
  intros Hx Hy. destruct (cmp x y) as [r |] eqn:E; eauto.
  apply cmp_None in E. destruct E; congruence.
Qed.

Lemma cmp_notna x y r :
  cmp x y = Some r -> is_nan x = false /\ is_nan y = false.
Proof.
  intros E. split.
  - destruct (is_nan x) eqn:N; auto.
    assert (cmp x y = None) by (apply cmp_None; auto). congruence.
  - destruct (is_nan y) eqn:N; auto.
    assert (cmp x y = None) by (apply cmp_None; auto). congruence.
Qed.

Lemma cmp_refl x : is_nan x = false -> cmp x x = Some Eq.
Proof. rewrite is_nan_sf. apply SFcompare_refl. Qed.

Lemma cmp_sym x y : cmp y x = option_map CompOpp (cmp x y).
Proof. apply SFcompare_sym. Qed.

Lemma cmp_trans x y z r1 r2 :
  cmp x y = Some r1 -> cmp y z = Some r2 -> r1 <> Gt -> r2 <> Gt ->
  cmp x z = Some (match r1, r2 with Eq, Eq => Eq | _, _ => Lt end).
Proof. apply SFcompare_trans. Qed.

(** Turns the comparisons of a goal into facts about [cmp]. *)
Ltac to_cmp :=
  rewrite ?ltb_cmp, ?leb_cmp, ?eqb_cmp in *.

Lemma ltb_notna x y :
  (x <? y)%float = true -> is_nan x = false /\ is_nan y = false.
Proof.
  to_cmp. destruct (cmp x y) as [r |] eqn:E; try discriminate.
  intros _. eapply cmp_notna; eauto.
Qed.

Lemma leb_notna x y :
  (x <=? y)%float = true -> is_nan x = false /\ is_nan y = false.
Proof.
  to_cmp. destruct (cmp x y) as [r |] eqn:E; try discriminate.
  intros _. eapply cmp_notna; eauto.
Qed.

Lemma eqb_notna x y :
  (x =? y)%float = true -> is_nan x = false /\ is_nan y = false.
Proof.
  to_cmp. destruct (cmp x y) as [r |] eqn:E; try discriminate.
  intros _. eapply cmp_notna; eauto.
Qed.

Lemma leb_refl x : is_nan x = false -> (x <=? x)%float = true.
Proof. intros H. to_cmp. rewrite cmp_refl by assumption. reflexivity. Qed.

Lemma eqb_refl x : is_nan x = false -> (x =? x)%float = true.
Proof. intros H. to_cmp. rewrite cmp_refl by assumption. reflexivity. Qed.

Lemma ltb_leb x y : (x <? y)%float = true -> (x <=? y)%float = true.
Proof. to_cmp. destruct (cmp x y) as [[| |] |]; auto. Qed.

Lemma eqb_leb x y : (x =? y)%float = true -> (x <=? y)%float = true.
Proof. to_cmp. destruct (cmp x y) as [[| |] |]; auto. Qed.

Lemma eqb_sym x y : (x =? y)%float = (y =? x)%float.
Proof.
  to_cmp. rewrite (cmp_sym x y). destruct (cmp x y) as [[| |] |]; reflexivity.
Qed.

Lemma ltb_false_leb x y :
  is_nan x = false -> is_nan y = false ->
  (y <? x)%float = false -> (x <=? y)%float = true.
Proof.
  intros Hx Hy. to_cmp. rewrite (cmp_sym x y).
  destruct (cmp_Some x y Hx Hy) as [r ->]. destruct r; simpl; auto.
Qed.

Lemma leb_ltb_false x y : (x <=? y)%float = true -> (y <? x)%float = false.
Proof.
  to_cmp. rewrite (cmp_sym x y). destruct (cmp x y) as [[| |] |]; simpl; auto.
Qed.

Lemma leb_false_ltb x y :
  is_nan x = false -> is_nan y = false ->
  (x <=? y)%float = false -> (y <? x)%float = true.
Proof.
  intros Hx Hy. to_cmp. rewrite (cmp_sym x y).
  destruct (cmp_Some x y Hx Hy) as [r ->]. destruct r; simpl; auto.
Qed.

Lemma leb_trans x y z :
  (x <=? y)%float = true -> (y <=? z)%float = true -> (x <=? z)%float = true.
Proof.
  to_cmp.
  destruct (cmp x y) as [r1 |] eqn:E1; try discriminate.
  destruct (cmp y z) as [r2 |] eqn:E2; try discriminate.
  intros H1 H2.
  rewrite (cmp_trans _ _ _ _ _ E1 E2) by (destruct r1, r2; congruence).
  destruct r1, r2; auto.
Qed.

Lemma ltb_leb_trans x y z :
  (x <? y)%float = true -> (y <=? z)%float = true -> (x <? z)%float = true.
Proof.
  to_cmp.
  destruct (cmp x y) as [r1 |] eqn:E1; try discriminate.
  destruct (cmp y z) as [r2 |] eqn:E2; try discriminate.
  intros H1 H2.
  rewrite (cmp_trans _ _ _ _ _ E1 E2) by (destruct r1, r2; congruence).
  destruct r1, r2; auto; discriminate.
Qed.

Lemma leb_ltb_trans x y z :
  (x <=? y)%float = true -> (y <? z)%float = true -> (x <? z)%float = true.
Proof.
  to_cmp.
  destruct (cmp x y) as [r1 |] eqn:E1; try discriminate.
  destruct (cmp y z) as [r2 |] eqn:E2; try discriminate.
  intros H1 H2.
  rewrite (cmp_trans _ _ _ _ _ E1 E2) by (destruct r1, r2; congruence).
  destruct r1, r2; auto; discriminate.
Qed.

Lemma leb_neq_ltb x y :
  (x <=? y)%float = true -> (x =? y)%float = false -> (x <? y)%float = true.
Proof. to_cmp. destruct (cmp x y) as [[| |] |]; auto. Qed.

Lemma ltb_neq x y : (x <? y)%float = true -> (x =? y)%float = false.
Proof. to_cmp. destruct (cmp x y) as [[| |] |]; auto; discriminate. Qed.

Lemma eqb_leb_trans x y z :
  (x =? y)%float = true -> (y <=? z)%float = true -> (x <=? z)%float = true.
Proof. intros H. apply leb_trans. apply eqb_leb. assumption. Qed.

Lemma eqb_ltb_false x y : (x =? y)%float = true -> (x <? y)%float = false.
Proof. to_cmp. destruct (cmp x y) as [[| |] |]; auto; discriminate. Qed.

Lemma eqb_trans x y z :
  (x =? y)%float = true -> (y =? z)%float = true -> (x =? z)%float = true.
Proof.
  to_cmp.
  destruct (cmp x y) as [r1 |] eqn:E1; try discriminate.
  destruct (cmp y z) as [r2 |] eqn:E2; try discriminate.
  intros H1 H2.
  rewrite (cmp_trans _ _ _ _ _ E1 E2) by (destruct r1, r2; congruence).
  destruct r1, r2; auto; discriminate.
Qed.

(** ** Subtraction of a finite value from itself *)

Lemma sf_sub_diag s :
  match s with S754_zero _ | S754_finite _ _ _ => True | _ => False end ->
  SF64sub s s = S754_zero false.
Proof.
  destruct s as [b | b | | b m e]; simpl; intros H; try contradiction.
  - destruct b; reflexivity.
  - unfold SF64sub, SFsub. rewrite Z.sub_diag. reflexivity.
Qed.

Lemma is_finite_sf x :
  is_finite x = true ->
  match Prim2SF x with S754_zero _ | S754_finite _ _ _ => True | _ => False end.
Proof.
  unfold is_finite, is_infinity. rewrite is_nan_sf, FloatAxioms.eqb_spec, FloatAxioms.abs_spec.
  destruct (Prim2SF x) as [b | b | | b m e]; simpl; auto; discriminate.
Qed.

Lemma sub_diag x : is_finite x = true -> (x - x)%float = 0%float.
Proof.
  intros H. apply Prim2SF_inj. rewrite FloatAxioms.sub_spec.
  rewrite sf_sub_diag by (apply is_finite_sf; assumption). reflexivity.
Qed.

Lemma is_finite_notna x : is_finite x = true -> is_nan x = false.
Proof.
  unfold is_finite. destruct (is_nan x); simpl; auto.
Qed.

(** ** Python's min and max, numpy's nanmin and nanmax *)

Lemma py_min_nan a : py_min a nan = a.
Proof.
  unfold py_min. destruct (nan <? a)%float eqn:E; auto.
  apply ltb_notna in E. destruct E; discriminate.
Qed.

Lemma py_max_nan a : py_max a nan = a.
Proof.
  unfold py_max. destruct (a <? nan)%float eqn:E; auto.
  apply ltb_notna in E. destruct E; discriminate.
Qed.

Lemma py_min_notna a b : is_nan a = false -> is_nan (py_min a b) = false.
Proof.
  unfold py_min. destruct (b <? a)%float eqn:E; auto.
  intros _. apply ltb_notna in E. tauto.
Qed.

Lemma py_max_notna a b : is_nan a = false -> is_nan (py_max a b) = false.
Proof.
  unfold py_max. destruct (a <? b)%float eqn:E; auto.
  intros _. apply ltb_notna in E. tauto.
Qed.

Lemma py_min_le_l a b : is_nan a = false -> (py_min a b <=? a)%float = true.
Proof.
  unfold py_min. intros H. destruct (b <? a)%float eqn:E.
  - apply ltb_leb; assumption.
  - apply leb_refl; assumption.
Qed.

Lemma py_min_le_r a b :
  is_nan a = false -> is_nan b = false -> (py_min a b <=? b)%float = true.
Proof.
  unfold py_min. intros Ha Hb. destruct (b <? a)%float eqn:E.
  - apply leb_refl; assumption.
  - apply ltb_false_leb; assumption.
Qed.

Lemma py_max_ge_l a b : is_nan a = false -> (a <=? py_max a b)%float = true.
Proof.
  unfold py_max. intros H. destruct (a <? b)%float eqn:E.
  - apply ltb_leb; assumption.
  - apply leb_refl; assumption.
Qed.

Lemma py_max_ge_r a b :
  is_nan a = false -> is_nan b = false -> (b <=? py_max a b)%float = true.
Proof.
  unfold py_max. intros Ha Hb. destruct (a <? b)%float eqn:E.
  - apply leb_refl; assumption.
  - apply ltb_false_leb; assumption.
Qed.

Lemma py_min_cases a b : py_min a b = a \/ py_min a b = b.
Proof. unfold py_min. destruct (b <? a)%float; auto. Qed.

Lemma py_max_cases a b : py_max a b = a \/ py_max a b = b.
Proof. unfold py_max. destruct (a <? b)%float; auto. Qed.

Lemma filter_notna_In v l :
  In v (filter notna l) <-> In v l /\ is_nan v = false.
Proof.
  rewrite filter_In. unfold notna. rewrite negb_true_iff. tauto.
Qed.

(** The running minimum of a fold is below its start and below every
    element folded in, and is one of them. *)
Lemma fold_min_spec vs : forall v,
  is_nan v = false -> Forall (fun w => is_nan w = false) vs ->
  let m := fold_left py_min vs v in
  is_nan m = false /\ (m <=? v)%float = true /\
  Forall (fun w => (m <=? w)%float = true) vs /\ In m (v :: vs).
Proof.
  induction vs as [| w vs IH]; intros v Hv Hall; simpl.
  - repeat split; auto using leb_refl.
  - inversion Hall as [| ? ? Hw Hvs]; subst.
    destruct (IH (py_min v w) (py_min_notna v w Hv) Hvs) as (N & L & A & I).
    repeat split; auto.
    + apply leb_trans with (py_min v w); [exact L | apply py_min_le_l; assumption].
    + constructor; auto.
      apply leb_trans with (py_min v w); [exact L | apply py_min_le_r; assumption].
    + destruct I as [I | I]; auto.
      rewrite <- I. destruct (py_min_cases v w) as [E | E]; rewrite E; auto.
Qed.

Lemma fold_max_spec vs : forall v,
  is_nan v = false -> Forall (fun w => is_nan w = false) vs ->
  let m := fold_left py_max vs v in
  is_nan m = false /\ (v <=? m)%float = true /\
  Forall (fun w => (w <=? m)%float = true) vs /\ In m (v :: vs).
Proof.
  induction vs as [| w vs IH]; intros v Hv Hall; simpl.
  - repeat split; auto using leb_refl.
  - inversion Hall as [| ? ? Hw Hvs]; subst.
    destruct (IH (py_max v w) (py_max_notna v w Hv) Hvs) as (N & L & A & I).
    repeat split; auto.
    + apply leb_trans with (py_max v w); [apply py_max_ge_l; assumption | exact L].
    + constructor; auto.
      apply leb_trans with (py_max v w); [apply py_max_ge_r; assumption | exact L].
    + destruct I as [I | I]; auto.
      rewrite <- I. destruct (py_max_cases v w) as [E | E]; rewrite E; auto.
Qed.

Lemma filter_notna_Forall l :
  Forall (fun w => is_nan w = false) (filter notna l).
Proof.
  apply Forall_forall. intros w H. apply filter_notna_In in H. tauto.
Qed.

Lemma np_nanmin_all_nan l : filter notna l = [] -> np_nanmin l = nan.
Proof. unfold np_nanmin. intros ->. reflexivity. Qed.

Lemma np_nanmax_all_nan l : filter notna l = [] -> np_nanmax l = nan.
Proof. unfold np_nanmax. intros ->. reflexivity. Qed.

Lemma np_nanmin_spec l :
  filter notna l <> [] ->
  is_nan (np_nanmin l) = false /\ In (np_nanmin l) l /\
  forall v, In v l -> is_nan v = false -> (np_nanmin l <=? v)%float = true.
Proof.
  unfold np_nanmin. intros Hne.
  pose proof (filter_notna_Forall l) as Hall.
  assert (Hin : forall v, In v (filter notna l) <-> In v l /\ is_nan v = false)
    by (intros; apply filter_notna_In).
  destruct (filter notna l) as [| v vs]; [congruence |].
  inversion Hall as [| ? ? Hv Hvs]; subst.
  destruct (fold_min_spec vs v Hv Hvs) as (N & L & A & I).
  split; [exact N | split].
  - apply Hin in I. tauto.
  - intros w Hw Nw. assert (Hw' : In w (v :: vs)) by (apply Hin; auto).
    destruct Hw' as [<- | Hw']; auto.
    rewrite Forall_forall in A. auto.
Qed.

Lemma np_nanmax_spec l :
  filter notna l <> [] ->
  is_nan (np_nanmax l) = false /\ In (np_nanmax l) l /\
  forall v, In v l -> is_nan v = false -> (v <=? np_nanmax l)%float = true.
Proof.
  unfold np_nanmax. intros Hne.
  pose proof (filter_notna_Forall l) as Hall.
  assert (Hin : forall v, In v (filter notna l) <-> In v l /\ is_nan v = false)
    by (intros; apply filter_notna_In).
  destruct (filter notna l) as [| v vs]; [congruence |].
  inversion Hall as [| ? ? Hv Hvs]; subst.
  destruct (fold_max_spec vs v Hv Hvs) as (N & L & A & I).
  split; [exact N | split].
  - apply Hin in I. tauto.
  - intros w Hw Nw. assert (Hw' : In w (v :: vs)) by (apply Hin; auto).
    destruct Hw' as [<- | Hw']; auto.
    rewrite Forall_forall in A. auto.
Qed.

Lemma np_nanmin_le_nanmax l :
  filter notna l <> [] -> (np_nanmin l <=? np_nanmax l)%float = true.
Proof.
  intros H. destruct (np_nanmin_spec l H) as (N & I & L).
  destruct (np_nanmax_spec l H) as (N' & I' & L').
  apply L; assumption.
Qed.

(** ** Sorting and deduplication *)

Section CleaningFacts.

Variable A : Type.
Variable key : A -> float.

Lemma dropna_In a l : In a (dropna key l) <-> In a l /\ is_nan (key a) = false.
Proof.
  unfold dropna. rewrite filter_In. unfold notna. rewrite negb_true_iff. tauto.
Qed.

Lemma dropna_keys_notna l : keys_notna key (dropna key l).
Proof.
  apply Forall_forall. intros a H. apply dropna_In in H. tauto.
Qed.

Lemma dropna_id l : keys_notna key l -> dropna key l = l.
Proof.
  unfold dropna, notna. induction 1 as [| a l Ha Hl IH]; simpl; auto.
  rewrite Ha. simpl. f_equal. exact IH.
Qed.

Lemma insert_by_In x a l : In x (insert_by key a l) <-> x = a \/ In x l.
Proof.
  induction l as [| b l IH]; simpl.
  - intuition congruence.
  - destruct (key a <=? key b)%float; simpl; rewrite ?IH; intuition congruence.
Qed.

Lemma sort_values_In x l : In x (sort_values key l) <-> In x l.
Proof.
  induction l as [| a l IH]; simpl; [tauto |].
  rewrite insert_by_In, IH. intuition congruence.
Qed.

Lemma sort_values_keys_notna l :
  keys_notna key l -> keys_notna key (sort_values key l).
Proof.
  unfold keys_notna. rewrite !Forall_forall. intros H a Ha.
  apply H. apply sort_values_In. exact Ha.
Qed.

Lemma insert_by_sorted a l :
  is_nan (key a) = false -> keys_notna key l ->
  StronglySorted (key_le key) l ->
  StronglySorted (key_le key) (insert_by key a l).
Proof.
  intros Ha Hl Hs. induction Hs as [| b l Hs IH Hb]; simpl.
  - constructor; constructor.
  - inversion Hl as [| ? ? Nb Nl]; subst.
    destruct (key a <=? key b)%float eqn:E.
    + constructor; [constructor; assumption |].
      constructor; [exact E |].
      rewrite Forall_forall in *. intros c Hc.
      unfold key_le in *. apply leb_trans with (key b); auto.
    + constructor; [apply IH; assumption |].
      apply Forall_forall. intros c Hc. apply insert_by_In in Hc.
      destruct Hc as [-> | Hc].
      * apply ltb_leb. apply leb_false_ltb; assumption.
      * rewrite Forall_forall in Hb. auto.
Qed.

Lemma sort_values_sorted l :
  keys_notna key l -> StronglySorted (key_le key) (sort_values key l).
Proof.
  induction 1 as [| a l Ha Hl IH]; simpl.
  - constructor.
  - apply insert_by_sorted; auto. apply sort_values_keys_notna. exact Hl.
Qed.

(** Sorting a sorted list changes nothing. *)
Lemma sort_values_id l :
  StronglySorted (key_le key) l -> sort_values key l = l.
Proof.
  induction 1 as [| a l Hs IH Ha]; simpl; auto.
  rewrite IH. destruct l as [| b l]; simpl; auto.
  inversion Ha as [| ? ? Hab _]; subst. unfold key_le in Hab.
  rewrite Hab. reflexivity.
Qed.

(** The sort is stable: rows of equal key keep their order. *)
Lemma insert_by_filter x a l :
  filter (same_key key x) (insert_by key a l) =
  if same_key key x a
  then a :: filter (same_key key x) l
  else filter (same_key key x) l.
Proof.
  induction l as [| b l IH]; simpl.
  - destruct (same_key key x a); reflexivity.
  - destruct (key a <=? key b)%float eqn:E; simpl.
    + destruct (same_key key x a); reflexivity.
    + rewrite IH. destruct (same_key key x a) eqn:Ea; auto.
      destruct (same_key key x b) eqn:Eb; auto.
      unfold same_key in *.
      assert (H : (key a =? key b)%float = true).
      { apply eqb_trans with x; auto. rewrite eqb_sym. exact Eb. }
      apply eqb_leb in H. congruence.
Qed.

Lemma sort_values_stable x l :
  filter (same_key key x) (sort_values key l) = filter (same_key key x) l.
Proof.
  induction l as [| a l IH]; simpl; auto.
  rewrite insert_by_filter, IH. reflexivity.
Qed.

Lemma drop_duplicates_last_In a l :
  In a (drop_duplicates_last key l) -> In a l.
Proof.
  induction l as [| b l IH]; simpl; auto.
  destruct (existsb _ l); simpl; intuition.
Qed.

(** A row that is kept has no later row of equal key. *)
Lemma drop_duplicates_last_split a l :
  In a (drop_duplicates_last key l) ->
  exists l1 l2, l = l1 ++ a :: l2 /\
    Forall (fun b => same_key key (key a) b = false) l2.
Proof.
  induction l as [| b l IH]; simpl; [tauto |].
  destruct (existsb _ l) eqn:E; simpl.
  - intros H. destruct (IH H) as (l1 & l2 & -> & F).
    exists (b :: l1), l2. auto.
  - intros [-> | H].
    + exists [], l. split; auto.
      apply Forall_forall. intros c Hc.
      destruct (same_key key (key a) c) eqn:Ec; auto.
      assert (existsb (fun b => (key b =? key a)%float) l = true)
        by (apply existsb_exists; exists c; auto).
      congruence.
    + destruct (IH H) as (l1 & l2 & -> & F).
      exists (b :: l1), l2. auto.
Qed.

(** Every key of the input keeps a row. *)
Lemma drop_duplicates_last_complete l : forall a,
  In a l -> is_nan (key a) = false ->
  exists r, In r (drop_duplicates_last key l) /\ (key r =? key a)%float = true.
Proof.
  induction l as [| b l IH]; simpl; [tauto |].
  intros a Ha Na.
  destruct (existsb _ l) eqn:E; simpl.
  - destruct Ha as [-> | Ha]; [| auto].
    apply existsb_exists in E. destruct E as (c & Hc & Ec).
    destruct (IH c Hc) as (r & Hr & Er).
    { apply eqb_notna in Ec. tauto. }
    exists r. split; auto. apply eqb_trans with (key c); assumption.
  - destruct Ha as [-> | Ha].
    + exists a. split; auto. apply eqb_refl. exact Na.
    + destruct (IH a Ha Na) as (r & Hr & Er). exists r. auto.
Qed.

Lemma drop_duplicates_last_sorted l :
  StronglySorted (key_le key) l ->
  StronglySorted (key_lt key) (drop_duplicates_last key l).
Proof.
  induction 1 as [| a l Hs IH Ha]; simpl; [constructor |].
  destruct (existsb _ l) eqn:E; auto.
  constructor; auto.
  apply Forall_forall. intros b Hb. apply drop_duplicates_last_In in Hb.
  rewrite Forall_forall in Ha. unfold key_lt. apply leb_neq_ltb.
  - apply Ha. exact Hb.
  - rewrite eqb_sym. destruct (key b =? key a)%float eqn:Eb; auto.
    assert (existsb (fun b => (key b =? key a)%float) l = true)
      by (apply existsb_exists; exists b; auto).
    congruence.
Qed.

(** Nothing is dropped from a strictly increasing list. *)
Lemma drop_duplicates_last_id l :
  StronglySorted (key_lt key) l -> drop_duplicates_last key l = l.
Proof.
  induction 1 as [| a l Hs IH Ha]; simpl; auto.
  rewrite IH.
  destruct (existsb (fun b => (key b =? key a)%float) l) eqn:E; auto.
  apply existsb_exists in E. destruct E as (b & Hb & Eb).
  rewrite Forall_forall in Ha. specialize (Ha b Hb). unfold key_lt in Ha.
  apply ltb_neq in Ha. rewrite eqb_sym in Ha. congruence.
Qed.

Lemma key_lt_le l :
  StronglySorted (key_lt key) l -> StronglySorted (key_le key) l.
Proof.
  induction 1 as [| a l Hs IH Ha]; constructor; auto.
  eapply Forall_impl; [| exact Ha]. intros b. apply ltb_leb.
Qed.

(** A split of the filtered list lifts to a split of the list. *)
Lemma filter_last_split (p : A -> bool) r l : forall F,
  filter p l = F ++ [r] ->
  exists l1 l2, l = l1 ++ r :: l2 /\ Forall (fun b => p b = false) l2.
Proof.
  induction l as [| a l IH]; simpl; intros F H.
  - destruct F; discriminate.
  - destruct (p a) eqn:E.
    + destruct F as [| f F]; simpl in H.
      * injection H as -> Hl. exists [], l. split; auto.
        apply Forall_forall. intros b Hb.
        destruct (p b) eqn:Eb; auto.
        assert (In b (filter p l)) by (apply filter_In; auto).
        rewrite Hl in *. contradiction.
      * injection H as -> Hl. destruct (IH F Hl) as (l1 & l2 & -> & Hf).
        exists (f :: l1), l2. auto.
    + destruct (IH F H) as (l1 & l2 & -> & Hf).
      exists (a :: l1), l2. auto.
Qed.

Lemma filter_none (p : A -> bool) l :
  Forall (fun b => p b = false) l -> filter p l = [].
Proof.
  induction 1 as [| a l Ha Hl IH]; simpl; auto. rewrite Ha. exact IH.
Qed.

(** Sorting then deduplicating keeps, of the rows of one key, the one that
    came last in the input. *)
Lemma clean_keeps_last l r :
  keys_notna key l ->
  In r (drop_duplicates_last key (sort_values key l)) ->
  exists l1 l2, l = l1 ++ r :: l2 /\
    Forall (fun b => (key b =? key r)%float = false) l2.
Proof.
  intros Hl Hr.
  assert (Nr : is_nan (key r) = false).
  { pose proof (drop_duplicates_last_In _ _ Hr) as Hr'.
    rewrite sort_values_In in Hr'.
    unfold keys_notna in Hl. rewrite Forall_forall in Hl. auto. }
  destruct (drop_duplicates_last_split r _ Hr) as (s1 & s2 & Hs & Hf).
  pose proof (sort_values_stable (key r) l) as St.
  rewrite Hs, filter_app in St. simpl in St.
  unfold same_key at 2 in St. rewrite (eqb_refl _ Nr) in St.
  rewrite (filter_none _ _ Hf) in St.
  symmetry in St. apply filter_last_split in St. exact St.
Qed.

End CleaningFacts.


(** ** Columns and cells *)

Lemma col_index_None c cs : col_index c cs = None <-> ~ In c cs.
Proof.
  induction cs as [| c' cs IH]; simpl; [tauto |].
  destruct (String.eqb_spec c' c) as [-> | Hne].
  - split; [discriminate | intros H; exfalso; auto].
  - destruct (col_index c cs); simpl.
    + split; [discriminate |]. intros H. exfalso. apply H. right.
      destruct IH as [_ IH]. destruct (in_dec string_dec c cs); auto.
      specialize (IH n0). discriminate.
    + split; auto. intros _ [H | H]; [congruence |].
      destruct IH as [IH _]. apply (IH eq_refl H).
Qed.

Lemma col_index_Some c cs : In c cs -> exists i, col_index c cs = Some i.
Proof.
  intros H. destruct (col_index c cs) as [i |] eqn:E; eauto.
  apply col_index_None in E. contradiction.
Qed.

Lemma set_cell_twice k c c' r : set_cell k c (set_cell k c' r) = set_cell k c r.
Proof.
  revert k. induction r as [| x r IH]; intros [| k]; simpl; auto.
  rewrite IH. reflexivity.
Qed.

Lemma cell_at_set_cell k c r :
  cell_at k (set_cell k c r) = if Nat.ltb k (List.length r) then c else cell_at k r.
Proof.
  unfold cell_at. revert k. induction r as [| x r IH]; intros [| k]; simpl; auto.
Qed.

Lemma set_cell_short k c r : List.length r <= k -> set_cell k c r = r.
Proof.
  revert k. induction r as [| x r IH]; intros [| k]; simpl; intros H; auto.
  - lia.
  - rewrite IH by lia. reflexivity.
Qed.

Lemma value_at_coerce_key k r : value_at k (coerce_key k r) = value_at k r.
Proof.
  unfold value_at, coerce_key. rewrite cell_at_set_cell.
  destruct (Nat.ltb k (List.length r)); reflexivity.
Qed.

Lemma coerce_key_idem k r : coerce_key k (coerce_key k r) = coerce_key k r.
Proof.
  unfold coerce_key at 1. rewrite value_at_coerce_key.
  unfold coerce_key. apply set_cell_twice.
Qed.

(** After coercion a key that is not NaN sits in a numeric cell. *)
Lemma coerce_key_numeric k r :
  is_nan (value_at k (coerce_key k r)) = false ->
  cell_at k (coerce_key k r) = Numeric (value_at k r).
Proof.
  unfold coerce_key at 2. rewrite cell_at_set_cell.
  destruct (Nat.ltb k (List.length r)) eqn:E; auto.
  rewrite value_at_coerce_key. intros H.
  apply Nat.ltb_ge in E. unfold value_at, cell_at in H.
  rewrite nth_overflow in H by assumption. discriminate.
Qed.

(** ** The cleaned rows *)

Lemma clean_rows_In k rs r :
  In r (clean_rows k rs) ->
  exists r0, In r0 rs /\ r = coerce_key k r0 /\ is_nan (value_at k r) = false.
Proof.
  unfold clean_rows. intros H.
  apply drop_duplicates_last_In in H. rewrite sort_values_In in H.
  apply dropna_In in H. destruct H as [H N].
  apply in_map_iff in H. destruct H as (r0 & <- & H0). eauto.
Qed.

Lemma clean_rows_sorted k rs :
  StronglySorted (key_lt (value_at k)) (clean_rows k rs).
Proof.
  unfold clean_rows. apply drop_duplicates_last_sorted.
  apply sort_values_sorted. apply dropna_keys_notna.
Qed.

Lemma clean_rows_keys_notna k rs : keys_notna (value_at k) (clean_rows k rs).
Proof.
  apply Forall_forall. intros r H.
  apply clean_rows_In in H. destruct H as (r0 & _ & _ & N). exact N.
Qed.

Lemma clean_rows_numeric k rs r :
  In r (clean_rows k rs) -> cell_at k r = Numeric (value_at k r).
Proof.
  intros H. apply clean_rows_In in H. destruct H as (r0 & _ & -> & N).
  rewrite value_at_coerce_key. apply coerce_key_numeric. exact N.
Qed.

Lemma clean_rows_idem k rs : clean_rows k (clean_rows k rs) = clean_rows k rs.
Proof.
  assert (Hfix : map (coerce_key k) (clean_rows k rs) = clean_rows k rs).
  { rewrite <- (map_id (clean_rows k rs)) at 2. apply map_ext_in.
    intros r H. apply clean_rows_In in H. destruct H as (r0 & _ & -> & _).
    apply coerce_key_idem. }
  unfold clean_rows at 1. rewrite Hfix.
  rewrite dropna_id by apply clean_rows_keys_notna.
  rewrite sort_values_id by (apply key_lt_le; apply clean_rows_sorted).
  apply drop_duplicates_last_id. apply clean_rows_sorted.
Qed.

Lemma read_csv_clean_Ok path df out msgs :
  read_csv_clean path df = Ok (out, msgs) ->
  exists k, col_index NoOfEvals (columns df) = Some k /\
    out = mkDataFrame (columns df) (clean_rows k (rows df)).
Proof.
  unfold read_csv_clean. destruct (col_index NoOfEvals (columns df)) as [k |];
    [| discriminate].
  intros H. injection H as <- _. exists k. split; reflexivity.
Qed.

Lemma read_csv_clean_total path df k :
  col_index NoOfEvals (columns df) = Some k ->
  exists msgs, read_csv_clean path df =
    Ok (mkDataFrame (columns df) (clean_rows k (rows df)), msgs).
Proof.
  unfold read_csv_clean. intros ->. eexists. reflexivity.
Qed.

(** ** The loader: validation *)

Lemma sapp_assoc (a b c : string) : ((a ++ b) ++ c = a ++ (b ++ c))%string.
Proof. induction a as [| x a IH]; simpl; [| rewrite IH]; reflexivity. Qed.

Lemma sapp_empty_r (a : string) : (a ++ "")%string = a.
Proof. induction a as [| x a IH]; simpl; [| rewrite IH]; reflexivity. Qed.

Lemma concat_map_In (f : string -> string) c cs :
  In c cs ->
  exists pre post,
    String.concat ", " (map f cs) = (pre ++ f c ++ post)%string.
Proof.
  induction cs as [| c' cs IH]; simpl; [tauto |].
  intros [-> | H].
  - destruct cs as [| c'' cs].
    + exists EmptyString, EmptyString. simpl. rewrite sapp_empty_r. reflexivity.
    + exists EmptyString. eexists. simpl. reflexivity.
  - destruct (IH H) as (pre & post & E).
    destruct cs as [| c'' cs]; [contradiction |].
    exists (f c' ++ ", " ++ pre)%string, post.
    simpl in E. simpl. rewrite E. rewrite !sapp_assoc. reflexivity.
Qed.

Lemma py_list_repr_lists cs c :
  In c cs ->
  exists pre post, py_list_repr cs = (pre ++ py_repr c ++ post)%string.
Proof.
  intros H. destruct (concat_map_In py_repr c cs H) as (pre & post & E).
  unfold py_list_repr. rewrite E.
  exists ("[" ++ pre)%string, (post ++ "]")%string.
  rewrite !sapp_assoc. reflexivity.
Qed.

(** A plain name is written between apostrophes as it stands. *)
Lemma plain_name_no_squote c :
  plain_name c = true -> contains_char squote c = false.
Proof.
  induction c as [| a c IH]; simpl; auto.
  intros H. apply andb_true_iff in H. destruct H as [Ha Hc].
  rewrite (IH Hc), orb_false_r. unfold plain_char in Ha.
  destruct (Ascii.eqb a squote); auto.
  rewrite andb_false_r in Ha. discriminate.
Qed.

Lemma repr_char_plain a :
  plain_char a = true -> repr_char squote a = String a EmptyString.
Proof.
  unfold plain_char, repr_char. intros H.
  apply andb_true_iff in H. destruct H as [H Hb].
  apply andb_true_iff in H. destruct H as [H Hq].
  apply andb_true_iff in H. destruct H as [Hlo Hhi].
  apply negb_true_iff in Hb, Hq. rewrite Hb, Hq. simpl.
  apply Nat.leb_le in Hlo, Hhi.
  destruct (Nat.eqb_spec (nat_of_ascii a) 9); [lia |].
  destruct (Nat.eqb_spec (nat_of_ascii a) 10); [lia |].
  destruct (Nat.eqb_spec (nat_of_ascii a) 13); [lia |].
  destruct (Nat.ltb_spec (nat_of_ascii a) 32); [lia |].
  destruct (Nat.eqb_spec (nat_of_ascii a) 127); [lia |].
  reflexivity.
Qed.

Lemma repr_chars_plain c :
  plain_name c = true -> repr_chars squote c = c.
Proof.
  induction c as [| a c IH]; simpl; auto.
  intros H. apply andb_true_iff in H. destruct H as [Ha Hc].
  rewrite (repr_char_plain a Ha), (IH Hc). reflexivity.
Qed.

Lemma py_repr_plain c :
  plain_name c = true -> py_repr c = ("'" ++ c ++ "'")%string.
Proof.
  intros H. unfold py_repr, repr_quote.
  rewrite (plain_name_no_squote c H). simpl.
  rewrite (repr_chars_plain c H). reflexivity.
Qed.

(** The message of line 12 on names that need escaping. *)
Example missing_column_message_escapes :
  read_csv_clean ex_path ex_quoted_names
  = Raise (ValueError
             (String.concat EmptyString
                ["runs/a.csv must include a 'NoOfEvals' column. ";
                 "Found columns: [";
                 String dquote "it's";
                 String dquote ", 'a\\b', 'Trial 1']"]%string)).
Proof. vm_compute. reflexivity. Qed.

Lemma read_csv_clean_Raise path df e :
  read_csv_clean path df = Raise e ->
  ~ In NoOfEvals (columns df) /\ e = ValueError (missing_column_message path df).
Proof.
  unfold read_csv_clean.
  destruct (col_index NoOfEvals (columns df)) as [k |] eqn:E; [discriminate |].
  intros H. injection H as <-. split; auto. apply col_index_None. exact E.
Qed.

Lemma read_csv_clean_missing path df :
  ~ In NoOfEvals (columns df) ->
  read_csv_clean path df = Raise (ValueError (missing_column_message path df)).
Proof.
  intros H. apply col_index_None in H. unfold read_csv_clean. rewrite H.
  reflexivity.
Qed.

(** ** The script: a missing column stops the run *)

Section ScriptFacts.

Variable read_csv : Path -> DataFrame.

Lemma load_missing p w :
  lacks_key read_csv p ->
  load read_csv p w =
  (w, Raise (ValueError (missing_column_message p (read_csv p)))).
Proof.
  intros H. unfold load, bind, lift.
  rewrite (read_csv_clean_missing p (read_csv p) H). reflexivity.
Qed.

Lemma load_present p w :
  ~ lacks_key read_csv p ->
  exists df msgs,
    read_csv_clean p (read_csv p) = Ok (df, msgs) /\
    load read_csv p w = (mkWorld (stdout w ++ msgs) (written w), Ok df).
Proof.
  intros H. unfold load, bind, lift, print, ret.
  destruct (read_csv_clean p (read_csv p)) as [[df msgs] | e] eqn:E.
  - exists df, msgs. split; reflexivity.
  - apply read_csv_clean_Raise in E. destruct E as [E _]. contradiction.
Qed.

Lemma lacks_key_dec p : {lacks_key read_csv p} + {~ lacks_key read_csv p}.
Proof.
  unfold lacks_key.
  destruct (in_dec string_dec NoOfEvals (columns (read_csv p))); auto.
Qed.

Lemma load_all_aborts (lfs : list (string * Path)) : forall w,
  Exists (fun lf => lacks_key read_csv (snd lf)) lfs ->
  exists w' p,
    for_each (fun lf => bind (load read_csv (snd lf))
                          (fun df => ret (fst lf, df))) lfs w =
    (w', Raise (ValueError (missing_column_message p (read_csv p)))) /\
    In p (map snd lfs) /\ lacks_key read_csv p /\ written w' = written w.
Proof.
  induction lfs as [| [l p] lfs IH]; intros w H.
  - inversion H.
  - simpl. destruct (lacks_key_dec p) as [Hp | Hp].
    + exists w, p. unfold bind at 1 2. rewrite (load_missing p w Hp).
      simpl. auto.
    + assert (Hrest : Exists (fun lf => lacks_key read_csv (snd lf)) lfs).
      { inversion H as [? ? Hh | ? ? Ht]; subst; auto. contradiction. }
      destruct (load_present p w Hp) as (df & msgs & _ & L).
      destruct (IH (mkWorld (stdout w ++ msgs) (written w)) Hrest)
        as (w' & q & E & Hq & Lq & Hw).
      exists w', q. unfold bind at 1 2. rewrite L. unfold ret at 1.
      unfold bind at 1. rewrite E. simpl in Hw. auto.
Qed.

Lemma length_choose_labels args :
  List.length (choose_labels args) = List.length (files args).
Proof.
  unfold choose_labels. destruct (labels args) as [[| l ls] |];
    try apply length_map.
  destruct (Nat.eqb_spec (List.length (l :: ls)) (List.length (files args)));
    auto using length_map.
Qed.

Lemma map_snd_combine (X Y : Type) (l1 : list X) : forall (l2 : list Y),
  List.length l1 = List.length l2 -> map snd (combine l1 l2) = l2.
Proof.
  induction l1 as [| a l1 IH]; intros [| b l2] H; simpl in *;
    try discriminate; auto.
  rewrite IH by lia. reflexivity.
Qed.

Lemma main_aborts args w :
  Exists (lacks_key read_csv) (files args) ->
  exists w' p,
    main read_csv args w =
    (w', Raise (ValueError (missing_column_message p (read_csv p)))) /\
    In p (files args) /\ lacks_key read_csv p /\ written w' = written w.
Proof.
  intros H.
  pose proof (map_snd_combine _ _ (choose_labels args) (files args)
                (length_choose_labels args)) as Hm.
  assert (He : Exists (fun lf => lacks_key read_csv (snd lf))
                 (combine (choose_labels args) (files args))).
  { rewrite <- Hm in H. apply Exists_exists in H. destruct H as (p & Hp & Lp).
    apply in_map_iff in Hp. destruct Hp as (lf & <- & Hlf).
    apply Exists_exists. exists lf. auto. }
  destruct (load_all_aborts _ w He) as (w' & p & E & Hp & Lp & Hw).
  exists w', p. unfold main, bind at 1. rewrite E. rewrite Hm in Hp. auto.
Qed.

End ScriptFacts.

(** ** Claims about the loader *)

(** C2: loading a table fails with a validation error exactly when the
    column [NoOfEvals] is absent from its columns.  The loader raises
    nothing else; the message names the file and, for ASCII column names,
    ends with Python's [repr] of the list of the columns found, in which
    every column stands in its [repr] form (between apostrophes as it is,
    for a name without apostrophe, backslash and control character).  In
    [main] the error ends the run before any figure is written. *)
Theorem C2_missing_column_validation (read_csv : Path -> DataFrame)
  (path : Path) (df : DataFrame) :
  ((exists msg, read_csv_clean path df = Raise (ValueError msg)) <->
   ~ In NoOfEvals (columns df)) /\
  (forall e, read_csv_clean path df = Raise e ->
     exists found,
       e = ValueError
             (path_str path
              ++ " must include a 'NoOfEvals' column. Found columns: "
              ++ found)%string /\
       (forallb ascii_name (columns df) = true ->
        found = ("[" ++ String.concat ", " (map py_repr (columns df)) ++ "]")%string /\
        (forall c, In c (columns df) ->
           exists pre post, found = (pre ++ py_repr c ++ post)%string) /\
        (forall c, In c (columns df) -> plain_name c = true ->
           exists pre post, found = (pre ++ ("'" ++ c ++ "'") ++ post)%string))) /\
  (forall args w,
     In path (files args) -> ~ In NoOfEvals (columns (read_csv path)) ->
     exists w' p,
       main read_csv args w =
       (w', Raise (ValueError (missing_column_message p (read_csv p)))) /\
       In p (files args) /\ ~ In NoOfEvals (columns (read_csv p)) /\
       written w' = written w).
Proof.
  split; [| split].
  - split.
    + intros [msg H]. apply read_csv_clean_Raise in H. tauto.
    + intros H. eexists. apply read_csv_clean_missing. exact H.
  - intros e H. apply read_csv_clean_Raise in H. destruct H as [_ ->].
    exists (py_list_repr (columns df)). split; [reflexivity |].
    intros _. split; [reflexivity |]. split.
    + intros c Hc. exact (py_list_repr_lists (columns df) c Hc).
    + intros c Hc Hp. rewrite <- (py_repr_plain c Hp).
      exact (py_list_repr_lists (columns df) c Hc).
  - intros args w Hin Hmiss.
    apply (main_aborts read_csv args w).
    apply Exists_exists. exists path. split; assumption.
Qed.

Lemma StronglySorted_map_key (k : nat) (l : list (list cell)) :
  StronglySorted (key_lt (value_at k)) l ->
  StronglySorted (fun a b => (a <? b)%float = true) (map (value_at k) l).
Proof.
  induction 1 as [| a l Hs IH Ha]; simpl; constructor; auto.
  apply Forall_forall. intros v Hv. apply in_map_iff in Hv.
  destruct Hv as (b & <- & Hb). rewrite Forall_forall in Ha. apply Ha, Hb.
Qed.

Lemma StronglySorted_ltb_NoDup (xs : list float) :
  StronglySorted (fun a b => (a <? b)%float = true) xs -> NoDup xs.
Proof.
  induction 1 as [| a l Hs IH Ha]; constructor; auto.
  intros Hin. rewrite Forall_forall in Ha. specialize (Ha a Hin).
  pose proof (ltb_neq a a Ha) as Hn.
  apply ltb_notna in Ha. rewrite eqb_refl in Hn by tauto. discriminate.
Qed.

(** C3: in the table that the loader returns, the column [NoOfEvals] holds
    numbers that are strictly increasing from row to row, hence without
    duplicates. *)
Theorem C3_cleaned_key_strictly_increasing (path : Path)
  (df out : DataFrame) (msgs : list message) :
  read_csv_clean path df = Ok (out, msgs) ->
  exists k xs,
    col_index NoOfEvals (columns out) = Some k /\
    map (cell_at k) (rows out) = map Numeric xs /\
    StronglySorted (fun a b => (a <? b)%float = true) xs /\
    NoDup xs.
Proof.
  intros H. apply read_csv_clean_Ok in H. destruct H as (k & Hk & ->).
  exists k, (map (value_at k) (clean_rows k (rows df))). simpl.
  split; [exact Hk | split; [| split]].
  - rewrite map_map. apply map_ext_in. intros r Hr.
    apply clean_rows_numeric with (rs := rows df). exact Hr.
  - apply StronglySorted_map_key. apply clean_rows_sorted.
  - apply StronglySorted_ltb_NoDup, StronglySorted_map_key, clean_rows_sorted.
Qed.

Lemma C3_witness :
  exists k xs,
    col_index NoOfEvals (columns ex_dup_cleaned) = Some k /\
    map (cell_at k) (rows ex_dup_cleaned) = map Numeric xs /\
    StronglySorted (fun a b => (a <? b)%float = true) xs /\
    NoDup xs.
Proof.
  apply (C3_cleaned_key_strictly_increasing ex_path ex_dup ex_dup_cleaned
           [InfoTable "a.csv" 2 2 0 10 false]).
  vm_compute. reflexivity.
Defined.

(** The rows that survive [dropna] after coercion, traced back to the rows
    of the input. *)
Lemma dropna_coerce_split k rs : forall l1 r l2,
  dropna (value_at k) (map (coerce_key k) rs) = l1 ++ r :: l2 ->
  exists s1 r0 s2,
    rs = s1 ++ r0 :: s2 /\ r = coerce_key k r0 /\
    l2 = dropna (value_at k) (map (coerce_key k) s2).
Proof.
  induction rs as [| a rs IH]; simpl; intros l1 r l2 H.
  - destruct l1; discriminate.
  - destruct (notna (value_at k (coerce_key k a))) eqn:E.
    + destruct l1 as [| b l1]; simpl in H.
      * injection H as <- <-. exists [], a, rs. auto.
      * injection H as <- H. destruct (IH _ _ _ H) as (s1 & r0 & s2 & -> & -> & ->).
        exists (a :: s1), r0, s2. auto.
    + destruct (IH _ _ _ H) as (s1 & r0 & s2 & -> & -> & ->).
      exists (a :: s1), r0, s2. auto.
Qed.

(** With the sort that keeps rows of equal evaluation count in the order
    of the input, the loader keeps of these rows the one that comes last in
    the input, and every evaluation count of the input keeps a row; on
    [NoOfEvals=[0,0,10]] with values [[1,2,3]] the result is
    [NoOfEvals=[0,10]] with values [[2,3]].  The general part is a fact
    about [sort_values] as modelled: line 20 sorts with pandas' default
    quicksort, which may return rows of equal count in another order, and
    the row kept is then the last one of that order. *)
Lemma order_preserving_sort_keeps_last :
  (forall path df out msgs,
     read_csv_clean path df = Ok (out, msgs) ->
     exists k,
       col_index NoOfEvals (columns df) = Some k /\
       (forall r, In r (rows out) ->
          exists s1 r0 s2,
            rows df = s1 ++ r0 :: s2 /\ r = coerce_key k r0 /\
            Forall (fun b => (value_at k b =? value_at k r0)%float = false) s2) /\
       (forall r0, In r0 (rows df) -> is_nan (value_at k r0) = false ->
          exists r, In r (rows out) /\
            (value_at k r =? value_at k r0)%float = true)) /\
  (forall path, exists msgs,
     read_csv_clean path ex_dup = Ok (ex_dup_cleaned, msgs)).
Proof.
  split.
  - intros path df out msgs H. apply read_csv_clean_Ok in H.
    destruct H as (k & Hk & ->). exists k. split; [exact Hk |]. simpl. split.
    + intros r Hr. unfold clean_rows in Hr.
      apply clean_keeps_last in Hr; [| apply dropna_keys_notna].
      destruct Hr as (l1 & l2 & Hsplit & Hlast).
      destruct (dropna_coerce_split k (rows df) _ _ _ Hsplit)
        as (s1 & r0 & s2 & Hrows & -> & ->).
      exists s1, r0, s2. split; [exact Hrows | split; [reflexivity |]].
      apply Forall_forall. intros b Hb.
      destruct (value_at k b =? value_at k r0)%float eqn:E; auto.
      rewrite Forall_forall in Hlast.
      rewrite <- (Hlast (coerce_key k b)).
      * rewrite !value_at_coerce_key. symmetry. exact E.
      * apply dropna_In. split; [apply in_map; exact Hb |].
        rewrite value_at_coerce_key. apply eqb_notna in E. tauto.
    + intros r0 Hr0 N.
      destruct (drop_duplicates_last_complete _ (value_at k)
                  (sort_values (value_at k)
                     (dropna (value_at k) (map (coerce_key k) (rows df))))
                  (coerce_key k r0)) as (r & Hr & Er).
      * apply sort_values_In, dropna_In. split; [apply in_map; exact Hr0 |].
        rewrite value_at_coerce_key. exact N.
      * rewrite value_at_coerce_key. exact N.
      * exists r. split; [exact Hr |].
        rewrite value_at_coerce_key in Er. exact Er.
  - intros path. eexists. vm_compute. reflexivity.
Qed.

(** C9: cleaning is idempotent; loading the table that the loader returned
    gives that table again. *)
Theorem C9_cleaning_idempotent (path path' : Path) (df out : DataFrame)
  (msgs : list message) :
  read_csv_clean path df = Ok (out, msgs) ->
  exists msgs', read_csv_clean path' out = Ok (out, msgs').
Proof.
  intros H. apply read_csv_clean_Ok in H. destruct H as (k & Hk & ->).
  destruct (read_csv_clean_total path'
              (mkDataFrame (columns df) (clean_rows k (rows df))) k Hk)
    as (msgs' & E).
  exists msgs'. rewrite E. simpl. rewrite clean_rows_idem. reflexivity.
Qed.

Lemma C9_witness :
  exists msgs', read_csv_clean ex_path ex_dup_cleaned = Ok (ex_dup_cleaned, msgs').
Proof.
  apply (C9_cleaning_idempotent ex_path ex_path ex_dup ex_dup_cleaned
           [InfoTable "a.csv" 2 2 0 10 false]).
  vm_compute. reflexivity.
Defined.

(** ** The series extractor *)

Lemma read_csv_clean_numeric_key path df out msgs :
  read_csv_clean path df = Ok (out, msgs) -> has_numeric_key out = true.
Proof.
  intros H. apply read_csv_clean_Ok in H. destruct H as (k & Hk & ->).
  unfold has_numeric_key. simpl. rewrite Hk. apply forallb_forall.
  intros r Hr. rewrite (clean_rows_numeric k (rows df) r Hr). reflexivity.
Qed.

Lemma rmap_astype_float k (l : list (list cell)) :
  Forall (fun r => numeric_cell (cell_at k r) = true) l ->
  rmap (fun r => astype_float (cell_at k r)) l = Ok (map (value_at k) l).
Proof.
  induction 1 as [| r l Hr Hl IH]; simpl; auto.
  rewrite IH. unfold value_at. destruct (cell_at k r); [reflexivity | discriminate].
Qed.

Lemma has_numeric_key_inv df :
  has_numeric_key df = true ->
  exists k, col_index NoOfEvals (columns df) = Some k /\
    Forall (fun r => numeric_cell (cell_at k r) = true) (rows df).
Proof.
  unfold has_numeric_key.
  destruct (col_index NoOfEvals (columns df)) as [k |]; [| discriminate].
  intros H. exists k. split; auto. apply Forall_forall.
  rewrite forallb_forall in H. exact H.
Qed.

Lemma kept_rows_numeric j k df :
  Forall (fun r => numeric_cell (cell_at k r) = true) (rows df) ->
  Forall (fun r => numeric_cell (cell_at k r) = true) (kept_rows j df).
Proof.
  rewrite !Forall_forall. intros H r Hr. apply H.
  unfold kept_rows in Hr. apply filter_In in Hr. tauto.
Qed.

(** What [per_trial_xy] returns, on a table with a numeric key column (or
    with row positions as x). *)
Lemma per_trial_xy_index df col rebase j :
  col_index col (columns df) = Some j ->
  per_trial_xy df col rebase true =
  Ok (index_x (List.length (kept_rows j df)), map (value_at j) (kept_rows j df)).
Proof.
  intros Hj. unfold per_trial_xy. rewrite Hj. fold (kept_rows j df).
  rewrite length_map. reflexivity.
Qed.

Lemma per_trial_xy_evals df col rebase j k :
  col_index col (columns df) = Some j ->
  col_index NoOfEvals (columns df) = Some k ->
  Forall (fun r => numeric_cell (cell_at k r) = true) (rows df) ->
  per_trial_xy df col rebase false =
  Ok (rebase_x rebase (map (value_at k) (kept_rows j df)),
      map (value_at j) (kept_rows j df)).
Proof.
  intros Hj Hk Hn. unfold per_trial_xy. rewrite Hj, Hk. fold (kept_rows j df).
  rewrite (rmap_astype_float k _ (kept_rows_numeric j k df Hn)). reflexivity.
Qed.

Lemma length_rebase_x rebase x :
  List.length (rebase_x rebase x) = List.length x.
Proof.
  unfold rebase_x. destruct (rebase && Nat.ltb 0 (List.length x));
    [apply length_map | reflexivity].
Qed.

Lemma length_index_x n : List.length (index_x n) = n.
Proof. unfold index_x. rewrite length_map, length_seq. reflexivity. Qed.

Lemma count_survivors j (rs : list (list cell)) :
  List.length (filter (fun r => notna (value_at j r)) rs) =
  List.length (filter (fun c => notna (to_numeric c)) (map (cell_at j) rs)).
Proof.
  induction rs as [| r rs IH]; simpl; auto.
  unfold value_at at 1. destruct (notna (to_numeric (cell_at j r))); simpl; auto.
Qed.

(** C6: on a table whose key column is numeric (or with row positions as
    x), the series extractor returns x and y of one length, the number of
    entries of the trial column that survive numeric coercion; no retained
    y is NaN; x and y at one position come from one retained row. *)
Theorem C6_series_lengths_and_alignment (df : DataFrame) (col : string)
  (rebase use_index : bool) :
  In col (columns df) ->
  (use_index = false -> has_numeric_key df = true) ->
  exists x y j,
    per_trial_xy df col rebase use_index = Ok (x, y) /\
    col_index col (columns df) = Some j /\
    List.length x = List.length y /\
    List.length y =
      List.length (filter (fun c => notna (to_numeric c))
                     (map (cell_at j) (rows df))) /\
    Forall (fun v => is_nan v = false) y /\
    y = map (value_at j) (kept_rows j df) /\
    (use_index = true -> x = index_x (List.length (kept_rows j df))) /\
    (use_index = false ->
     exists k, col_index NoOfEvals (columns df) = Some k /\
       x = rebase_x rebase (map (value_at k) (kept_rows j df))).
Proof.
  intros Hcol Hkey. destruct (col_index_Some col (columns df) Hcol) as [j Hj].
  assert (Hy : Forall (fun v => is_nan v = false)
                 (map (value_at j) (kept_rows j df))).
  { apply Forall_forall. intros v Hv. apply in_map_iff in Hv.
    destruct Hv as (r & <- & Hr). unfold kept_rows in Hr.
    apply filter_In in Hr. destruct Hr as [_ Hr]. unfold notna in Hr.
    apply negb_true_iff in Hr. exact Hr. }
  assert (Hlen : List.length (map (value_at j) (kept_rows j df)) =
                 List.length (filter (fun c => notna (to_numeric c))
                                (map (cell_at j) (rows df)))).
  { rewrite length_map. apply count_survivors. }
  destruct use_index.
  - exists (index_x (List.length (kept_rows j df))),
      (map (value_at j) (kept_rows j df)), j.
    rewrite (per_trial_xy_index df col rebase j Hj).
    rewrite length_index_x, length_map.
    repeat split; auto; try discriminate.
    rewrite <- Hlen, length_map. reflexivity.
  - destruct (has_numeric_key_inv df (Hkey eq_refl)) as (k & Hk & Hn).
    exists (rebase_x rebase (map (value_at k) (kept_rows j df))),
      (map (value_at j) (kept_rows j df)), j.
    rewrite (per_trial_xy_evals df col rebase j k Hj Hk Hn).
    rewrite length_rebase_x, !length_map.
    repeat split; auto; try discriminate.
    + rewrite <- Hlen, length_map. reflexivity.
    + intros _. exists k. auto.
Qed.

Lemma C6_witness :
  exists x y j,
    per_trial_xy ex_a "Trial2" true false = Ok (x, y) /\
    col_index "Trial2" (columns ex_a) = Some j /\
    List.length x = List.length y /\
    List.length y =
      List.length (filter (fun c => notna (to_numeric c))
                     (map (cell_at j) (rows ex_a))) /\
    Forall (fun v => is_nan v = false) y /\
    y = map (value_at j) (kept_rows j ex_a) /\
    (false = true -> x = index_x (List.length (kept_rows j ex_a))) /\
    (false = false ->
     exists k, col_index NoOfEvals (columns ex_a) = Some k /\
       x = rebase_x true (map (value_at k) (kept_rows j ex_a))).
Proof.
  apply (C6_series_lengths_and_alignment ex_a "Trial2" true false).
  - simpl. auto.
  - intros _. vm_compute. reflexivity.
Defined.

(** ** Rebasing *)

(** C7 as stated fails on an infinite evaluation count: the rebased series
    of the cleaned table [ex_inf] is not empty and starts at NaN, the value
    of [inf - inf]. *)
Lemma C7_counterexample :
  (exists msgs, read_csv_clean ex_path ex_inf = Ok (ex_inf, msgs)) /\
  per_trial_xy ex_inf "Trial1" true false = Ok ([nan], [3%float]) /\
  (nth 0 [nan] nan =? 0)%float = false.
Proof.
  split; [eexists; vm_compute; reflexivity |].
  split; vm_compute; reflexivity.
Qed.

(** C7, amended: when the series extracted without rebasing starts at a
    finite x, the series extracted with rebasing starts at 0 and has the
    same y. *)
Theorem C7_rebase_first_x_zero (df : DataFrame) (col : string)
  (use_index : bool) (x0 : float) (xs y : list float) :
  per_trial_xy df col false use_index = Ok (x0 :: xs, y) ->
  is_finite x0 = true ->
  exists xs',
    per_trial_xy df col true use_index = Ok (0%float :: xs', y) /\
    List.length xs' = List.length xs.
Proof.
  unfold per_trial_xy.
  destruct (col_index col (columns df)) as [j |]; [| discriminate].
  fold (kept_rows j df). destruct use_index.
  - intros H _. injection H as Hx <-. exists xs. split; auto.
    rewrite Hx. f_equal. f_equal.
    destruct (List.length (map (value_at j) (kept_rows j df)));
      [discriminate |].
    unfold index_x in Hx. simpl in Hx. injection Hx as <- _. reflexivity.
  - destruct (col_index NoOfEvals (columns df)) as [k |]; [| discriminate].
    destruct (rmap (fun r => astype_float (cell_at k r)) (kept_rows j df))
      as [x |]; [| discriminate].
    simpl. unfold rebase_x at 1. simpl. intros H Hfin.
    injection H as -> <-. unfold rebase_x. simpl.
    rewrite (sub_diag x0 Hfin).
    eexists. split; [reflexivity |]. apply length_map.
Qed.

Lemma C7_witness :
  exists xs',
    per_trial_xy ex_late "Trial1" true false
    = Ok (0%float :: xs', [1%float; 2%float]) /\
    List.length xs' = List.length [20%float].
Proof.
  apply (C7_rebase_first_x_zero ex_late "Trial1" false 10%float).
  - vm_compute. reflexivity.
  - vm_compute. reflexivity.
Defined.

(** ** Running limits *)

Lemma initial_limits_notna : limits_notna initial_limits.
Proof. repeat split. Qed.

Lemma wider_refl lim : limits_notna lim -> wider lim lim.
Proof. intros (A & B & C & D). repeat split; apply leb_refl; assumption. Qed.

Lemma wider_trans a b c : wider a b -> wider b c -> wider a c.
Proof.
  intros (A1 & A2 & A3 & A4) (B1 & B2 & B3 & B4).
  repeat split; eapply leb_trans; eassumption.
Qed.

Lemma between_wider_x a b v :
  wider a b -> between (xmin a) (xmax a) v -> between (xmin b) (xmax b) v.
Proof.
  intros (A1 & A2 & _) [L H]. split; eapply leb_trans; eassumption.
Qed.

Lemma between_wider_y a b v :
  wider a b -> between (ymin a) (ymax a) v -> between (ymin b) (ymax b) v.
Proof.
  intros (_ & _ & A3 & A4) [L H]. split; eapply leb_trans; eassumption.
Qed.

(** Folding one list into a range. *)
Lemma fold_range_facts lo hi l :
  is_nan lo = false -> is_nan hi = false ->
  let lo' := py_min lo (np_nanmin l) in
  let hi' := py_max hi (np_nanmax l) in
  is_nan lo' = false /\ is_nan hi' = false /\
  (lo' <=? lo)%float = true /\ (hi <=? hi')%float = true /\
  (forall v, In v l -> is_nan v = false -> between lo' hi' v) /\
  (ordered lo hi -> ordered lo' hi') /\
  (lo' = lo \/ In lo' l) /\ (hi' = hi \/ In hi' l).
Proof.
  intros Nlo Nhi. simpl.
  split; [apply py_min_notna; assumption |].
  split; [apply py_max_notna; assumption |].
  split; [apply py_min_le_l; assumption |].
  split; [apply py_max_ge_l; assumption |].
  destruct (filter notna l) as [| w ws] eqn:E.
  - rewrite (np_nanmin_all_nan l E), (np_nanmax_all_nan l E).
    rewrite py_min_nan, py_max_nan. repeat split; auto.
    + exfalso. assert (Hin : In v (filter notna l))
        by (apply filter_notna_In; auto).
      rewrite E in Hin. contradiction.
    + exfalso. assert (Hin : In v (filter notna l))
        by (apply filter_notna_In; auto).
      rewrite E in Hin. contradiction.
  - assert (Hne : filter notna l <> []) by (rewrite E; discriminate).
    destruct (np_nanmin_spec l Hne) as (Nm & Im & Lm).
    destruct (np_nanmax_spec l Hne) as (NM & IM & LM).
    split; [| split; [| split]].
    + intros v Hv Nv. split.
      * apply leb_trans with (np_nanmin l); auto using py_min_le_r.
      * apply leb_trans with (np_nanmax l); auto using py_max_ge_r.
    + intros _. left.
      apply leb_trans with (np_nanmin l); [apply py_min_le_r; assumption |].
      apply leb_trans with (np_nanmax l); [| apply py_max_ge_r; assumption].
      apply np_nanmin_le_nanmax. exact Hne.
    + destruct (py_min_cases lo (np_nanmin l)) as [-> | ->]; auto.
    + destruct (py_max_cases hi (np_nanmax l)) as [-> | ->]; auto.
Qed.

Lemma update_x_facts lim x :
  limits_notna lim ->
  let lim' := update_x lim x in
  limits_notna lim' /\ wider lim lim' /\
  (forall v, In v x -> is_nan v = false -> between (xmin lim') (xmax lim') v) /\
  (ordered (xmin lim) (xmax lim) -> ordered (xmin lim') (xmax lim')) /\
  ymin lim' = ymin lim /\ ymax lim' = ymax lim.
Proof.
  intros (A & B & C & D). unfold update_x.
  destruct x as [| x0 x]; simpl.
  - repeat split; auto using leb_refl; contradiction.
  - destruct (fold_range_facts (xmin lim) (xmax lim) (x0 :: x) A B)
      as (N1 & N2 & L1 & L2 & Cov & Ord & _).
    repeat split; auto using leb_refl; apply Cov; auto.
Qed.

Lemma filter_positive_In v y :
  In v (filter (fun w => (0 <? w)%float) y) <-> In v y /\ (0 <? v)%float = true.
Proof. apply filter_In. Qed.

Lemma update_y_facts logy lim y :
  limits_notna lim ->
  let lim' := update_y logy lim y in
  limits_notna lim' /\ wider lim lim' /\
  (forall v, In v y -> considered logy v ->
     between (ymin lim') (ymax lim') v) /\
  (ordered (ymin lim) (ymax lim) -> ordered (ymin lim') (ymax lim')) /\
  (logy = true -> (0 <? ymin lim)%float = true ->
   (0 <? ymin lim')%float = true) /\
  xmin lim' = xmin lim /\ xmax lim' = xmax lim.
Proof.
  intros (A & B & C & D). unfold update_y.
  destruct y as [| y0 y];
    [simpl; repeat split; auto using leb_refl; contradiction |].
  change (Nat.ltb 0 (List.length (y0 :: y))) with true. cbv iota.
  destruct logy.
  - destruct (filter (fun v => (0 <? v)%float) (y0 :: y)) as [| p ps] eqn:E.
    + simpl. repeat split; auto using leb_refl.
      * exfalso. destruct H0 as [_ Hp].
        assert (Hin : In v (filter (fun w => (0 <? w)%float) (y0 :: y)))
          by (apply filter_positive_In; auto).
        rewrite E in Hin. contradiction.
      * exfalso. destruct H0 as [_ Hp].
        assert (Hin : In v (filter (fun w => (0 <? w)%float) (y0 :: y)))
          by (apply filter_positive_In; auto).
        rewrite E in Hin. contradiction.
    + change (Nat.ltb 0 (List.length (p :: ps))) with true. cbv iota.
      destruct (fold_range_facts (ymin lim) (ymax lim) (p :: ps) C D)
        as (N1 & N2 & L1 & L2 & Cov & Ord & Imin & _).
      unfold fold_range; simpl.
      assert (Hpos : forall v, In v (p :: ps) <->
                       In v (y0 :: y) /\ (0 <? v)%float = true).
      { intros v. rewrite <- E. apply filter_positive_In. }
      repeat split; auto using leb_refl.
      * apply Cov; [| apply H0]. apply Hpos. split; [exact H | apply H0; reflexivity].
      * apply Cov; [| apply H0]. apply Hpos. split; [exact H | apply H0; reflexivity].
      * intros _ Hlo. destruct Imin as [-> | Hin]; auto.
        apply Hpos in Hin. tauto.
  - destruct (fold_range_facts (ymin lim) (ymax lim) (y0 :: y) C D)
      as (N1 & N2 & L1 & L2 & Cov & Ord & _).
    unfold fold_range; simpl.
    repeat split; auto using leb_refl; try discriminate;
      apply Cov; auto; apply H0.
Qed.

Lemma update_limits_facts logy lim xy :
  limits_notna lim ->
  let lim' := update_limits logy lim xy in
  limits_notna lim' /\ wider lim lim' /\
  (forall v, In v (fst xy) -> is_nan v = false ->
     between (xmin lim') (xmax lim') v) /\
  (forall v, In v (snd xy) -> considered logy v ->
     between (ymin lim') (ymax lim') v) /\
  (ordered (xmin lim) (xmax lim) -> ordered (xmin lim') (xmax lim')) /\
  (ordered (ymin lim) (ymax lim) -> ordered (ymin lim') (ymax lim')) /\
  (logy = true -> (0 <? ymin lim)%float = true ->
   (0 <? ymin lim')%float = true).
Proof.
  intros N. unfold update_limits.
  destruct (update_x_facts lim (fst xy) N) as (N1 & W1 & Cx & Ox & Ey1 & Ey2).
  destruct (update_y_facts logy (update_x lim (fst xy)) (snd xy) N1)
    as (N2 & W2 & Cy & Oy & Py & Ex1 & Ex2).
  simpl. split; [exact N2 |]. split; [eapply wider_trans; eassumption |].
  split; [| split; [exact Cy | split; [| split]]].
  - intros v Hv Nv. rewrite Ex1, Ex2. apply Cx; assumption.
  - rewrite Ex1, Ex2. exact Ox.
  - rewrite Ey1, Ey2 in Oy. exact Oy.
  - rewrite Ey1 in Py. exact Py.
Qed.

Lemma scanned_facts logy series : forall lim,
  limits_notna lim ->
  let lim' := scanned logy series lim in
  limits_notna lim' /\ wider lim lim' /\
  (forall xy v, In xy series -> In v (fst xy) -> is_nan v = false ->
     between (xmin lim') (xmax lim') v) /\
  (forall xy v, In xy series -> In v (snd xy) -> considered logy v ->
     between (ymin lim') (ymax lim') v) /\
  (ordered (xmin lim) (xmax lim) -> ordered (xmin lim') (xmax lim')) /\
  (ordered (ymin lim) (ymax lim) -> ordered (ymin lim') (ymax lim')) /\
  (logy = true -> (0 <? ymin lim)%float = true ->
   (0 <? ymin lim')%float = true).
Proof.
  induction series as [| xy series IH]; intros lim N; simpl.
  - split; [exact N |]. split; [apply wider_refl; exact N |].
    repeat split; auto; contradiction.
  - destruct (update_limits_facts logy lim xy N)
      as (N1 & W1 & Cx & Cy & Ox & Oy & Py).
    destruct (IH (update_limits logy lim xy) N1)
      as (N2 & W2 & Cx2 & Cy2 & Ox2 & Oy2 & Py2).
    fold (scanned logy series (update_limits logy lim xy)) in *.
    split; [exact N2 |]. split; [eapply wider_trans; eassumption |].
    split; [| split; [| repeat split; auto]].
    + intros s v [<- | Hs] Hv Nv.
      * eapply between_wider_x; [exact W2 | apply Cx; assumption].
      * eapply Cx2; eassumption.
    + intros s v [<- | Hs] Hv Nv.
      * eapply between_wider_y; [exact W2 | apply Cy; assumption].
      * eapply Cy2; eassumption.
Qed.

(** ** The series that are scanned and the series that are drawn *)

Lemma rmap_In (X Y : Type) (f : X -> result Y) (l : list X) : forall bs a,
  rmap f l = Ok bs -> In a l -> exists b, f a = Ok b /\ In b bs.
Proof.
  induction l as [| x l IH]; simpl; intros bs a H Ha; [contradiction |].
  destruct (f x) as [y |] eqn:Ex; [| discriminate].
  destruct (rmap f l) as [ys |] eqn:El; [| discriminate].
  injection H as <-. destruct Ha as [-> | Ha].
  - exists y. simpl. auto.
  - destruct (IH ys a eq_refl Ha) as (b & Eb & Hb). exists b. simpl. auto.
Qed.

Lemma rmap_total (X Y : Type) (f : X -> result Y) (l : list X) :
  (forall a, In a l -> exists b, f a = Ok b) -> exists bs, rmap f l = Ok bs.
Proof.
  induction l as [| x l IH]; simpl; intros H; [eauto |].
  destruct (H x (or_introl eq_refl)) as [y ->].
  destruct IH as [ys ->]; [intros a Ha; apply H; auto |]. eauto.
Qed.

Lemma scan_trials_series logy rebase idx df cols : forall lim ss,
  trial_series rebase idx df cols = Ok ss ->
  scan_trials logy rebase idx df cols lim = Ok (scanned logy ss lim).
Proof.
  unfold trial_series.
  induction cols as [| col cols IH]; simpl; intros lim ss H.
  - injection H as <-. reflexivity.
  - destruct (per_trial_xy df col rebase idx) as [xy |]; [| discriminate].
    destruct (rmap _ cols) as [ss' |] eqn:E; [| discriminate].
    injection H as <-. simpl. apply IH. reflexivity.
Qed.

Lemma scan_table_series logy mean_only rebase idx df lim ss :
  series_of mean_only rebase idx df = Ok ss ->
  scan_table logy mean_only rebase idx lim df = Ok (scanned logy ss lim).
Proof.
  unfold series_of, scan_table.
  destruct (trial_columns df) as [| c cols].
  - intros H. injection H as <-. reflexivity.
  - destruct mean_only.
    + destruct (mean_xy df (c :: cols) idx) as [xy |]; [| discriminate].
      simpl. intros H. injection H as <-. reflexivity.
    + apply scan_trials_series.
Qed.

Lemma scanned_app logy s1 s2 lim :
  scanned logy (s1 ++ s2) lim = scanned logy s2 (scanned logy s1 lim).
Proof. unfold scanned. apply fold_left_app. Qed.

Lemma scan_datasets_series logy mean_only rebase idx datasets : forall lim sss,
  all_series mean_only rebase idx datasets = Ok sss ->
  scan_datasets logy mean_only rebase idx datasets lim =
  Ok (scanned logy (List.concat sss) lim).
Proof.
  unfold all_series.
  induction datasets as [| [label df] ds IH]; simpl; intros lim sss H.
  - injection H as <-. reflexivity.
  - destruct (series_of mean_only rebase idx df) as [ss |] eqn:Es;
      [| discriminate].
    destruct (rmap _ ds) as [sss' |] eqn:E; [| discriminate].
    injection H as <-.
    rewrite (scan_table_series logy mean_only rebase idx df lim ss Es).
    simpl. rewrite scanned_app. apply IH. reflexivity.
Qed.

(** *** Nothing raises on tables with a numeric key column *)

Lemma per_trial_xy_total df col rebase idx :
  has_numeric_key df = true -> In col (columns df) ->
  exists xy, per_trial_xy df col rebase idx = Ok xy.
Proof.
  intros Hk Hc. destruct (col_index_Some col (columns df) Hc) as [j Hj].
  destruct (has_numeric_key_inv df Hk) as (k & Ek & Hn).
  destruct idx.
  - rewrite (per_trial_xy_index df col rebase j Hj). eauto.
  - rewrite (per_trial_xy_evals df col rebase j k Hj Ek Hn). eauto.
Qed.

Lemma trial_columns_In df c : In c (trial_columns df) -> In c (columns df).
Proof. unfold trial_columns. intros H. apply filter_In in H. tauto. Qed.

Lemma trial_series_total df rebase idx :
  has_numeric_key df = true ->
  exists ss, trial_series rebase idx df (trial_columns df) = Ok ss.
Proof.
  intros Hk. apply rmap_total. intros c Hc.
  apply per_trial_xy_total; auto using trial_columns_In.
Qed.

Lemma mean_xy_total df cols idx :
  has_numeric_key df = true -> (forall c, In c cols -> In c (columns df)) ->
  exists xy, mean_xy df cols idx = Ok xy.
Proof.
  intros Hk Hc. unfold mean_xy, select_columns.
  destruct (rmap_total _ _
              (fun c => match col_index c (columns df) with
                        | Some j => Ok j
                        | None => Raise (KeyError c)
                        end) cols) as [js ->].
  { intros c H. destruct (col_index_Some c (columns df) (Hc c H)) as [j ->].
    eauto. }
  simpl. destruct idx; [eauto |].
  destruct (has_numeric_key_inv df Hk) as (k & -> & Hn).
  rewrite (rmap_astype_float k (rows df) Hn). simpl. eauto.
Qed.

Lemma series_of_total mean_only rebase idx df :
  has_numeric_key df = true ->
  exists ss, series_of mean_only rebase idx df = Ok ss.
Proof.
  intros Hk. unfold series_of.
  destruct (trial_columns df) as [| c cols] eqn:E; [eauto |].
  destruct mean_only.
  - destruct (mean_xy_total df (c :: cols) idx Hk) as [xy ->]; [| simpl; eauto].
    intros c' H. apply trial_columns_In. rewrite E. exact H.
  - rewrite <- E. apply trial_series_total. exact Hk.
Qed.

Lemma all_series_total mean_only rebase idx datasets :
  Forall (fun d => has_numeric_key (snd d) = true) datasets ->
  exists sss, all_series mean_only rebase idx datasets = Ok sss.
Proof.
  intros H. apply rmap_total. intros d Hd. apply series_of_total.
  rewrite Forall_forall in H. apply H. exact Hd.
Qed.

Lemma scan_datasets_total logy mean_only rebase idx datasets :
  Forall (fun d => has_numeric_key (snd d) = true) datasets ->
  exists sss,
    all_series mean_only rebase idx datasets = Ok sss /\
    scan_datasets logy mean_only rebase idx datasets initial_limits =
    Ok (scanned logy (List.concat sss) initial_limits).
Proof.
  intros H. destruct (all_series_total mean_only rebase idx datasets H)
    as [sss E].
  exists sss. split; [exact E |]. apply scan_datasets_series. exact E.
Qed.

(** ** Claims about the limit computer *)

(** C4: when the scanned x-range is not finite or has equal ends, the
    limits returned have x-range (0, 1); when the scanned y-range is not
    finite or has equal ends, they have y-range (1e-3, 1) under log scale
    and (0, 1) under linear scale. *)
Theorem C4_fallback_ranges (datasets : list (string * DataFrame))
  (logy mean_only rebase_per_trial x_as_index : bool) (lim : limits) :
  scan_datasets logy mean_only rebase_per_trial x_as_index datasets
    initial_limits = Ok lim ->
  exists x0 x1 y0 y1,
    compute_global_limits datasets logy mean_only rebase_per_trial x_as_index
    = Ok (x0, x1, y0, y1) /\
    (is_finite (xmin lim) = false \/ is_finite (xmax lim) = false \/
     (xmin lim =? xmax lim)%float = true ->
     x0 = 0%float /\ x1 = 1%float) /\
    (is_finite (ymin lim) = false \/ is_finite (ymax lim) = false \/
     (ymin lim =? ymax lim)%float = true ->
     (logy = true -> y0 = 0x1.0624dd2f1a9fcp-10%float /\ y1 = 1%float) /\
     (logy = false -> y0 = 0%float /\ y1 = 1%float)).
Proof.
  intros H. unfold compute_global_limits. rewrite H. simpl.
  unfold fallbacks, degenerate.
  destruct (is_finite (xmin lim)), (is_finite (xmax lim)),
    (xmin lim =? xmax lim)%float,
    (is_finite (ymin lim)), (is_finite (ymax lim)),
    (ymin lim =? ymax lim)%float, logy; simpl;
    do 4 eexists; (split; [reflexivity |]);
    split; intros; try split; intros; try split;
      try reflexivity; try discriminate;
      repeat match goal with
        | H : _ \/ _ |- _ => destruct H
        end; discriminate.
Qed.

Lemma C4_witness :
  exists x0 x1 y0 y1,
    compute_global_limits [("a"%string, ex_one_point)] true false false false
    = Ok (x0, x1, y0, y1) /\
    (is_finite 5 = false \/ is_finite 5 = false \/ (5 =? 5)%float = true ->
     x0 = 0%float /\ x1 = 1%float) /\
    (is_finite 3 = false \/ is_finite 3 = false \/ (3 =? 3)%float = true ->
     (true = true -> y0 = 0x1.0624dd2f1a9fcp-10%float /\ y1 = 1%float) /\
     (true = false -> y0 = 0%float /\ y1 = 1%float)).
Proof.
  apply (C4_fallback_ranges [("a"%string, ex_one_point)] true false false false
           (mkLimits 5 5 3 3)).
  vm_compute. reflexivity.
Defined.

Lemma update_y_depends_on_y logy lim lim2 y :
  ymin lim = ymin lim2 -> ymax lim = ymax lim2 ->
  ymin (update_y logy lim y) = ymin (update_y logy lim2 y) /\
  ymax (update_y logy lim y) = ymax (update_y logy lim2 y).
Proof.
  intros E1 E2. unfold update_y, fold_range.
  destruct (Nat.ltb 0 (List.length y)); auto.
  destruct logy; simpl; [| rewrite E1, E2; auto].
  destruct (Nat.ltb 0 (List.length (filter (fun v => (0 <? v)%float) y)));
    simpl; auto.
  rewrite E1, E2. auto.
Qed.

Lemma update_y_between logy lim y v :
  is_nan (ymin lim) = false -> is_nan (ymax lim) = false ->
  In v y -> considered logy v ->
  between (ymin (update_y logy lim y)) (ymax (update_y logy lim y)) v.
Proof.
  intros C D Hv Hc.
  set (lim2 := mkLimits 0 0 (ymin lim) (ymax lim)).
  destruct (update_y_depends_on_y logy lim lim2 y eq_refl eq_refl) as [-> ->].
  assert (N : limits_notna lim2) by (repeat split; assumption).
  destruct (update_y_facts logy lim2 y N) as (_ & _ & Cov & _).
  apply Cov; assumption.
Qed.

(** C8: folding a series into running y-limits that are not NaN.  Under log
    scale the result is that of folding the strictly positive values alone,
    a series without positive value leaves the limits as they are, every
    positive value lies within the new limits, and a new limit that differs
    from the old one is a positive value of the series; under linear scale
    every finite value of the series lies within the new limits.  The
    x-limits are not touched. *)
Theorem C8_y_folding (lim : limits) (y : list float) :
  is_nan (ymin lim) = false -> is_nan (ymax lim) = false ->
  update_y true lim y = update_y true lim (filter (fun v => (0 <? v)%float) y) /\
  (Forall (fun v => (0 <? v)%float = false) y -> update_y true lim y = lim) /\
  (forall v, In v y -> (0 <? v)%float = true ->
     (ymin (update_y true lim y) <=? v)%float = true /\
     (v <=? ymax (update_y true lim y))%float = true) /\
  (ymin (update_y true lim y) = ymin lim \/
   In (ymin (update_y true lim y)) (filter (fun v => (0 <? v)%float) y)) /\
  (ymax (update_y true lim y) = ymax lim \/
   In (ymax (update_y true lim y)) (filter (fun v => (0 <? v)%float) y)) /\
  (forall v, In v y -> is_finite v = true ->
     (ymin (update_y false lim y) <=? v)%float = true /\
     (v <=? ymax (update_y false lim y))%float = true) /\
  (forall logy, xmin (update_y logy lim y) = xmin lim /\
                xmax (update_y logy lim y) = xmax lim).
Proof.
  intros C D.
  assert (Hfilter : forall l,
             filter (fun v => (0 <? v)%float) (filter (fun v => (0 <? v)%float) l)
             = filter (fun v => (0 <? v)%float) l).
  { induction l as [| a l IH]; simpl; auto.
    destruct (0 <? a)%float eqn:E; simpl; rewrite ?E, IH; reflexivity. }
  assert (Hnone : forall l, Forall (fun v => (0 <? v)%float = false) l ->
                    filter (fun v => (0 <? v)%float) l = []).
  { induction 1 as [| a l Ha Hl IH]; simpl; auto. rewrite Ha. exact IH. }
  split; [| split; [| split; [| split; [| split; [| split]]]]].
  - unfold update_y. rewrite Hfilter.
    destruct y as [| y0 y]; [reflexivity |].
    change (Nat.ltb 0 (List.length (y0 :: y))) with true. cbv iota.
    destruct (filter (fun v => (0 <? v)%float) (y0 :: y)) as [| p ps];
      reflexivity.
  - intros H. unfold update_y. rewrite (Hnone y H).
    destruct (Nat.ltb 0 (List.length y)); reflexivity.
  - intros v Hv Hp. apply update_y_between; auto.
    split; auto. apply ltb_notna in Hp. tauto.
  - unfold update_y. destruct (Nat.ltb 0 (List.length y)); auto.
    destruct (filter (fun v => (0 <? v)%float) y) as [| p ps]; auto.
    change (Nat.ltb 0 (List.length (p :: ps))) with true. cbv iota.
    destruct (fold_range_facts (ymin lim) (ymax lim) (p :: ps) C D)
      as (_ & _ & _ & _ & _ & _ & Imin & _).
    exact Imin.
  - unfold update_y. destruct (Nat.ltb 0 (List.length y)); auto.
    destruct (filter (fun v => (0 <? v)%float) y) as [| p ps]; auto.
    change (Nat.ltb 0 (List.length (p :: ps))) with true. cbv iota.
    destruct (fold_range_facts (ymin lim) (ymax lim) (p :: ps) C D)
      as (_ & _ & _ & _ & _ & _ & _ & Imax).
    exact Imax.
  - intros v Hv Hf. apply update_y_between; auto.
    split; [apply is_finite_notna; exact Hf | discriminate].
  - intros logy. unfold update_y, fold_range.
    destruct (Nat.ltb 0 (List.length y)); auto.
    destruct logy; auto.
    destruct (Nat.ltb 0 (List.length (filter (fun v => (0 <? v)%float) y)));
      auto.
Qed.

Lemma C8_witness :
  let lim := initial_limits in
  let y := [(-1)%float; 0%float; 2%float; 5%float] in
  update_y true lim y = update_y true lim (filter (fun v => (0 <? v)%float) y) /\
  (Forall (fun v => (0 <? v)%float = false) y -> update_y true lim y = lim) /\
  (forall v, In v y -> (0 <? v)%float = true ->
     (ymin (update_y true lim y) <=? v)%float = true /\
     (v <=? ymax (update_y true lim y))%float = true) /\
  (ymin (update_y true lim y) = ymin lim \/
   In (ymin (update_y true lim y)) (filter (fun v => (0 <? v)%float) y)) /\
  (ymax (update_y true lim y) = ymax lim \/
   In (ymax (update_y true lim y)) (filter (fun v => (0 <? v)%float) y)) /\
  (forall v, In v y -> is_finite v = true ->
     (ymin (update_y false lim y) <=? v)%float = true /\
     (v <=? ymax (update_y false lim y))%float = true) /\
  (forall logy, xmin (update_y logy lim y) = xmin lim /\
                xmax (update_y logy lim y) = xmax lim).
Proof.
  apply (C8_y_folding initial_limits [(-1)%float; 0%float; 2%float; 5%float]);
    reflexivity.
Defined.

(** On tables of binary64 values with a numeric key column,
    [compute_global_limits] returns four finite floats with [xmin < xmax]
    and [ymin < ymax], whatever the values (infinite ones included) and
    also when nothing is drawable.  The strict order rests on the equality
    tests of lines 110 and 112 being made on the values that line 115
    returns, which holds for binary64 values and not for 64-bit integers
    above 2^53. *)
Lemma limits_finite_and_ordered (datasets : list (string * DataFrame))
  (logy mean_only rebase_per_trial x_as_index : bool) :
  Forall (fun d => has_numeric_key (snd d) = true) datasets ->
  exists x0 x1 y0 y1,
    compute_global_limits datasets logy mean_only rebase_per_trial x_as_index
    = Ok (x0, x1, y0, y1) /\
    is_finite x0 = true /\ is_finite x1 = true /\
    is_finite y0 = true /\ is_finite y1 = true /\
    (x0 <? x1)%float = true /\ (y0 <? y1)%float = true.
Proof.
  intros H.
  destruct (scan_datasets_total logy mean_only rebase_per_trial x_as_index
              datasets H) as (sss & _ & E).
  unfold compute_global_limits. rewrite E. simpl.
  destruct (scanned_facts logy (List.concat sss) initial_limits
              initial_limits_notna) as (_ & _ & _ & _ & Ox & Oy & _).
  set (lim := scanned logy (List.concat sss) initial_limits) in *.
  assert (Hstrict : forall lo hi, ordered lo hi -> degenerate lo hi = false ->
            is_finite lo = true /\ is_finite hi = true /\ (lo <? hi)%float = true).
  { intros lo hi Ho Hd. unfold degenerate in Hd.
    apply orb_false_iff in Hd. destruct Hd as [Hd Hne].
    apply orb_false_iff in Hd. destruct Hd as [Hlo Hhi].
    apply negb_false_iff in Hlo, Hhi. repeat split; auto.
    destruct Ho as [Ho | [-> _]]; [| discriminate].
    apply leb_neq_ltb; assumption. }
  specialize (Ox (or_intror (conj eq_refl eq_refl))).
  specialize (Oy (or_intror (conj eq_refl eq_refl))).
  unfold fallbacks.
  destruct (degenerate (xmin lim) (xmax lim)) eqn:Dx;
    destruct (degenerate (ymin lim) (ymax lim)) eqn:Dy;
    try destruct (Hstrict _ _ Ox Dx) as (Fx0 & Fx1 & Lx);
    try destruct (Hstrict _ _ Oy Dy) as (Fy0 & Fy1 & Ly);
    try destruct logy; do 4 eexists;
    repeat split; try eassumption; reflexivity.
Qed.

(** ** The renderer *)

Lemma trial_lines_series df rebase idx cols : forall i ss,
  trial_series rebase idx df cols = Ok ss ->
  exists lines,
    trial_lines df rebase idx i cols = Ok lines /\ map line_xy lines = ss.
Proof.
  unfold trial_series.
  induction cols as [| col cols IH]; simpl; intros i ss H.
  - injection H as <-. exists []. auto.
  - destruct (per_trial_xy df col rebase idx) as [xy |]; [| discriminate].
    destruct (rmap _ cols) as [ss' |] eqn:E; [| discriminate].
    injection H as <-. destruct (IH (S i) ss' eq_refl) as (lines & -> & Hl).
    simpl. eexists. split; [reflexivity |]. simpl. rewrite Hl.
    unfold line_xy at 1. simpl. destruct xy; reflexivity.
Qed.

(** The lines of the trials hold the series of the trial columns, and none
    of them is labelled "Mean". *)
Lemma trial_lines_inv df rebase idx cols : forall i lines,
  trial_lines df rebase idx i cols = Ok lines ->
  trial_series rebase idx df cols = Ok (map line_xy lines) /\
  Forall (fun l => line_label l <> "Mean"%string) lines.
Proof.
  unfold trial_series.
  induction cols as [| col cols IH]; simpl; intros i lines H.
  - injection H as <-. split; [reflexivity | constructor].
  - destruct (per_trial_xy df col rebase idx) as [[x y] |]; [| discriminate].
    simpl in H.
    destruct (trial_lines df rebase idx (S i) cols) as [rest |] eqn:E;
      [| discriminate].
    simpl in H. injection H as <-. destruct (IH (S i) rest E) as [-> Hl].
    split; [reflexivity |]. constructor; [| exact Hl].
    simpl. discriminate.
Qed.

Lemma set_limits_Ok lo hi :
  is_finite lo = true -> is_finite hi = true -> set_limits lo hi = Ok (lo, hi).
Proof. unfold set_limits. intros -> ->. reflexivity. Qed.

Lemma set_limits_inv lo hi p :
  set_limits lo hi = Ok p ->
  p = (lo, hi) /\ is_finite lo = true /\ is_finite hi = true.
Proof.
  unfold set_limits.
  destruct (is_finite lo), (is_finite hi); simpl; try discriminate.
  intros H. injection H as <-. auto.
Qed.

Lemma set_limits_Raise lo hi :
  is_finite lo = false \/ is_finite hi = false ->
  set_limits lo hi = Raise (ValueError "Axis limits cannot be NaN or Inf").
Proof.
  unfold set_limits. intros [-> | ->]; [reflexivity |].
  rewrite andb_false_r. reflexivity.
Qed.

(** What a figure that was returned is made of. *)
Lemma plot_single_method_inv df label x0 x1 y0 y1
  logy mean_only show_mean rebase idx out fig :
  plot_single_method df label x0 x1 y0 y1 logy mean_only show_mean rebase
    idx out = Ok fig ->
  exists trials mean,
    (if negb mean_only
     then trial_lines df rebase idx 0 (trial_columns df)
     else Ok []) = Ok trials /\
    (if show_mean || mean_only
     then mean_line df (trial_columns df) idx
     else Ok []) = Ok mean /\
    is_finite x0 = true /\ is_finite x1 = true /\
    is_finite (clamp_ymin logy y0) = true /\ is_finite y1 = true /\
    fig = mkFigure (trials ++ mean) logy
            (x_axis_label mean_only rebase idx)
            (if logy then "Best Value (Log Scale)" else "Best Value")%string
            label (x0, x1) (clamp_ymin logy y0, y1) out.
Proof.
  unfold plot_single_method.
  destruct (if negb mean_only then _ else _) as [trials |]; [| discriminate].
  destruct (if show_mean || mean_only then _ else _) as [mean |];
    [| discriminate].
  simpl.
  destruct (set_limits x0 x1) as [xl |] eqn:Ex; [| discriminate].
  destruct (set_limits (clamp_ymin logy y0) y1) as [yl |] eqn:Ey;
    [| discriminate].
  simpl. intros H. injection H as <-.
  apply set_limits_inv in Ex, Ey.
  destruct Ex as (-> & Fx0 & Fx1). destruct Ey as (-> & Fy0 & Fy1).
  exists trials, mean. repeat split; auto.
Qed.

(** On a table with a numeric key column and with limits that matplotlib
    accepts, the renderer returns a figure. *)
Lemma plot_single_method_total df label x0 x1 y0 y1
  logy mean_only show_mean rebase idx out :
  has_numeric_key df = true ->
  is_finite x0 = true -> is_finite x1 = true ->
  is_finite (clamp_ymin logy y0) = true -> is_finite y1 = true ->
  exists fig,
    plot_single_method df label x0 x1 y0 y1 logy mean_only show_mean rebase
      idx out = Ok fig.
Proof.
  intros Hk Fx0 Fx1 Fy0 Fy1. unfold plot_single_method.
  destruct (trial_series_total df rebase idx Hk) as [ss Ess].
  destruct (trial_lines_series df rebase idx (trial_columns df) 0 ss Ess)
    as (tl & Etl & _).
  destruct (mean_xy_total df (trial_columns df) idx Hk (trial_columns_In df))
    as [mxy Em].
  assert (Htrials : exists trials,
            (if negb mean_only
             then trial_lines df rebase idx 0 (trial_columns df)
             else Ok []) = Ok trials).
  { destruct mean_only; simpl; eauto. }
  assert (Hmean : exists mean,
            (if show_mean || mean_only
             then mean_line df (trial_columns df) idx
             else Ok []) = Ok mean).
  { destruct (show_mean || mean_only); [| eauto].
    unfold mean_line. rewrite Em. simpl. eauto. }
  destruct Htrials as (trials & ->). destruct Hmean as (mean & ->).
  simpl. rewrite (set_limits_Ok x0 x1 Fx0 Fx1). simpl.
  rewrite (set_limits_Ok _ y1 Fy0 Fy1). simpl. eauto.
Qed.

(** Every line of a figure is the series of a trial column or the mean
    series under the label "Mean". *)
Lemma plot_single_method_lines df label x0 x1 y0 y1
  logy mean_only show_mean rebase idx out fig l :
  plot_single_method df label x0 x1 y0 y1 logy mean_only show_mean rebase
    idx out = Ok fig ->
  In l (fig_lines fig) -> line_source df mean_only rebase idx l.
Proof.
  intros H Hl. apply plot_single_method_inv in H.
  destruct H as (trials & mean & Ht & Hm & _ & _ & _ & _ & ->).
  simpl in Hl. apply in_app_or in Hl. destruct Hl as [Hl | Hl].
  - left. destruct mean_only; simpl in Ht.
    + injection Ht as <-. contradiction.
    + apply trial_lines_inv in Ht. destruct Ht as [Ess Hlab].
      split; [reflexivity |]. split.
      * rewrite Forall_forall in Hlab. apply Hlab. exact Hl.
      * eexists. split; [exact Ess |]. apply in_map. exact Hl.
  - right. destruct (show_mean || mean_only).
    + unfold mean_line in Hm.
      destruct (mean_xy df (trial_columns df) idx) as [[x y] |];
        [| discriminate].
      simpl in Hm. injection Hm as <-. destruct Hl as [<- | []].
      split; reflexivity.
    + injection Hm as <-. contradiction.
Qed.

(** The limits that [compute_global_limits] returns are accepted by
    matplotlib, the lower y-limit also after the clamp. *)
Lemma fallbacks_finite logy lim x0 x1 y0 y1 :
  fallbacks logy lim = (x0, x1, y0, y1) ->
  is_finite x0 = true /\ is_finite x1 = true /\
  is_finite y0 = true /\ is_finite y1 = true.
Proof.
  unfold fallbacks, degenerate.
  destruct (is_finite (xmin lim)) eqn:A, (is_finite (xmax lim)) eqn:B,
    (xmin lim =? xmax lim)%float,
    (is_finite (ymin lim)) eqn:C, (is_finite (ymax lim)) eqn:D,
    (ymin lim =? ymax lim)%float, logy; simpl;
    intros H; injection H as <- <- <- <-; auto.
Qed.

Lemma clamp_ymin_finite logy y0 :
  is_finite y0 = true -> is_finite (clamp_ymin logy y0) = true.
Proof.
  intros F. unfold clamp_ymin.
  destruct (logy && (y0 <=? 0)%float); auto.
  unfold py_max. destruct (y0 <? f_1em12)%float; auto.
Qed.

Lemma mean_xy_no_columns df idx xy :
  mean_xy df [] idx = Ok xy -> Forall (fun v => is_nan v = true) (snd xy).
Proof.
  unfold mean_xy. simpl. intros H.
  assert (Hy : Forall (fun v => is_nan v = true)
                 (map (fun r : list cell => row_mean []) (rows df))).
  { apply Forall_forall. intros v Hv. apply in_map_iff in Hv.
    destruct Hv as (r & <- & _). reflexivity. }
  destruct idx.
  - injection H as <-. exact Hy.
  - destruct (col_index NoOfEvals (columns df)) as [k |]; [| discriminate].
    destruct (rmap _ (rows df)) as [x |]; [| discriminate].
    simpl in H. injection H as <-. exact Hy.
Qed.

(** A line that the renderer draws is a series that the limit computer
    scanned, unless it is the mean curve drawn beside the trials; the mean
    of a table without trial columns, which is not scanned, is NaN
    throughout. *)
Lemma drawn_line_scanned df mean_only rebase idx l ss :
  (mean_only = false -> line_label l <> "Mean"%string) ->
  line_source df mean_only rebase idx l ->
  series_of mean_only rebase idx df = Ok ss ->
  In (line_xy l) ss \/ Forall (fun v => is_nan v = true) (line_y l).
Proof.
  intros Hmode Hsrc Hss. unfold series_of in Hss.
  destruct Hsrc as [(-> & _ & ss' & Ess & Hin) | (Hlab & Em)].
  - left. destruct (trial_columns df) as [| c cols].
    + unfold trial_series in Ess. simpl in Ess. injection Ess as <-.
      contradiction.
    + rewrite Ess in Hss. injection Hss as <-. exact Hin.
  - assert (mean_only = true) as ->.
    { destruct mean_only; auto. exfalso. apply Hmode; auto. }
    destruct (trial_columns df) as [| c cols].
    + right. apply (mean_xy_no_columns df idx (line_xy l) Em).
    + left. rewrite Em in Hss. simpl in Hss. injection Hss as <-.
      simpl. auto.
Qed.

Lemma clamp_ymin_positive logy y0 :
  (logy = true -> (0 <? y0)%float = true) -> clamp_ymin logy y0 = y0.
Proof.
  unfold clamp_ymin. destruct logy; simpl; auto.
  intros H. specialize (H eq_refl).
  destruct (y0 <=? 0)%float eqn:E; auto.
  apply leb_ltb_false in E. congruence.
Qed.

(** ** Shared limits and drawn points *)

(** C1 as stated fails when a fallback range replaces the scanned one: the
    cleaned single-row table [ex_one_point], drawn under linear scale, gets
    the limits [0, 1] x [0, 1] and the renderer plots the point (5, 3). *)
Lemma C1_counterexample :
  exists fig line,
    (exists msgs,
       read_csv_clean ex_path ex_one_point = Ok (ex_one_point, msgs)) /\
    compute_global_limits [("a"%string, ex_one_point)] false false false false
    = Ok (0%float, 1%float, 0%float, 1%float) /\
    plot_single_method ex_one_point "a" 0 1 0 1 false false false false false
      "figures/separate/a.png" = Ok fig /\
    fig_xlim_call fig = (0%float, 1%float) /\
    fig_ylim_call fig = (0%float, 1%float) /\
    In line (fig_lines fig) /\
    In (5%float, 3%float) (combine (line_x line) (line_y line)) /\
    (5 <=? 1)%float = false /\ (3 <=? 1)%float = false.
Proof.
  eexists. eexists.
  split; [eexists; vm_compute; reflexivity |].
  split; [vm_compute; reflexivity |].
  split; [vm_compute; reflexivity |].
  simpl. split; [reflexivity |]. split; [reflexivity |].
  split; [left; reflexivity |].
  split; [left; reflexivity |].
  split; reflexivity.
Qed.

(** With trials rebased and the mean drawn beside them, the mean curve keeps
    the raw evaluation counts and leaves the x-range of the trials. *)
Example mean_beside_rebased_trials_leaves_limits :
  compute_global_limits [("a"%string, ex_late)] false false true false
  = Ok (0%float, 10%float, 1%float, 2%float) /\
  option_map line_xy
    (match plot_single_method ex_late "a" 0 10 1 2 false false true true false
             "a.png" with
     | Ok fig => nth_error (fig_lines fig) 1
     | Raise _ => None
     end)
  = Some ([10%float; 20%float], [1%float; 2%float]) /\
  (20 <=? 10)%float = false.
Proof. repeat split; vm_compute; reflexivity. Qed.

(** Under log scale a value that is not positive is plotted but takes no
    part in the limits. *)
Example log_scale_skips_nonpositive_values :
  compute_global_limits [("a"%string, ex_signed)] true false false false
  = Ok (0%float, 20%float, 1%float, 2%float) /\
  per_trial_xy ex_signed "Trial1" false false
  = Ok ([0%float; 10%float; 20%float], [(-1)%float; 1%float; 2%float]) /\
  (1 <=? -1)%float = false.
Proof. repeat split; vm_compute; reflexivity. Qed.

(** C1, amended: on tables with a numeric key column and under every
    flag combination, take a line of the figure other than the mean curve
    drawn beside the trials: every line of a trial, and the mean curve in
    mean-only mode.  Every point of it whose x and y are not NaN, and whose
    y is positive under log scale, has its x within the x-limits returned
    by [compute_global_limits] unless the x-range fell back to the default,
    and its y within the returned y-limits, after the clamp of the
    renderer, unless the y-range fell back to the default.  These limits
    are the ones given to [plt.xlim] and [plt.ylim]. *)
Theorem C1_limits_contain_drawn_points (datasets : list (string * DataFrame))
  (logy mean_only show_mean rebase_per_trial x_as_index : bool)
  (label : string) (df : DataFrame) (output_path : string) :
  Forall (fun d => has_numeric_key (snd d) = true) datasets ->
  In (label, df) datasets ->
  exists lim x0 x1 y0 y1 fig,
    scan_datasets logy mean_only rebase_per_trial x_as_index datasets
      initial_limits = Ok lim /\
    compute_global_limits datasets logy mean_only rebase_per_trial x_as_index
    = Ok (x0, x1, y0, y1) /\
    plot_single_method df label x0 x1 y0 y1 logy mean_only show_mean
      rebase_per_trial x_as_index output_path = Ok fig /\
    fig_xlim_call fig = (x0, x1) /\
    fig_ylim_call fig = (clamp_ymin logy y0, y1) /\
    forall line x y,
      In line (fig_lines fig) ->
      (mean_only = false -> line_label line <> "Mean"%string) ->
      In (x, y) (combine (line_x line) (line_y line)) ->
      is_nan x = false -> is_nan y = false ->
      (logy = true -> (0 <? y)%float = true) ->
      (degenerate (xmin lim) (xmax lim) = false ->
       (x0 <=? x)%float = true /\ (x <=? x1)%float = true) /\
      (degenerate (ymin lim) (ymax lim) = false ->
       (clamp_ymin logy y0 <=? y)%float = true /\ (y <=? y1)%float = true).
Proof.
  intros Hall Hin.
  destruct (scan_datasets_total logy mean_only rebase_per_trial x_as_index
              datasets Hall) as (sss & Esss & Escan).
  set (lim := scanned logy (List.concat sss) initial_limits) in *.
  destruct (scanned_facts logy (List.concat sss) initial_limits
              initial_limits_notna) as (_ & _ & Cx & Cy & _ & _ & Pos).
  fold lim in Cx, Cy, Pos.
  assert (Hdf : has_numeric_key df = true).
  { rewrite Forall_forall in Hall. apply (Hall (label, df) Hin). }
  destruct (rmap_In _ _ _ datasets sss (label, df) Esss Hin)
    as (ss & Ess & Hss).
  simpl in Ess.
  remember (fallbacks logy lim) as lims eqn:Elims.
  destruct lims as [[[x0 x1] y0] y1].
  destruct (fallbacks_finite logy lim x0 x1 y0 y1 (eq_sym Elims))
    as (Fx0 & Fx1 & Fy0 & Fy1).
  destruct (plot_single_method_total df label x0 x1 y0 y1 logy mean_only
              show_mean rebase_per_trial x_as_index output_path Hdf
              Fx0 Fx1 (clamp_ymin_finite logy y0 Fy0) Fy1)
    as (fig & Efig).
  assert (Elim : fig_xlim_call fig = (x0, x1) /\
                 fig_ylim_call fig = (clamp_ymin logy y0, y1)).
  { destruct (plot_single_method_inv _ _ _ _ _ _ _ _ _ _ _ _ _ Efig)
      as (trials & mean & _ & _ & _ & _ & _ & _ & ->). split; reflexivity. }
  destruct Elim as [Exl Eyl].
  exists lim, x0, x1, y0, y1, fig.
  split; [exact Escan |].
  split; [unfold compute_global_limits; rewrite Escan; simpl;
          rewrite <- Elims; reflexivity |].
  split; [exact Efig |]. split; [exact Exl |]. split; [exact Eyl |].
  intros line x y Hline Hlab Hxy Nx Ny Hpos.
  pose proof (plot_single_method_lines _ _ _ _ _ _ _ _ _ _ _ _ _ line
                Efig Hline) as Hsrc.
  destruct (drawn_line_scanned df mean_only rebase_per_trial x_as_index
              line ss Hlab Hsrc Ess) as [Hs | Hnan].
  - assert (Hc : In (line_xy line) (List.concat sss)).
    { apply in_concat. exists ss. auto. }
    unfold fallbacks in Elims. split.
    + intros Dx. rewrite Dx in Elims.
      destruct (if degenerate (ymin lim) (ymax lim) then _ else _) in Elims.
      injection Elims as -> -> _ _.
      apply (Cx (line_xy line) x Hc); auto.
      apply (in_combine_l _ _ _ _ Hxy).
    + intros Dy. rewrite Dy in Elims.
      destruct (if degenerate (xmin lim) (xmax lim) then _ else _) in Elims.
      injection Elims as _ _ -> ->.
      rewrite clamp_ymin_positive by (intros L; apply Pos; auto).
      apply (Cy (line_xy line) y Hc); [| split; auto].
      apply (in_combine_r _ _ _ _ Hxy).
  - exfalso. rewrite Forall_forall in Hnan.
    rewrite (Hnan y (in_combine_r _ _ _ _ Hxy)) in Ny. discriminate.
Qed.

Lemma C1_witness :
  exists lim x0 x1 y0 y1 fig,
    scan_datasets true false false false
      [("a"%string, ex_a); ("b"%string, ex_b)] initial_limits = Ok lim /\
    compute_global_limits [("a"%string, ex_a); ("b"%string, ex_b)]
      true false false false
    = Ok (x0, x1, y0, y1) /\
    plot_single_method ex_a "a" x0 x1 y0 y1 true false true false false
      "figures/separate/a.png" = Ok fig /\
    fig_xlim_call fig = (x0, x1) /\
    fig_ylim_call fig = (clamp_ymin true y0, y1) /\
    forall line x y,
      In line (fig_lines fig) ->
      (false = false -> line_label line <> "Mean"%string) ->
      In (x, y) (combine (line_x line) (line_y line)) ->
      is_nan x = false -> is_nan y = false ->
      (true = true -> (0 <? y)%float = true) ->
      (degenerate (xmin lim) (xmax lim) = false ->
       (x0 <=? x)%float = true /\ (x <=? x1)%float = true) /\
      (degenerate (ymin lim) (ymax lim) = false ->
       (clamp_ymin true y0 <=? y)%float = true /\ (y <=? y1)%float = true).
Proof.
  apply (C1_limits_contain_drawn_points
           [("a"%string, ex_a); ("b"%string, ex_b)]
           true false true false false "a" ex_a "figures/separate/a.png").
  - repeat constructor.
  - left. reflexivity.
Defined.

(** ** A run on well-formed files *)

Section RunFacts.

Variable read_csv : Path -> DataFrame.

Lemma load_all_completes (lfs : list (string * Path)) : forall w,
  Forall (fun lf => ~ lacks_key read_csv (snd lf)) lfs ->
  exists w' ds,
    for_each (fun lf => bind (load read_csv (snd lf))
                          (fun df => ret (fst lf, df))) lfs w = (w', Ok ds) /\
    written w' = written w /\ List.length ds = List.length lfs /\
    Forall (fun d => has_numeric_key (snd d) = true) ds.
Proof.
  induction lfs as [| [l p] lfs IH]; intros w H; simpl.
  - exists w, []. unfold ret. auto.
  - inversion H as [| ? ? Hp Hrest]; subst. simpl in Hp.
    destruct (load_present read_csv p w Hp) as (df & msgs & Eclean & L).
    destruct (IH (mkWorld (stdout w ++ msgs) (written w)) Hrest)
      as (w' & ds & E & Hw & Hlen & Hall).
    exists w', ((l, df) :: ds). unfold bind at 1 2. rewrite L.
    unfold ret at 1. unfold bind at 1. rewrite E. unfold ret. simpl.
    repeat split; auto.
    constructor; auto. simpl.
    apply (read_csv_clean_numeric_key p (read_csv p) df msgs Eclean).
Qed.

Lemma for_each_cons_ok (X Y : Type) (f : X -> M Y) a l w w1 w2 b bs :
  f a w = (w1, Ok b) -> for_each f l w1 = (w2, Ok bs) ->
  for_each f (a :: l) w = (w2, Ok (b :: bs)).
Proof.
  intros E1 E2. simpl. unfold bind. rewrite E1, E2. reflexivity.
Qed.

Lemma render_completes args x0 x1 y0 y1 l df w :
  has_numeric_key df = true ->
  is_finite x0 = true -> is_finite x1 = true ->
  is_finite y0 = true -> is_finite y1 = true ->
  exists fig,
    plot_single_method df l x0 x1 y0 y1
      (negb (no_logy args)) (mean_only args) (show_mean args)
      (rebase_per_trial args) (x_as_index args)
      (output_file (output_dir args) l) = Ok fig /\
    render args (x0, x1, y0, y1) (l, df) w =
    (mkWorld (stdout w ++ [OkWrote (output_file (output_dir args) l)])
       (written w ++ [fig]), Ok tt).
Proof.
  intros Hd Fx0 Fx1 Fy0 Fy1.
  destruct (plot_single_method_total df l x0 x1 y0 y1
              (negb (no_logy args)) (mean_only args) (show_mean args)
              (rebase_per_trial args) (x_as_index args)
              (output_file (output_dir args) l) Hd Fx0 Fx1
              (clamp_ymin_finite _ y0 Fy0) Fy1) as (fig & Efig).
  exists fig. split; [exact Efig |].
  unfold render, bind, lift. simpl. rewrite Efig. reflexivity.
Qed.

Lemma render_all_completes args x0 x1 y0 y1 (ds : list (string * DataFrame)) :
  is_finite x0 = true -> is_finite x1 = true ->
  is_finite y0 = true -> is_finite y1 = true ->
  forall w,
  Forall (fun d => has_numeric_key (snd d) = true) ds ->
  exists w' us,
    for_each (render args (x0, x1, y0, y1)) ds w = (w', Ok us) /\
    List.length (written w') = List.length (written w) + List.length ds.
Proof.
  intros Fx0 Fx1 Fy0 Fy1.
  induction ds as [| [l df] ds IH]; intros w H.
  - exists w, []. split; [reflexivity | simpl; lia].
  - inversion H as [| ? ? Hd Hrest]; subst. simpl in Hd.
    destruct (render_completes args x0 x1 y0 y1 l df w Hd Fx0 Fx1 Fy0 Fy1)
      as (fig & _ & Er).
    destruct (IH (mkWorld
                    (stdout w ++ [OkWrote (output_file (output_dir args) l)])
                    (written w ++ [fig])) Hrest) as (w' & us & E & Hlen).
    exists w', (tt :: us). split.
    + eapply for_each_cons_ok; eassumption.
    + rewrite Hlen. simpl. rewrite length_app. simpl. lia.
Qed.

(** When every file has the column, the run completes and writes one
    figure per file. *)
Lemma main_completes args w :
  Forall (fun p => ~ lacks_key read_csv p) (files args) ->
  exists w',
    main read_csv args w = (w', Ok tt) /\
    List.length (written w') =
    List.length (written w) + List.length (files args).
Proof.
  intros H.
  pose proof (map_snd_combine _ _ (choose_labels args) (files args)
                (length_choose_labels args)) as Hm.
  assert (Hl : Forall (fun lf => ~ lacks_key read_csv (snd lf))
                 (combine (choose_labels args) (files args))).
  { apply Forall_forall. intros lf Hlf. rewrite Forall_forall in H.
    apply H. rewrite <- Hm. apply in_map. exact Hlf. }
  destruct (load_all_completes _ w Hl) as (w1 & ds & E1 & Hw1 & Hlen & Hall).
  destruct (scan_datasets_total (negb (no_logy args)) (mean_only args)
              (rebase_per_trial args) (x_as_index args) ds Hall)
    as (sss & _ & Escan).
  remember (fallbacks (negb (no_logy args))
              (scanned (negb (no_logy args)) (List.concat sss)
                 initial_limits)) as lims eqn:Elims.
  destruct lims as [[[x0 x1] y0] y1].
  destruct (fallbacks_finite _ _ x0 x1 y0 y1 (eq_sym Elims))
    as (Fx0 & Fx1 & Fy0 & Fy1).
  destruct (render_all_completes args x0 x1 y0 y1 ds Fx0 Fx1 Fy0 Fy1
              (mkWorld (stdout w1 ++
                          [InfoLimits x0 x1 y0 y1 (negb (no_logy args))])
                 (written w1)) Hall) as (w2 & us & E2 & Hlen2).
  exists w2. unfold main. unfold bind at 1. rewrite E1.
  unfold bind at 1, lift, compute_global_limits. rewrite Escan. simpl.
  rewrite <- Elims. unfold bind at 1. unfold print at 1. simpl.
  unfold bind at 1. rewrite E2. unfold ret. split; auto.
  rewrite Hlen2. simpl. rewrite Hw1, Hlen, length_combine.
  rewrite length_choose_labels, Nat.min_id. reflexivity.
Qed.

End RunFacts.

(** * Part IV: further properties of the code *)

(** ** The loader: what cleaning keeps *)

Lemma cell_at_set_cell_other j k c r :
  j <> k -> cell_at j (set_cell k c r) = cell_at j r.
Proof.
  unfold cell_at. revert j k.
  induction r as [| x r IH]; intros [| j] [| k] H; simpl; auto;
    try contradiction.
Qed.

Lemma length_set_cell k c r : List.length (set_cell k c r) = List.length r.
Proof.
  revert k. induction r as [| x r IH]; intros [| k]; simpl; auto.
Qed.

Lemma length_insert_by (X : Type) (key : X -> float) a l :
  List.length (insert_by key a l) = S (List.length l).
Proof.
  induction l as [| b l IH]; simpl; auto.
  destruct (key a <=? key b)%float; simpl; auto.
Qed.

Lemma length_sort_values (X : Type) (key : X -> float) l :
  List.length (sort_values key l) = List.length l.
Proof.
  induction l as [| a l IH]; simpl; auto.
  rewrite length_insert_by, IH. reflexivity.
Qed.

Lemma length_drop_duplicates_last (X : Type) (key : X -> float) l :
  List.length (drop_duplicates_last key l) <= List.length l.
Proof.
  induction l as [| a l IH]; simpl; auto.
  destruct (existsb _ l); simpl; lia.
Qed.

Lemma length_clean_rows k rs :
  List.length (clean_rows k rs) <= List.length rs.
Proof.
  unfold clean_rows.
  eapply Nat.le_trans; [apply length_drop_duplicates_last |].
  rewrite length_sort_values. unfold dropna.
  eapply Nat.le_trans; [apply filter_length_le |].
  rewrite length_map. apply Nat.le_refl.
Qed.

(** X1: the table that the loader returns has the columns of the input and
    no more rows than it; each of its rows is a row of the input in which
    the cell of [NoOfEvals] holds the coerced number and every other cell
    is unchanged. *)
Theorem X1_cleaning_keeps_other_cells (path : Path) (df out : DataFrame)
  (msgs : list message) :
  read_csv_clean path df = Ok (out, msgs) ->
  columns out = columns df /\
  List.length (rows out) <= List.length (rows df) /\
  exists k,
    col_index NoOfEvals (columns df) = Some k /\
    forall r, In r (rows out) ->
      exists r0,
        In r0 (rows df) /\ List.length r = List.length r0 /\
        cell_at k r = Numeric (value_at k r0) /\
        is_nan (value_at k r0) = false /\
        forall j, j <> k -> cell_at j r = cell_at j r0.
Proof.
  intros H. apply read_csv_clean_Ok in H. destruct H as (k & Hk & ->). simpl.
  split; [reflexivity |]. split; [apply length_clean_rows |].
  exists k. split; [exact Hk |]. intros r Hr.
  pose proof (clean_rows_numeric k (rows df) r Hr) as Hnum.
  apply clean_rows_In in Hr. destruct Hr as (r0 & Hr0 & -> & N).
  rewrite value_at_coerce_key in Hnum, N.
  exists r0. split; [exact Hr0 |].
  split; [apply length_set_cell |]. split; [exact Hnum |]. split; [exact N |].
  intros j Hj. apply cell_at_set_cell_other. exact Hj.
Qed.

Lemma X1_witness :
  columns ex_dup_cleaned = columns ex_dup /\
  List.length (rows ex_dup_cleaned) <= List.length (rows ex_dup) /\
  exists k,
    col_index NoOfEvals (columns ex_dup) = Some k /\
    forall r, In r (rows ex_dup_cleaned) ->
      exists r0,
        In r0 (rows ex_dup) /\ List.length r = List.length r0 /\
        cell_at k r = Numeric (value_at k r0) /\
        is_nan (value_at k r0) = false /\
        forall j, j <> k -> cell_at j r = cell_at j r0.
Proof.
  apply (X1_cleaning_keeps_other_cells ex_path ex_dup ex_dup_cleaned
           [InfoTable "a.csv" 2 2 0 10 false]).
  vm_compute. reflexivity.
Defined.

(** ** The loader: what it reports *)

Lemma length_filter_split (X : Type) (p : X -> bool) (l : list X) :
  List.length (filter p l) + List.length (filter (fun x => negb (p x)) l)
  = List.length l.
Proof.
  induction l as [| a l IH]; simpl; auto.
  destruct (p a); simpl; lia.
Qed.

Lemma length_dropna_coerce k rs :
  List.length (dropna (value_at k) (map (coerce_key k) rs))
  + List.length (filter (fun r => is_nan (value_at k r)) rs)
  = List.length rs.
Proof.
  rewrite <- (length_filter_split _ (fun r => notna (value_at k r)) rs).
  f_equal.
  - unfold dropna. induction rs as [| r rs IH]; simpl; auto.
    rewrite value_at_coerce_key.
    destruct (notna (value_at k r)); simpl; rewrite IH; reflexivity.
  - f_equal. apply filter_ext. intros r. unfold notna.
    rewrite negb_involutive. reflexivity.
Qed.

Lemma diagnostics_no_dropped name xs m n :
  ~ In (WarnDropped m n) (diagnostics name xs).
Proof.
  unfold diagnostics. destruct xs as [| x xs].
  - intros [H | []]. discriminate.
  - intros [H | H]; [discriminate |].
    destruct (Nat.eqb _ 1); [destruct H as [H | []]; discriminate | contradiction].
Qed.

(** X2: the loader prints the warning about dropped rows exactly when some
    row of the input has an evaluation count that is no number, and the
    warning carries the number of those rows and the name of the file. *)
Theorem X2_dropped_rows_warning (path : Path) (df out : DataFrame)
  (msgs : list message) :
  read_csv_clean path df = Ok (out, msgs) ->
  exists k,
    col_index NoOfEvals (columns df) = Some k /\
    forall m name,
      In (WarnDropped m name) msgs <->
      m = List.length (filter (fun r => is_nan (value_at k r)) (rows df)) /\
      0 < m /\ name = path_name path.
Proof.
  unfold read_csv_clean.
  destruct (col_index NoOfEvals (columns df)) as [k |] eqn:Hk; [| discriminate].
  intros H. injection H as _ <-. exists k. split; [reflexivity |].
  intros m name.
  pose proof (length_dropna_coerce k (rows df)) as Hlen.
  set (kept := dropna (value_at k) (map (coerce_key k) (rows df))) in *.
  set (bad := filter (fun r => is_nan (value_at k r)) (rows df)) in *.
  rewrite length_map. rewrite in_app_iff.
  destruct (Nat.ltb_spec (List.length kept) (List.length (rows df))) as [L | L].
  - split.
    + intros [[H | []] | H].
      * injection H as <- <-. repeat split; lia.
      * exfalso. exact (diagnostics_no_dropped _ _ _ _ H).
    + intros (-> & _ & ->). left. left. f_equal. lia.
  - split.
    + intros [[] | H]. exfalso. exact (diagnostics_no_dropped _ _ _ _ H).
    + intros (-> & Hpos & _). lia.
Qed.

Lemma X2_witness :
  exists k,
    col_index NoOfEvals (columns ex_bad_key) = Some k /\
    forall m name,
      In (WarnDropped m name)
        [WarnDropped 2 "a.csv"; InfoTable "a.csv" 1 1 0 0 true;
         WarnSingleX "a.csv"] <->
      m = List.length (filter (fun r => is_nan (value_at k r)) (rows ex_bad_key)) /\
      0 < m /\ name = path_name ex_path.
Proof.
  apply (X2_dropped_rows_warning ex_path ex_bad_key
           (mkDataFrame ["NoOfEvals"; "Trial1"]%string [[Numeric 0; Numeric 2]])).
  vm_compute. reflexivity.
Defined.

Lemma fold_min_head vs : forall a,
  Forall (fun w => (a <? w)%float = true) vs -> fold_left py_min vs a = a.
Proof.
  induction vs as [| w vs IH]; intros a H; simpl; auto.
  inversion H as [| ? ? Hw Hvs]; subst.
  unfold py_min at 2. rewrite (leb_ltb_false a w (ltb_leb a w Hw)).
  apply IH. exact Hvs.
Qed.

Lemma last_cons_default (X : Type) (l : list X) : forall w a,
  last (w :: l) a = last l w.
Proof.
  induction l as [| f l IH]; intros w a; [reflexivity |].
  change (last (w :: f :: l) a) with (last (f :: l) a).
  rewrite (IH f a), (IH f w). reflexivity.
Qed.

Lemma fold_max_last vs : forall a,
  StronglySorted (fun x y => (x <? y)%float = true) (a :: vs) ->
  fold_left py_max vs a = last vs a.
Proof.
  induction vs as [| w vs IH]; intros a H; [reflexivity |].
  inversion H as [| ? ? Hs Ha]; subst.
  inversion Ha as [| ? ? Haw _]; subst.
  rewrite last_cons_default.
  change (fold_left py_max (w :: vs) a)
    with (fold_left py_max vs (py_max a w)).
  unfold py_max at 2. rewrite Haw. apply IH. exact Hs.
Qed.

Lemma sorted_filter_notna xs :
  StronglySorted (fun x y => (x <? y)%float = true) xs ->
  Forall (fun v => is_nan v = false) xs -> filter notna xs = xs.
Proof.
  intros _ H. induction H as [| a l Ha Hl IH]; simpl; auto.
  unfold notna at 1. rewrite Ha. simpl. rewrite IH. reflexivity.
Qed.

Lemma StronglySorted_ltb_key (xs : list float) :
  StronglySorted (fun x y => (x <? y)%float = true) xs ->
  StronglySorted (key_lt (fun v : float => v)) xs.
Proof. intros H. exact H. Qed.

(** On a strictly increasing list of numbers the diagnostics are read off
    its ends and its length. *)
Lemma diagnostics_sorted name xs :
  StronglySorted (fun x y => (x <? y)%float = true) xs ->
  Forall (fun v => is_nan v = false) xs ->
  diagnostics name xs =
  match xs with
  | [] => [WarnEmpty name]
  | a :: _ =>
      InfoTable name (List.length xs) (List.length xs) a (last xs a)
        (Nat.eqb (List.length xs) 1 && (a =? 0)%float)
      :: (if Nat.eqb (List.length xs) 1 then [WarnSingleX name] else [])
  end.
Proof.
  intros Hs Hn. destruct xs as [| a vs]; [reflexivity |].
  unfold diagnostics, nunique, np_nanmin, np_nanmax.
  assert (Hd : dropna (fun v : float => v) (a :: vs) = a :: vs).
  { apply dropna_id. exact Hn. }
  rewrite Hd.
  rewrite (drop_duplicates_last_id _ (fun v : float => v) (a :: vs)
             (StronglySorted_ltb_key _ Hs)).
  rewrite (sorted_filter_notna _ Hs Hn).
  inversion Hs as [| ? ? Hvs Ha]; subst.
  rewrite (fold_min_head vs a Ha), (fold_max_last vs a Hs).
  f_equal. f_equal.
  - destruct vs; reflexivity.
  - destruct vs as [| b vs]; simpl.
    + rewrite andb_true_r. reflexivity.
    + inversion Ha as [| ? ? Hab _]; subst.
      destruct (a =? 0)%float eqn:Ea; simpl; auto.
      destruct (b =? 0)%float eqn:Eb; simpl; auto.
      apply ltb_neq in Hab. rewrite (eqb_sym b 0) in Eb.
      rewrite (eqb_trans a 0 b Ea Eb) in Hab. discriminate.
Qed.

Lemma last_map (X Y : Type) (f : X -> Y) (l : list X) (d : X) :
  last (map f l) (f d) = f (last l d).
Proof.
  induction l as [| a l IH]; simpl; auto.
  destruct l; simpl in *; auto.
Qed.

(** X3: after the optional warning about dropped rows, the loader reports
    on the cleaned table.  An empty table gives the empty-table warning
    alone.  Otherwise the line of information carries the number of rows
    twice (every evaluation count is unique), the evaluation counts of the
    first and of the last row as range, and [all_zero] set exactly for a
    single row of evaluation count zero; the single-value warning follows
    exactly when the table has one row. *)
Theorem X3_diagnostics_of_cleaned_table (path : Path) (df out : DataFrame)
  (msgs : list message) :
  read_csv_clean path df = Ok (out, msgs) ->
  exists k warn,
    col_index NoOfEvals (columns df) = Some k /\
    (warn = [] \/ exists m, warn = [WarnDropped m (path_name path)]) /\
    msgs = warn ++
      match rows out with
      | [] => [WarnEmpty (path_name path)]
      | first :: _ =>
          let n := List.length (rows out) in
          InfoTable (path_name path) n n
            (value_at k first) (value_at k (last (rows out) first))
            (Nat.eqb n 1 && (value_at k first =? 0)%float)
          :: (if Nat.eqb n 1 then [WarnSingleX (path_name path)] else [])
      end.
Proof.
  intros H. pose proof (read_csv_clean_Ok path df out msgs H) as (k & Hk & Eout).
  unfold read_csv_clean in H. rewrite Hk in H. injection H as _ <-.
  exists k. eexists. split; [exact Hk |]. split; [| f_equal].
  - destruct (Nat.ltb _ _); [right; eexists; reflexivity | left; reflexivity].
  - fold (clean_rows k (rows df)).
    rewrite (diagnostics_sorted (path_name path)
               (map (value_at k) (clean_rows k (rows df)))).
    + rewrite Eout. simpl.
      destruct (clean_rows k (rows df)) as [| first rest] eqn:E; [reflexivity |].
      cbv zeta. rewrite <- (last_map _ _ (value_at k)).
      rewrite !length_map. reflexivity.
    + apply StronglySorted_map_key. apply clean_rows_sorted.
    + apply Forall_forall. intros v Hv. apply in_map_iff in Hv.
      destruct Hv as (r & <- & Hr).
      pose proof (clean_rows_keys_notna k (rows df)) as Hn.
      unfold keys_notna in Hn. rewrite Forall_forall in Hn. auto.
Qed.

Lemma X3_witness :
  exists k warn,
    col_index NoOfEvals (columns ex_dup) = Some k /\
    (warn = [] \/ exists m, warn = [WarnDropped m (path_name ex_path)]) /\
    [InfoTable "a.csv" 2 2 0 10 false] = warn ++
      match rows ex_dup_cleaned with
      | [] => [WarnEmpty (path_name ex_path)]
      | first :: _ =>
          let n := List.length (rows ex_dup_cleaned) in
          InfoTable (path_name ex_path) n n
            (value_at k first) (value_at k (last (rows ex_dup_cleaned) first))
            (Nat.eqb n 1 && (value_at k first =? 0)%float)
          :: (if Nat.eqb n 1 then [WarnSingleX (path_name ex_path)] else [])
      end.
Proof.
  apply (X3_diagnostics_of_cleaned_table ex_path ex_dup ex_dup_cleaned
           [InfoTable "a.csv" 2 2 0 10 false]).
  vm_compute. reflexivity.
Defined.

(** ** The series extractor: errors *)




Lemma rmap_astype_Ok k (l : list (list cell)) xs :
  rmap (fun r => astype_float (cell_at k r)) l = Ok xs ->
  xs = map (value_at k) l /\
  Forall (fun r => numeric_cell (cell_at k r) = true) l.
Proof.
  revert xs. induction l as [| r l IH]; simpl; intros xs H.
  - injection H as <-. auto.
  - destruct (cell_at k r) as [v | s] eqn:Ec; simpl in *; [| discriminate].
    destruct (rmap _ l) as [ys |]; [| discriminate].
    injection H as <-. destruct (IH ys eq_refl) as [-> Hl]. split.
    + unfold value_at. rewrite Ec. reflexivity.
    + constructor; auto. rewrite Ec. reflexivity.
Qed.


(** ** The series extractor after the loader *)

Lemma StronglySorted_filter (X : Type) (R : X -> X -> Prop) (p : X -> bool) l :
  StronglySorted R l -> StronglySorted R (filter p l).
Proof.
  induction 1 as [| a l Hs IH Ha]; simpl; [constructor |].
  destruct (p a); auto. constructor; auto.
  apply Forall_forall. intros b Hb. apply filter_In in Hb.
  rewrite Forall_forall in Ha. apply Ha. tauto.
Qed.

Lemma StronglySorted_ltb_leb (xs : list float) :
  StronglySorted (fun a b => (a <? b)%float = true) xs ->
  StronglySorted (fun a b => (a <=? b)%float = true) xs.
Proof.
  induction 1 as [| a l Hs IH Ha]; constructor; auto.
  eapply Forall_impl; [| exact Ha]. intros b. apply ltb_leb.
Qed.

(** X5: on a table that the loader returned, the series of a column taken
    by evaluation count and without rebasing has its x values in ascending
    order, none of them NaN, and each the evaluation count of a row of the
    table. *)
Theorem X5_cleaned_series_x_ascending (path : Path) (df out : DataFrame)
  (msgs : list message) (col : string) :
  read_csv_clean path df = Ok (out, msgs) ->
  In col (columns out) ->
  exists x y k,
    per_trial_xy out col false false = Ok (x, y) /\
    StronglySorted (fun a b => (a <=? b)%float = true) x /\
    col_index NoOfEvals (columns out) = Some k /\
    forall v, In v x ->
      is_nan v = false /\ exists r, In r (rows out) /\ value_at k r = v.
Proof.
  intros H Hcol.
  pose proof (read_csv_clean_numeric_key path df out msgs H) as Hnum.
  apply read_csv_clean_Ok in H. destruct H as (k0 & Hk0 & Eout).
  destruct (col_index_Some col _ Hcol) as [j Hj].
  destruct (has_numeric_key_inv _ Hnum) as (k & Hk & Hn).
  assert (k0 = k) as ->.
  { rewrite Eout in Hk. simpl in Hk. congruence. }
  assert (Erows : rows out = clean_rows k (rows df))
    by (rewrite Eout; reflexivity).
  rewrite (per_trial_xy_evals out col false j k Hj Hk Hn).
  unfold rebase_x. simpl.
  do 3 eexists. split; [reflexivity |]. split; [| split; [exact Hk |]].
  - apply StronglySorted_ltb_leb, StronglySorted_map_key. unfold kept_rows.
    apply StronglySorted_filter. rewrite Erows. apply clean_rows_sorted.
  - intros v Hv. apply in_map_iff in Hv. destruct Hv as (r & <- & Hr).
    unfold kept_rows in Hr. apply filter_In in Hr. destruct Hr as [Hr _].
    split.
    + rewrite Erows in Hr.
      pose proof (clean_rows_keys_notna k (rows df)) as Hnn.
      unfold keys_notna in Hnn. rewrite Forall_forall in Hnn. auto.
    + exists r. split; [exact Hr | reflexivity].
Qed.

Lemma X5_witness :
  exists x y k,
    per_trial_xy ex_dup_cleaned "Trial1" false false = Ok (x, y) /\
    StronglySorted (fun a b => (a <=? b)%float = true) x /\
    col_index NoOfEvals (columns ex_dup_cleaned) = Some k /\
    forall v, In v x ->
      is_nan v = false /\
      exists r, In r (rows ex_dup_cleaned) /\ value_at k r = v.
Proof.
  apply (X5_cleaned_series_x_ascending ex_path ex_dup ex_dup_cleaned
           [InfoTable "a.csv" 2 2 0 10 false] "Trial1").
  - vm_compute. reflexivity.
  - simpl. auto.
Defined.

(** ** The mean curve *)

(** X6: the mean series has one point for every row of the table: no row
    is masked out, and a row without any numeric trial entry gives NaN.
    When x is not the row index, x is the evaluation count of every row as
    it stands, never rebased. *)
Theorem X6_mean_series_covers_every_row (df : DataFrame) (cols : list string)
  (x_as_index : bool) (x y : list float) :
  mean_xy df cols x_as_index = Ok (x, y) ->
  List.length x = List.length (rows df) /\
  List.length y = List.length (rows df) /\
  (forall i r,
     nth_error (rows df) i = Some r ->
     (forall c j, In c cols -> col_index c (columns df) = Some j ->
        is_nan (value_at j r) = true) ->
     exists v, nth_error y i = Some v /\ is_nan v = true) /\
  (x_as_index = true -> x = index_x (List.length (rows df))) /\
  (x_as_index = false ->
   exists k, col_index NoOfEvals (columns df) = Some k /\
     x = map (value_at k) (rows df)).
Proof.
  unfold mean_xy, select_columns.
  destruct (rmap _ cols) as [js |] eqn:Ejs; [| discriminate]. simpl.
  set (ys := map (fun r => row_mean (map (fun j => value_at j r) js)) (rows df)).
  assert (Hnan : forall i r,
             nth_error (rows df) i = Some r ->
             (forall c j, In c cols -> col_index c (columns df) = Some j ->
                is_nan (value_at j r) = true) ->
             exists v, nth_error ys i = Some v /\ is_nan v = true).
  { intros i r Hi Hall. unfold ys. rewrite nth_error_map, Hi. simpl.
    eexists. split; [reflexivity |].
    assert (Hf : filter notna (map (fun j => value_at j r) js) = []).
    { assert (Hjs : forall j, In j js ->
                exists c, In c cols /\ col_index c (columns df) = Some j).
      { clear - Ejs. revert js Ejs.
        induction cols as [| c cols IH]; simpl; intros js E j Hj.
        - injection E as <-. contradiction.
        - destruct (col_index c (columns df)) as [jc |] eqn:Ec; [| discriminate].
          destruct (rmap _ cols) as [js' |]; [| discriminate].
          injection E as <-. destruct Hj as [<- | Hj]; eauto.
          destruct (IH js' eq_refl j Hj) as (c' & Hc' & E'). eauto. }
      clear - Hall Hjs. induction js as [| j js IH]; simpl; auto.
      destruct (Hjs j (or_introl eq_refl)) as (c & Hc & Ej).
      unfold notna at 1. rewrite (Hall c j Hc Ej). simpl.
      apply IH. intros j' Hj'. apply Hjs. right. exact Hj'. }
    unfold row_mean. rewrite Hf. reflexivity. }
  assert (Hly : List.length ys = List.length (rows df))
    by (unfold ys; apply length_map).
  destruct x_as_index.
  - intros H. injection H as <- <-. rewrite length_index_x.
    repeat split; auto; try discriminate;
      try (intros _; rewrite Hly; reflexivity).
  - destruct (col_index NoOfEvals (columns df)) as [k |]; [| discriminate].
    destruct (rmap (fun r => astype_float (cell_at k r)) (rows df))
      as [xs |] eqn:Ex; [| discriminate].
    simpl. intros H. injection H as <- <-.
    destruct (rmap_astype_Ok k _ _ Ex) as [-> _]. rewrite length_map.
    repeat split; auto; try discriminate;
      try (intros _; exists k; auto).
Qed.

Lemma X6_witness :
  List.length [0%float; 10%float; 20%float; 30%float]
  = List.length (rows ex_a) /\
  List.length [5%float; 4%float; 2.5%float; 1.5%float]
  = List.length (rows ex_a) /\
  (forall i r,
     nth_error (rows ex_a) i = Some r ->
     (forall c j, In c ["Trial1"; "Trial2"]%string ->
        col_index c (columns ex_a) = Some j ->
        is_nan (value_at j r) = true) ->
     exists v,
       nth_error [5%float; 4%float; 2.5%float; 1.5%float] i = Some v /\
       is_nan v = true) /\
  (false = true ->
   [0%float; 10%float; 20%float; 30%float]
   = index_x (List.length (rows ex_a))) /\
  (false = false ->
   exists k, col_index NoOfEvals (columns ex_a) = Some k /\
     [0%float; 10%float; 20%float; 30%float] = map (value_at k) (rows ex_a)).
Proof.
  apply (X6_mean_series_covers_every_row ex_a ["Trial1"; "Trial2"]%string false).
  vm_compute. reflexivity.
Defined.

(** ** The limit computer: what is scanned *)

Lemma rmap_In_inv (X Y : Type) (f : X -> result Y) (l : list X) : forall bs b,
  rmap f l = Ok bs -> In b bs -> exists a, In a l /\ f a = Ok b.
Proof.
  induction l as [| x l IH]; simpl; intros bs b H Hb.
  - injection H as <-. contradiction.
  - destruct (f x) as [y |] eqn:Ex; [| discriminate].
    destruct (rmap f l) as [ys |] eqn:El; [| discriminate].
    injection H as <-. destruct Hb as [<- | Hb]; [eauto |].
    destruct (IH ys b eq_refl Hb) as (a & Ha & Ea). eauto.
Qed.

Lemma series_of_scanned mean_only rebase idx df ss xy :
  series_of mean_only rebase idx df = Ok ss -> In xy ss ->
  scanned_series mean_only rebase idx df xy.
Proof.
  unfold series_of, scanned_series.
  destruct (trial_columns df) as [| c cols] eqn:Ec.
  - intros H. injection H as <-. contradiction.
  - destruct mean_only.
    + destruct (mean_xy df (c :: cols) idx) as [m |]; [| discriminate].
      simpl. intros H. injection H as <-. intros [<- | []].
      right. split; auto. split; [discriminate | reflexivity].
    + intros H Hin. left. split; auto.
      destruct (rmap_In_inv _ _ _ _ ss xy H Hin) as (col & Hcol & E). eauto.
Qed.

Lemma all_series_scanned mean_only rebase idx datasets sss xy :
  all_series mean_only rebase idx datasets = Ok sss ->
  In xy (List.concat sss) ->
  exists label df,
    In (label, df) datasets /\ scanned_series mean_only rebase idx df xy.
Proof.
  intros H Hin. apply in_concat in Hin. destruct Hin as (ss & Hss & Hxy).
  destruct (rmap_In_inv _ _ _ _ sss ss H Hss) as ([label df] & Hd & E).
  exists label, df. split; auto.
  apply (series_of_scanned mean_only rebase idx df ss xy E Hxy).
Qed.

(** The scan, read back as a fold over the series. *)
Lemma scan_trials_series_inv logy rebase idx df cols : forall lim lim',
  scan_trials logy rebase idx df cols lim = Ok lim' ->
  exists ss, trial_series rebase idx df cols = Ok ss /\
    lim' = scanned logy ss lim.
Proof.
  unfold trial_series.
  induction cols as [| col cols IH]; simpl; intros lim lim' H.
  - injection H as <-. exists []. auto.
  - destruct (per_trial_xy df col rebase idx) as [xy |]; [| discriminate].
    simpl in H. destruct (IH _ _ H) as (ss & -> & ->).
    exists (xy :: ss). auto.
Qed.

Lemma scan_table_series_inv logy mean_only rebase idx df lim lim' :
  scan_table logy mean_only rebase idx lim df = Ok lim' ->
  exists ss, series_of mean_only rebase idx df = Ok ss /\
    lim' = scanned logy ss lim.
Proof.
  unfold series_of, scan_table.
  destruct (trial_columns df) as [| c cols].
  - intros H. injection H as <-. exists []. auto.
  - destruct mean_only.
    + destruct (mean_xy df (c :: cols) idx) as [xy |]; [| discriminate].
      simpl. intros H. injection H as <-. exists [xy]. auto.
    + apply scan_trials_series_inv.
Qed.

Lemma scan_datasets_series_inv logy mean_only rebase idx datasets :
  forall lim lim',
  scan_datasets logy mean_only rebase idx datasets lim = Ok lim' ->
  exists sss, all_series mean_only rebase idx datasets = Ok sss /\
    lim' = scanned logy (List.concat sss) lim.
Proof.
  unfold all_series.
  induction datasets as [| [label df] ds IH]; simpl; intros lim lim' H.
  - injection H as <-. exists []. auto.
  - destruct (scan_table logy mean_only rebase idx lim df) as [lim1 |] eqn:E1;
      [| discriminate].
    simpl in H.
    destruct (scan_table_series_inv _ _ _ _ _ _ _ E1) as (ss & -> & ->).
    destruct (IH _ _ H) as (sss & -> & ->).
    exists (ss :: sss). simpl. rewrite scanned_app. auto.
Qed.

Lemma compute_global_limits_inv datasets logy mean_only rebase idx lims :
  compute_global_limits datasets logy mean_only rebase idx = Ok lims ->
  exists sss,
    all_series mean_only rebase idx datasets = Ok sss /\
    scan_datasets logy mean_only rebase idx datasets initial_limits
    = Ok (scanned logy (List.concat sss) initial_limits) /\
    lims = fallbacks logy (scanned logy (List.concat sss) initial_limits).
Proof.
  unfold compute_global_limits.
  destruct (scan_datasets _ _ _ _ datasets initial_limits) as [lim |] eqn:E;
    [| discriminate].
  simpl. intros H. injection H as <-.
  destruct (scan_datasets_series_inv _ _ _ _ _ _ _ E) as (sss & Es & ->).
  exists sss. auto.
Qed.

(** *** Tables with nothing to draw *)

Lemma scanned_empty_series logy ss lim :
  Forall (fun xy => xy = (@nil float, @nil float)) ss ->
  scanned logy ss lim = lim.
Proof.
  induction 1 as [| xy ss -> _ IH]; simpl; auto.
Qed.

Lemma series_of_no_rows mean_only rebase idx df :
  rows df = [] -> In NoOfEvals (columns df) ->
  exists ss, series_of mean_only rebase idx df = Ok ss /\
    Forall (fun xy => xy = (@nil float, @nil float)) ss.
Proof.
  intros Hr Hk. destruct (col_index_Some _ _ Hk) as [k Ek].
  unfold series_of. destruct (trial_columns df) as [| c cols] eqn:Ec.
  - exists []. auto.
  - destruct mean_only.
    + unfold mean_xy, select_columns.
      destruct (rmap_total _ _
                  (fun c' => match col_index c' (columns df) with
                             | Some j => Ok j
                             | None => Raise (KeyError c')
                             end) (c :: cols)) as [js ->].
      { intros c' H. rewrite <- Ec in H. apply trial_columns_In in H.
        destruct (col_index_Some _ _ H) as [j ->]. eauto. }
      simpl. rewrite Hr, Ek. simpl. destruct idx; simpl; eauto.
    + rewrite <- Ec. unfold trial_series.
      assert (Hall : forall col, In col (trial_columns df) ->
                per_trial_xy df col rebase idx = Ok ([], [])).
      { intros col H. apply trial_columns_In in H.
        destruct (col_index_Some _ _ H) as [j Ej].
        unfold per_trial_xy. rewrite Ej, Hr, Ek. simpl.
        destruct idx, rebase; reflexivity. }
      clear Ec. revert Hall. generalize (trial_columns df) as l.
      induction l as [| col l IH]; simpl; intros Hall.
      * exists []. auto.
      * rewrite (Hall col (or_introl eq_refl)).
        destruct IH as (ss & -> & Hss); [intros; apply Hall; right; auto |].
        exists (([], []) :: ss). auto.
Qed.

(** X7: when every table either has no trial column, or has the column
    [NoOfEvals] and no row (as a table that is empty after cleaning), the
    limits are the defaults: (0, 1) for x, and for y (1e-3, 1) under log
    scale and (0, 1) under linear scale. *)
Theorem X7_nothing_to_scan_gives_defaults
  (datasets : list (string * DataFrame))
  (logy mean_only rebase_per_trial x_as_index : bool) :
  Forall (fun d => trial_columns (snd d) = [] \/
                   (rows (snd d) = [] /\ In NoOfEvals (columns (snd d))))
    datasets ->
  compute_global_limits datasets logy mean_only rebase_per_trial x_as_index
  = Ok (0%float, 1%float,
        if logy then 0x1.0624dd2f1a9fcp-10%float else 0%float, 1%float).
Proof.
  intros H.
  assert (Hscan : forall lim,
            scan_datasets logy mean_only rebase_per_trial x_as_index
              datasets lim = Ok lim).
  { induction H as [| [label df] ds Hd Hds IH]; intros lim; simpl; auto.
    assert (E : scan_table logy mean_only rebase_per_trial x_as_index lim df
                = Ok lim).
    { simpl in Hd. destruct Hd as [Hd | [Hr Hk]].
      - unfold scan_table. rewrite Hd. reflexivity.
      - destruct (series_of_no_rows mean_only rebase_per_trial x_as_index
                    df Hr Hk) as (ss & Ess & Hss).
        rewrite (scan_table_series _ _ _ _ _ lim ss Ess).
        rewrite (scanned_empty_series logy ss lim Hss). reflexivity. }
    rewrite E. simpl. apply IH. }
  unfold compute_global_limits. rewrite Hscan. simpl.
  destruct logy; reflexivity.
Qed.

Lemma X7_witness :
  compute_global_limits [("a"%string, ex_empty); ("b"%string, ex_only_key)]
    true false false false
  = Ok (0%float, 1%float, 0x1.0624dd2f1a9fcp-10%float, 1%float).
Proof.
  apply (X7_nothing_to_scan_gives_defaults
           [("a"%string, ex_empty); ("b"%string, ex_only_key)]
           true false false false).
  constructor; [right; split; [reflexivity | simpl; auto] |].
  constructor; [left; reflexivity | constructor].
Defined.

(** *** The limits are values of the data *)

Lemma update_limits_attained logy lim xy :
  limits_notna lim ->
  let lim' := update_limits logy lim xy in
  (xmin lim' = xmin lim \/ In (xmin lim') (fst xy)) /\
  (xmax lim' = xmax lim \/ In (xmax lim') (fst xy)) /\
  (ymin lim' = ymin lim \/ In (ymin lim') (snd xy)) /\
  (ymax lim' = ymax lim \/ In (ymax lim') (snd xy)).
Proof.
  intros (A & B & C & D). destruct xy as [x y].
  unfold update_limits, update_x, update_y, fold_range. simpl.
  destruct (fold_range_facts (xmin lim) (xmax lim) x A B)
    as (_ & _ & _ & _ & _ & _ & Ix0 & Ix1).
  destruct (fold_range_facts (ymin lim) (ymax lim) y C D)
    as (_ & _ & _ & _ & _ & _ & Iy0 & Iy1).
  destruct (fold_range_facts (ymin lim) (ymax lim)
              (filter (fun v => (0 <? v)%float) y) C D)
    as (_ & _ & _ & _ & _ & _ & Ip0 & Ip1).
  assert (Hp : forall v, In v (filter (fun v => (0 <? v)%float) y) -> In v y).
  { intros v Hv. apply filter_In in Hv. tauto. }
  destruct (Nat.ltb 0 (List.length x)), (Nat.ltb 0 (List.length y)), logy;
    simpl; try destruct (Nat.ltb 0 (List.length (filter _ y))); simpl;
    repeat split; auto;
    try (destruct Ip0 as [-> | Ip0]; auto);
    try (destruct Ip1 as [-> | Ip1]; auto).
Qed.

Lemma scanned_attained logy series : forall lim,
  limits_notna lim ->
  let lim' := scanned logy series lim in
  (xmin lim' = xmin lim \/
   exists xy, In xy series /\ In (xmin lim') (fst xy)) /\
  (xmax lim' = xmax lim \/
   exists xy, In xy series /\ In (xmax lim') (fst xy)) /\
  (ymin lim' = ymin lim \/
   exists xy, In xy series /\ In (ymin lim') (snd xy)) /\
  (ymax lim' = ymax lim \/
   exists xy, In xy series /\ In (ymax lim') (snd xy)).
Proof.
  induction series as [| xy series IH]; intros lim N; simpl; auto.
  destruct (update_limits_facts logy lim xy N) as (N1 & _).
  destruct (update_limits_attained logy lim xy N) as (A0 & A1 & B0 & B1).
  destruct (IH (update_limits logy lim xy) N1) as (I0 & I1 & J0 & J1).
  fold (scanned logy series (update_limits logy lim xy)) in *.
  repeat split.
  - destruct I0 as [-> | (s & Hs & Hv)]; [| right; exists s; auto].
    destruct A0 as [-> | Hv]; [auto | right; exists xy; auto].
  - destruct I1 as [-> | (s & Hs & Hv)]; [| right; exists s; auto].
    destruct A1 as [-> | Hv]; [auto | right; exists xy; auto].
  - destruct J0 as [-> | (s & Hs & Hv)]; [| right; exists s; auto].
    destruct B0 as [-> | Hv]; [auto | right; exists xy; auto].
  - destruct J1 as [-> | (s & Hs & Hv)]; [| right; exists s; auto].
    destruct B1 as [-> | Hv]; [auto | right; exists xy; auto].
Qed.

(** X8: a limit that [compute_global_limits] returns without falling back
    is a value of the data: when the scanned x-range is finite with
    distinct ends, [xmin] and [xmax] are x values of scanned series of the
    given tables, and likewise [ymin] and [ymax] are y values of scanned
    series when the scanned y-range is. *)
Theorem X8_limits_are_data_values (datasets : list (string * DataFrame))
  (logy mean_only rebase_per_trial x_as_index : bool)
  (x0 x1 y0 y1 : float) :
  compute_global_limits datasets logy mean_only rebase_per_trial x_as_index
  = Ok (x0, x1, y0, y1) ->
  exists lim,
    scan_datasets logy mean_only rebase_per_trial x_as_index datasets
      initial_limits = Ok lim /\
    (degenerate (xmin lim) (xmax lim) = false ->
     forall v, v = x0 \/ v = x1 ->
       exists label df xy,
         In (label, df) datasets /\
         scanned_series mean_only rebase_per_trial x_as_index df xy /\
         In v (fst xy)) /\
    (degenerate (ymin lim) (ymax lim) = false ->
     forall v, v = y0 \/ v = y1 ->
       exists label df xy,
         In (label, df) datasets /\
         scanned_series mean_only rebase_per_trial x_as_index df xy /\
         In v (snd xy)).
Proof.
  intros H. apply compute_global_limits_inv in H.
  destruct H as (sss & Es & Escan & Elims).
  set (lim := scanned logy (List.concat sss) initial_limits) in *.
  exists lim. split; [exact Escan |].
  destruct (scanned_attained logy (List.concat sss) initial_limits
              initial_limits_notna) as (A0 & A1 & B0 & B1).
  fold lim in A0, A1, B0, B1.
  assert (Hfin : forall lo hi, degenerate lo hi = false ->
            is_finite lo = true /\ is_finite hi = true).
  { intros lo hi Hd. unfold degenerate in Hd.
    apply orb_false_iff in Hd. destruct Hd as [Hd _].
    apply orb_false_iff in Hd. destruct Hd as [Hlo Hhi].
    apply negb_false_iff in Hlo, Hhi. auto. }
  assert (Hsrc : forall xy, In xy (List.concat sss) ->
            exists label df,
              In (label, df) datasets /\
              scanned_series mean_only rebase_per_trial x_as_index df xy).
  { intros xy Hxy. eapply all_series_scanned; eassumption. }
  unfold fallbacks in Elims. split.
  - intros Dx. rewrite Dx in Elims.
    destruct (if degenerate (ymin lim) (ymax lim) then _ else _) in Elims.
    injection Elims as -> -> _ _.
    destruct (Hfin _ _ Dx) as [F0 F1].
    intros v [-> | ->].
    + destruct A0 as [E | (xy & Hxy & Hv)].
      * rewrite E in F0. discriminate.
      * destruct (Hsrc xy Hxy) as (label & df & Hd & Hs).
        exists label, df, xy. auto.
    + destruct A1 as [E | (xy & Hxy & Hv)].
      * rewrite E in F1. discriminate.
      * destruct (Hsrc xy Hxy) as (label & df & Hd & Hs).
        exists label, df, xy. auto.
  - intros Dy. rewrite Dy in Elims.
    destruct (if degenerate (xmin lim) (xmax lim) then _ else _) in Elims.
    injection Elims as _ _ -> ->.
    destruct (Hfin _ _ Dy) as [F0 F1].
    intros v [-> | ->].
    + destruct B0 as [E | (xy & Hxy & Hv)].
      * rewrite E in F0. discriminate.
      * destruct (Hsrc xy Hxy) as (label & df & Hd & Hs).
        exists label, df, xy. auto.
    + destruct B1 as [E | (xy & Hxy & Hv)].
      * rewrite E in F1. discriminate.
      * destruct (Hsrc xy Hxy) as (label & df & Hd & Hs).
        exists label, df, xy. auto.
Qed.

Lemma X8_witness :
  exists lim,
    scan_datasets true false false false
      [("a"%string, ex_a); ("b"%string, ex_b)] initial_limits = Ok lim /\
    (degenerate (xmin lim) (xmax lim) = false ->
     forall v, v = 0%float \/ v = 30%float ->
       exists label df xy,
         In (label, df) [("a"%string, ex_a); ("b"%string, ex_b)] /\
         scanned_series false false false df xy /\
         In v (fst xy)) /\
    (degenerate (ymin lim) (ymax lim) = false ->
     forall v, v = 1%float \/ v = 6%float ->
       exists label df xy,
         In (label, df) [("a"%string, ex_a); ("b"%string, ex_b)] /\
         scanned_series false false false df xy /\
         In v (snd xy)).
Proof.
  apply (X8_limits_are_data_values [("a"%string, ex_a); ("b"%string, ex_b)]
           true false false false 0 30 1 6).
  vm_compute. reflexivity.
Defined.

(** *** Log scale and the clamp of the renderer *)

Lemma initial_ymin_positive : (0 <? ymin initial_limits)%float = true.
Proof. reflexivity. Qed.

Lemma computed_ymin_positive datasets mean_only rebase idx x0 x1 y0 y1 :
  compute_global_limits datasets true mean_only rebase idx
  = Ok (x0, x1, y0, y1) ->
  (0 <? y0)%float = true.
Proof.
  intros H. apply compute_global_limits_inv in H.
  destruct H as (sss & _ & _ & Elims).
  set (lim := scanned true (List.concat sss) initial_limits) in *.
  destruct (scanned_facts true (List.concat sss) initial_limits
              initial_limits_notna) as (_ & _ & _ & _ & _ & _ & Pos).
  fold lim in Pos. specialize (Pos eq_refl initial_ymin_positive).
  unfold fallbacks in Elims.
  destruct (if degenerate (xmin lim) (xmax lim) then _ else _) in Elims.
  destruct (degenerate (ymin lim) (ymax lim));
    injection Elims as _ _ -> _; [reflexivity | exact Pos].
Qed.

(** X9: under log scale the lower y-limit that [compute_global_limits]
    returns is strictly positive, so the clamp of the renderer (lines
    179-180) never changes a limit that was computed, under either
    scale. *)
Theorem X9_clamp_keeps_computed_ymin
  (datasets : list (string * DataFrame))
  (logy mean_only rebase_per_trial x_as_index : bool)
  (x0 x1 y0 y1 : float) :
  compute_global_limits datasets logy mean_only rebase_per_trial x_as_index
  = Ok (x0, x1, y0, y1) ->
  (logy = true -> (0 <? y0)%float = true) /\
  clamp_ymin logy y0 = y0.
Proof.
  intros H.
  assert (Hpos : logy = true -> (0 <? y0)%float = true).
  { intros ->.
    apply (computed_ymin_positive datasets mean_only rebase_per_trial
             x_as_index x0 x1 y0 y1 H). }
  split; [exact Hpos |]. apply clamp_ymin_positive. exact Hpos.
Qed.

Lemma X9_witness :
  (true = true -> (0 <? 1)%float = true) /\ clamp_ymin true 1 = 1%float.
Proof.
  apply (X9_clamp_keeps_computed_ymin
           [("a"%string, ex_a); ("b"%string, ex_b)] true false false false
           0 30 1 6).
  vm_compute. reflexivity.
Defined.

(** *** Limits that matplotlib accepts *)

(** X20: on tables with a numeric key column, [compute_global_limits]
    raises nothing and returns four finite floats with the lower limit of
    each axis at most the upper one, whatever the values (infinite ones
    included) and also when nothing is drawable. *)
Theorem X20_limits_finite_and_in_order (datasets : list (string * DataFrame))
  (logy mean_only rebase_per_trial x_as_index : bool) :
  Forall (fun d => has_numeric_key (snd d) = true) datasets ->
  exists x0 x1 y0 y1,
    compute_global_limits datasets logy mean_only rebase_per_trial x_as_index
    = Ok (x0, x1, y0, y1) /\
    is_finite x0 = true /\ is_finite x1 = true /\
    is_finite y0 = true /\ is_finite y1 = true /\
    (x0 <=? x1)%float = true /\ (y0 <=? y1)%float = true.
Proof.
  intros H.
  destruct (limits_finite_and_ordered datasets logy mean_only
              rebase_per_trial x_as_index H)
    as (x0 & x1 & y0 & y1 & E & Fx0 & Fx1 & Fy0 & Fy1 & Lx & Ly).
  exists x0, x1, y0, y1. repeat split; auto using ltb_leb.
Qed.

Lemma X20_witness :
  exists x0 x1 y0 y1,
    compute_global_limits [("a"%string, ex_a); ("inf"%string, ex_inf)]
      true false true false
    = Ok (x0, x1, y0, y1) /\
    is_finite x0 = true /\ is_finite x1 = true /\
    is_finite y0 = true /\ is_finite y1 = true /\
    (x0 <=? x1)%float = true /\ (y0 <=? y1)%float = true.
Proof.
  apply (X20_limits_finite_and_in_order
           [("a"%string, ex_a); ("inf"%string, ex_inf)] true false true false).
  repeat constructor.
Defined.

(** ** The renderer *)

Lemma f_1em12_positive : (0 <? f_1em12)%float = true.
Proof. reflexivity. Qed.

Lemma clamp_ymin_nonpositive ymin :
  (ymin <=? 0)%float = true -> clamp_ymin true ymin = f_1em12.
Proof.
  intros Hle. unfold clamp_ymin. rewrite Hle. simpl. unfold py_max.
  rewrite (leb_ltb_trans ymin 0 f_1em12 Hle f_1em12_positive).
  reflexivity.
Qed.

(** X10: the limits that the renderer hands to [plt.xlim] and [plt.ylim].
    A figure is returned only when the x-limits, the upper y-limit and the
    lower y-limit after the clamp are finite; the x-limits and the upper
    y-limit are handed over as given.  Under linear scale so is the lower
    y-limit.  Under log scale the lower y-limit handed over is strictly
    positive: the one given when that is positive, 1e-12 when it is zero or
    negative.  On a table with a numeric key column, a limit that is NaN or
    infinite where it is handed over makes the renderer raise the
    [ValueError] of matplotlib instead of returning a figure. *)
Theorem X10_limits_given_to_matplotlib (df : DataFrame) (label : string)
  (xmin xmax ymin ymax : float)
  (logy mean_only show_mean rebase_per_trial x_as_index : bool)
  (output_path : string) :
  (forall fig,
     plot_single_method df label xmin xmax ymin ymax logy mean_only show_mean
       rebase_per_trial x_as_index output_path = Ok fig ->
     is_finite xmin = true /\ is_finite xmax = true /\
     is_finite ymax = true /\
     fig_xlim_call fig = (xmin, xmax) /\ snd (fig_ylim_call fig) = ymax /\
     is_finite (fst (fig_ylim_call fig)) = true /\
     (logy = false -> fst (fig_ylim_call fig) = ymin) /\
     (logy = true ->
      (0 <? fst (fig_ylim_call fig))%float = true /\
      ((0 <? ymin)%float = true -> fst (fig_ylim_call fig) = ymin) /\
      ((ymin <=? 0)%float = true ->
       fst (fig_ylim_call fig) = 0x1.19799812dea11p-40%float))) /\
  (has_numeric_key df = true ->
   is_finite xmin = false \/ is_finite xmax = false \/
   is_finite ymax = false \/
   (logy = false /\ is_finite ymin = false) \/
   (logy = true /\ (is_nan ymin = true \/ ymin = infinity)) ->
   plot_single_method df label xmin xmax ymin ymax logy mean_only show_mean
     rebase_per_trial x_as_index output_path
   = Raise (ValueError "Axis limits cannot be NaN or Inf")).
Proof.
  split.
  - intros fig H. apply plot_single_method_inv in H.
    destruct H as (trials & mean & _ & _ & Fx0 & Fx1 & Fy0 & Fy1 & ->).
    simpl. repeat (split; [assumption || reflexivity |]). split.
    + intros ->. reflexivity.
    + intros ->. destruct (ymin <=? 0)%float eqn:Hle.
      * rewrite (clamp_ymin_nonpositive ymin Hle). repeat split.
        intros Hpos. apply leb_ltb_false in Hle. congruence.
      * assert (Hn : is_nan ymin = false).
        { unfold clamp_ymin in Fy0. rewrite Hle in Fy0. simpl in Fy0.
          apply is_finite_notna. exact Fy0. }
        assert (Hpos : (0 <? ymin)%float = true)
          by (apply leb_false_ltb; auto).
        rewrite (clamp_ymin_positive true ymin (fun _ => Hpos)).
        repeat split; auto. discriminate.
  - intros Hk Hbad. unfold plot_single_method.
    destruct (trial_series_total df rebase_per_trial x_as_index Hk)
      as [ss Ess].
    destruct (trial_lines_series df rebase_per_trial x_as_index
                (trial_columns df) 0 ss Ess) as (tl & Etl & _).
    destruct (mean_xy_total df (trial_columns df) x_as_index Hk
                (trial_columns_In df)) as [mxy Em].
    assert (Htrials : exists trials,
              (if negb mean_only
               then trial_lines df rebase_per_trial x_as_index 0
                      (trial_columns df)
               else Ok []) = Ok trials).
    { destruct mean_only; simpl; eauto. }
    assert (Hmean : exists mean,
              (if show_mean || mean_only
               then mean_line df (trial_columns df) x_as_index
               else Ok []) = Ok mean).
    { destruct (show_mean || mean_only); [| eauto].
      unfold mean_line. rewrite Em. simpl. eauto. }
    destruct Htrials as (trials & ->). destruct Hmean as (mean & ->).
    simpl.
    destruct (is_finite xmin) eqn:Fx0;
      [| rewrite (set_limits_Raise xmin xmax (or_introl Fx0)); reflexivity].
    destruct (is_finite xmax) eqn:Fx1;
      [| rewrite (set_limits_Raise xmin xmax (or_intror Fx1)); reflexivity].
    rewrite (set_limits_Ok xmin xmax Fx0 Fx1). simpl.
    rewrite set_limits_Raise; [reflexivity |].
    destruct Hbad as [Hb | [Hb | [Hb | [[-> Hb] | [-> Hb]]]]];
      try discriminate; auto.
    + left. destruct Hb as [Hb | ->]; [| reflexivity].
      unfold clamp_ymin.
      assert (Hle : (ymin <=? 0)%float = false).
      { destruct (ymin <=? 0)%float eqn:E; auto.
        apply leb_notna in E. destruct E as [E _]. congruence. }
      rewrite Hle. simpl. destruct (is_finite ymin) eqn:F; auto.
      apply is_finite_notna in F. congruence.
Qed.

Lemma trial_lines_labels df rebase idx cols : forall i lines,
  trial_lines df rebase idx i cols = Ok lines ->
  map line_label lines = map trial_label (seq i (List.length cols)) /\
  map line_marker lines = map trial_marker (seq i (List.length cols)).
Proof.
  induction cols as [| col cols IH]; simpl; intros i lines H.
  - injection H as <-. auto.
  - destruct (per_trial_xy df col rebase idx) as [xy |]; [| discriminate].
    simpl in H.
    destruct (trial_lines df rebase idx (S i) cols) as [rest |] eqn:E;
      [| discriminate].
    simpl in H. injection H as <-. destruct (IH (S i) rest E) as [E1 E2].
    split.
    + change (trial_label i :: map line_label rest
              = trial_label i :: map trial_label (seq (S i) (List.length cols))).
      rewrite E1. reflexivity.
    + change (trial_marker i :: map line_marker rest
              = trial_marker i
                :: map trial_marker (seq (S i) (List.length cols))).
      rewrite E2. reflexivity.
Qed.

(** X11: the lines of a figure.  Unless mean-only is set there is one line
    per trial column, in column order, the i-th labelled "Trial i" (from 1)
    and marked with the i-th of the eleven markers, cyclically; when
    show-mean or mean-only is set, one more line follows, labelled "Mean"
    and without marker.  In mean-only mode the figure has exactly one
    line. *)
Theorem X11_figure_lines (df : DataFrame) (label : string)
  (xmin xmax ymin ymax : float)
  (logy mean_only show_mean rebase_per_trial x_as_index : bool)
  (output_path : string) (fig : Figure) :
  plot_single_method df label xmin xmax ymin ymax logy mean_only show_mean
    rebase_per_trial x_as_index output_path = Ok fig ->
  let n := List.length (trial_columns df) in
  map line_label (fig_lines fig) =
    (if mean_only then [] else map trial_label (seq 0 n))
    ++ (if show_mean || mean_only then ["Mean"%string] else []) /\
  map line_marker (fig_lines fig) =
    (if mean_only then [] else map trial_marker (seq 0 n))
    ++ (if show_mean || mean_only then [None] else []) /\
  (mean_only = true -> List.length (fig_lines fig) = 1) /\
  (mean_only = false -> show_mean = false -> List.length (fig_lines fig) = n).
Proof.
  intros H. apply plot_single_method_inv in H.
  destruct H as (trials & mean & Ht & Hm & _ & _ & _ & _ & ->). simpl.
  assert (Hmean : map line_label mean =
                    (if show_mean || mean_only then ["Mean"%string] else []) /\
                  map line_marker mean =
                    (if show_mean || mean_only then [None] else [])).
  { destruct (show_mean || mean_only).
    - unfold mean_line in Hm.
      destruct (mean_xy df (trial_columns df) x_as_index); [| discriminate].
      simpl in Hm. injection Hm as <-. auto.
    - injection Hm as <-. auto. }
  destruct Hmean as [Hml Hmm].
  assert (Htrials : map line_label trials =
                      (if mean_only then []
                       else map trial_label
                              (seq 0 (List.length (trial_columns df)))) /\
                    map line_marker trials =
                      (if mean_only then []
                       else map trial_marker
                              (seq 0 (List.length (trial_columns df))))).
  { destruct mean_only; simpl in Ht.
    - injection Ht as <-. auto.
    - apply (trial_lines_labels df rebase_per_trial x_as_index _ 0 trials Ht). }
  destruct Htrials as [Htl Htm].
  rewrite !map_app, Htl, Htm, Hml, Hmm.
  split; [reflexivity |]. split; [reflexivity |].
  assert (Hlen : List.length (trials ++ mean) =
                 List.length (map line_label (trials ++ mean)))
    by (rewrite length_map; reflexivity).
  rewrite map_app, Htl, Hml in Hlen.
  split.
  - intros ->. rewrite Hlen. rewrite orb_true_r. reflexivity.
  - intros -> ->. rewrite Hlen. simpl.
    rewrite length_app, length_map, length_seq. simpl. lia.
Qed.

Lemma X11_witness :
  exists fig,
    let n := List.length (trial_columns ex_a) in
    map line_label (fig_lines fig) =
      (if false then [] else map trial_label (seq 0 n))
      ++ (if true || false then ["Mean"%string] else []) /\
    map line_marker (fig_lines fig) =
      (if false then [] else map trial_marker (seq 0 n))
      ++ (if true || false then [None] else []) /\
    (false = true -> List.length (fig_lines fig) = 1) /\
    (false = false -> true = false -> List.length (fig_lines fig) = n).
Proof.
  eexists.
  apply (X11_figure_lines ex_a "a" 0 30 1 6 true false true false false "a.png").
  vm_compute. reflexivity.
Defined.

(** ** A whole run *)

Section RunStructure.

Variable read_csv : Path -> DataFrame.

Lemma load_all_run (lfs : list (string * Path)) : forall w,
  Forall (fun lf => ~ lacks_key read_csv (snd lf)) lfs ->
  exists w' ds,
    for_each (fun lf => bind (load read_csv (snd lf))
                          (fun df => ret (fst lf, df))) lfs w = (w', Ok ds) /\
    written w' = written w /\ Forall2 (loaded read_csv) lfs ds.
Proof.
  induction lfs as [| [l p] lfs IH]; intros w H; simpl.
  - exists w, []. unfold ret. auto.
  - inversion H as [| ? ? Hp Hrest]; subst. simpl in Hp.
    destruct (load_present read_csv p w Hp) as (df & msgs & Eclean & L).
    destruct (IH (mkWorld (stdout w ++ msgs) (written w)) Hrest)
      as (w' & ds & E & Hw & Hall).
    exists w', ((l, df) :: ds). unfold bind at 1 2. rewrite L.
    unfold ret at 1. unfold bind at 1. rewrite E. unfold ret. simpl.
    repeat split; auto. constructor; auto.
    split; [reflexivity |]. exists msgs. exact Eclean.
Qed.

Lemma loaded_numeric_key lfs ds :
  Forall2 (loaded read_csv) lfs ds ->
  Forall (fun d => has_numeric_key (snd d) = true) ds.
Proof.
  induction 1 as [| lf d lfs ds [_ (msgs & E)] _ IH]; constructor; auto.
  apply (read_csv_clean_numeric_key _ _ _ _ E).
Qed.

Lemma loaded_labels lfs ds :
  Forall2 (loaded read_csv) lfs ds -> map fst ds = map fst lfs.
Proof.
  induction 1 as [| lf d lfs ds [E _] _ IH]; simpl; auto.
  rewrite E, IH. reflexivity.
Qed.

Lemma render_all_run args x0 x1 y0 y1 (ds : list (string * DataFrame)) :
  is_finite x0 = true -> is_finite x1 = true ->
  is_finite y0 = true -> is_finite y1 = true ->
  forall w,
  Forall (fun d => has_numeric_key (snd d) = true) ds ->
  exists w' us figs,
    for_each (render args (x0, x1, y0, y1)) ds w = (w', Ok us) /\
    written w' = written w ++ figs /\
    Forall2 (drawn args (x0, x1, y0, y1)) ds figs.
Proof.
  intros Fx0 Fx1 Fy0 Fy1.
  induction ds as [| [l df] ds IH]; intros w H.
  - exists w, [], []. rewrite app_nil_r. repeat split; constructor.
  - inversion H as [| ? ? Hd Hrest]; subst. simpl in Hd.
    destruct (render_completes args x0 x1 y0 y1 l df w Hd Fx0 Fx1 Fy0 Fy1)
      as (fig & Efig & Er).
    destruct (IH (mkWorld
                    (stdout w ++ [OkWrote (output_file (output_dir args) l)])
                    (written w ++ [fig])) Hrest)
      as (w' & us & figs & E & Hw & Hall).
    exists w', (tt :: us), (fig :: figs). split; [| split].
    + eapply for_each_cons_ok; eassumption.
    + rewrite Hw. simpl. rewrite <- app_assoc. reflexivity.
    + constructor; auto.
Qed.

(** A run on files that all have the column: the tables are loaded under
    the chosen labels, the limits are computed once over all of them, and
    one figure per table is drawn with these limits and saved. *)
Lemma main_run args w :
  Forall (fun p => ~ lacks_key read_csv p) (files args) ->
  exists w' ds lims figs,
    main read_csv args w = (w', Ok tt) /\
    written w' = written w ++ figs /\
    Forall2 (loaded read_csv) (combine (choose_labels args) (files args)) ds /\
    compute_global_limits ds (negb (no_logy args)) (mean_only args)
      (rebase_per_trial args) (x_as_index args) = Ok lims /\
    Forall2 (drawn args lims) ds figs.
Proof.
  intros H.
  pose proof (map_snd_combine _ _ (choose_labels args) (files args)
                (length_choose_labels args)) as Hm.
  assert (Hl : Forall (fun lf => ~ lacks_key read_csv (snd lf))
                 (combine (choose_labels args) (files args))).
  { apply Forall_forall. intros lf Hlf. rewrite Forall_forall in H.
    apply H. rewrite <- Hm. apply in_map. exact Hlf. }
  destruct (load_all_run _ w Hl) as (w1 & ds & E1 & Hw1 & Hloaded).
  pose proof (loaded_numeric_key _ _ Hloaded) as Hall.
  destruct (scan_datasets_total (negb (no_logy args)) (mean_only args)
              (rebase_per_trial args) (x_as_index args) ds Hall)
    as (sss & _ & Escan).
  remember (fallbacks (negb (no_logy args))
              (scanned (negb (no_logy args)) (List.concat sss)
                 initial_limits)) as lims eqn:Edef.
  destruct lims as [[[x0 x1] y0] y1].
  destruct (fallbacks_finite _ _ x0 x1 y0 y1 (eq_sym Edef))
    as (Fx0 & Fx1 & Fy0 & Fy1).
  destruct (render_all_run args x0 x1 y0 y1 ds Fx0 Fx1 Fy0 Fy1
              (mkWorld (stdout w1 ++
                          [InfoLimits x0 x1 y0 y1 (negb (no_logy args))])
                 (written w1)) Hall) as (w2 & us & figs & E2 & Hw2 & Hdrawn).
  exists w2, ds, (x0, x1, y0, y1), figs.
  assert (Elims : compute_global_limits ds (negb (no_logy args))
                    (mean_only args) (rebase_per_trial args)
                    (x_as_index args) = Ok (x0, x1, y0, y1)).
  { unfold compute_global_limits. rewrite Escan. simpl. rewrite <- Edef.
    reflexivity. }
  split; [| split; [| split; [| split]]]; auto.
  - unfold main. unfold bind at 1. rewrite E1.
    unfold bind at 1, lift. rewrite Elims.
    unfold bind at 1. unfold print at 1. simpl.
    unfold bind at 1. rewrite E2. reflexivity.
  - rewrite Hw2. simpl. rewrite Hw1. reflexivity.
Qed.

Lemma main_Ok_files args w w' u :
  main read_csv args w = (w', Ok u) ->
  Forall (fun p => ~ lacks_key read_csv p) (files args).
Proof.
  intros H. apply Forall_Exists_neg. intros Hex.
  destruct (main_aborts read_csv args w Hex) as (w2 & p & E & _).
  rewrite E in H. discriminate.
Qed.

End RunStructure.


Lemma map_fst_combine (X Y : Type) (l1 : list X) : forall (l2 : list Y),
  List.length l1 = List.length l2 -> map fst (combine l1 l2) = l1.
Proof.
  induction l1 as [| a l1 IH]; intros [| b l2] H; simpl in *;
    try discriminate; auto.
  rewrite IH by lia. reflexivity.
Qed.

Lemma Forall2_length_eq (X Y : Type) (R : X -> Y -> Prop) l1 l2 :
  Forall2 R l1 l2 -> List.length l1 = List.length l2.
Proof. induction 1; simpl; auto. Qed.

Lemma Forall2_In_r (X Y : Type) (R : X -> Y -> Prop) l1 l2 b :
  Forall2 R l1 l2 -> In b l2 -> exists a, In a l1 /\ R a b.
Proof.
  induction 1 as [| x y l1 l2 Hxy _ IH]; simpl; [contradiction |].
  intros [<- | Hb]; [eauto |]. destruct (IH Hb) as (a & Ha & Ra). eauto.
Qed.

Lemma drawn_figure_facts args x0 x1 y0 y1 d fig :
  drawn args (x0, x1, y0, y1) d fig ->
  fig_xlim_call fig = (x0, x1) /\
  fig_ylim_call fig = (clamp_ymin (negb (no_logy args)) y0, y1) /\
  fig_log_y fig = negb (no_logy args) /\
  fig_title fig = fst d /\
  fig_file fig = output_file (output_dir args) (fst d).
Proof.
  unfold drawn. simpl. intros H. apply plot_single_method_inv in H.
  destruct H as (trials & mean & _ & _ & _ & _ & _ & _ & ->). simpl. auto.
Qed.

(** X12: the figures of one run share their axes: for every figure written
    by a run that completes, [plt.xlim] and [plt.ylim] are called with the
    x-limits and the y-limits that [compute_global_limits] returned for the
    loaded tables, the same for all figures, under the scale chosen on the
    command line. *)
Theorem X12_figures_share_limits (read_csv : Path -> DataFrame)
  (args : Args) (w w' : World) :
  main read_csv args w = (w', Ok tt) ->
  exists figs ds x0 x1 y0 y1,
    written w' = written w ++ figs /\
    Forall2 (loaded read_csv) (combine (choose_labels args) (files args)) ds /\
    compute_global_limits ds (negb (no_logy args)) (mean_only args)
      (rebase_per_trial args) (x_as_index args) = Ok (x0, x1, y0, y1) /\
    forall fig, In fig figs ->
      fig_xlim_call fig = (x0, x1) /\ fig_ylim_call fig = (y0, y1) /\
      fig_log_y fig = negb (no_logy args).
Proof.
  intros H. pose proof (main_Ok_files read_csv args w w' tt H) as Hfiles.
  destruct (main_run read_csv args w Hfiles)
    as (w2 & ds & [[[x0 x1] y0] y1] & figs & E & Hw & Hl & Elims & Hd).
  rewrite E in H. injection H as <-.
  exists figs, ds, x0, x1, y0, y1.
  split; [exact Hw |]. split; [exact Hl |]. split; [exact Elims |].
  intros fig Hfig.
  destruct (Forall2_In_r _ _ _ ds figs fig Hd Hfig) as (d & _ & Hdr).
  destruct (drawn_figure_facts args x0 x1 y0 y1 d fig Hdr)
    as (Ex & Ey & El & _).
  split; [exact Ex |]. split; [| exact El].
  rewrite Ey. f_equal. apply clamp_ymin_positive. intros Hlog.
  rewrite Hlog in Elims.
  apply (computed_ymin_positive ds _ _ _ x0 x1 y0 y1 Elims).
Qed.

Lemma X12_witness :
  exists figs ds x0 x1 y0 y1,
    written (fst (main ex_read_csv ex_args ex_world))
    = written ex_world ++ figs /\
    Forall2 (loaded ex_read_csv)
      (combine (choose_labels ex_args) (files ex_args)) ds /\
    compute_global_limits ds (negb (no_logy ex_args)) (mean_only ex_args)
      (rebase_per_trial ex_args) (x_as_index ex_args)
    = Ok (x0, x1, y0, y1) /\
    forall fig, In fig figs ->
      fig_xlim_call fig = (x0, x1) /\ fig_ylim_call fig = (y0, y1) /\
      fig_log_y fig = negb (no_logy ex_args).
Proof.
  apply (X12_figures_share_limits ex_read_csv ex_args ex_world).
  vm_compute. reflexivity.
Defined.

Lemma drawn_titles args lims ds figs :
  Forall2 (drawn args lims) ds figs -> map fig_title figs = map fst ds.
Proof.
  destruct lims as [[[x0 x1] y0] y1].
  induction 1 as [| d fig ds figs Hd _ IH]; simpl; auto.
  destruct (drawn_figure_facts args x0 x1 y0 y1 d fig Hd)
    as (_ & _ & _ & Et & _).
  rewrite Et, IH. auto.
Qed.

(** X13: a run that completes writes one figure per input file, in the
    order of the files, the i-th figure titled with the i-th label.  The
    labels are the ones given when there is one per file, and the stems of
    the file names otherwise. *)
Theorem X13_one_figure_per_file (read_csv : Path -> DataFrame)
  (args : Args) (w w' : World) :
  main read_csv args w = (w', Ok tt) ->
  exists figs,
    written w' = written w ++ figs /\
    List.length figs = List.length (files args) /\
    map fig_title figs = choose_labels args /\
    (forall ls, labels args = Some ls -> ls <> [] ->
       List.length ls = List.length (files args) -> choose_labels args = ls) /\
    (labels args = None \/ labels args = Some [] \/
     (exists ls, labels args = Some ls /\
        List.length ls <> List.length (files args)) ->
     choose_labels args = map path_stem (files args)).
Proof.
  intros H. pose proof (main_Ok_files read_csv args w w' tt H) as Hfiles.
  destruct (main_run read_csv args w Hfiles)
    as (w2 & ds & lims & figs & E & Hw & Hl & _ & Hd).
  rewrite E in H. injection H as <-.
  pose proof (length_choose_labels args) as Hlen.
  pose proof (drawn_titles args lims ds figs Hd) as Et.
  rewrite (loaded_labels read_csv _ _ Hl) in Et.
  rewrite (map_fst_combine _ _ _ _ Hlen) in Et.
  exists figs. split; [exact Hw |]. split; [| split; [exact Et |]].
  - rewrite <- (Forall2_length_eq _ _ _ _ _ Hd).
    rewrite <- (Forall2_length_eq _ _ _ _ _ Hl).
    rewrite length_combine, Hlen, Nat.min_id. reflexivity.
  - unfold choose_labels. split.
    + intros ls -> Hne Hls. destruct ls as [| l ls]; [congruence |].
      rewrite Hls, Nat.eqb_refl. reflexivity.
    + intros [-> | [-> | (ls & -> & Hls)]]; auto.
      destruct ls as [| l ls]; auto.
      apply Nat.eqb_neq in Hls. rewrite Hls. reflexivity.
Qed.

Lemma X13_witness :
  exists figs,
    written (fst (main ex_read_csv ex_args ex_world))
    = written ex_world ++ figs /\
    List.length figs = List.length (files ex_args) /\
    map fig_title figs = choose_labels ex_args /\
    (forall ls, labels ex_args = Some ls -> ls <> [] ->
       List.length ls = List.length (files ex_args) ->
       choose_labels ex_args = ls) /\
    (labels ex_args = None \/ labels ex_args = Some [] \/
     (exists ls, labels ex_args = Some ls /\
        List.length ls <> List.length (files ex_args)) ->
     choose_labels ex_args = map path_stem (files ex_args)).
Proof.
  apply (X13_one_figure_per_file ex_read_csv ex_args ex_world).
  vm_compute. reflexivity.
Defined.

(** *** The first file without the column stops the run *)

Section FirstOffender.

Variable read_csv : Path -> DataFrame.

Lemma first_offender (l : list Path) :
  Forall (fun p => ~ lacks_key read_csv p) l \/
  exists before p after,
    l = before ++ p :: after /\
    Forall (fun q => ~ lacks_key read_csv q) before /\ lacks_key read_csv p.
Proof.
  induction l as [| p l IH]; [left; constructor |].
  destruct (lacks_key_dec read_csv p) as [Hp | Hp].
  - right. exists [], p, l. auto.
  - destruct IH as [IH | (before & q & after & -> & Hb & Hq)].
    + left. constructor; auto.
    + right. exists (p :: before), q, after. auto.
Qed.

Lemma load_all_aborts_first (lfs : list (string * Path)) :
  forall w before p after,
  map snd lfs = before ++ p :: after ->
  Forall (fun q => ~ lacks_key read_csv q) before ->
  lacks_key read_csv p ->
  exists w',
    for_each (fun lf => bind (load read_csv (snd lf))
                          (fun df => ret (fst lf, df))) lfs w =
    (w', Raise (ValueError (missing_column_message p (read_csv p)))) /\
    written w' = written w.
Proof.
  induction lfs as [| [l q] lfs IH]; intros w before p after Hsplit Hb Hp.
  - destruct before; discriminate.
  - destruct before as [| b before]; simpl in Hsplit;
      injection Hsplit as -> Hrest.
    + exists w. simpl. unfold bind at 1 2.
      rewrite (load_missing read_csv p w Hp). auto.
    + inversion Hb as [| ? ? Hq Hb']; subst.
      destruct (load_present read_csv b w Hq) as (df & msgs & _ & L).
      destruct (IH (mkWorld (stdout w ++ msgs) (written w)) before p after
                  Hrest Hb' Hp) as (w' & E & Hw).
      exists w'. simpl. unfold bind at 1 2. rewrite L. unfold ret at 1.
      unfold bind at 1. rewrite E. auto.
Qed.

End FirstOffender.

(** X14: a run ends in one of two ways.  Either every file has the column
    [NoOfEvals], and the run completes with one more figure per file; or it
    stops with the [ValueError] of the first file, in the order of the
    command line, that lacks the column, and writes no figure at all. *)
Theorem X14_run_completes_or_stops_at_first_bad_file
  (read_csv : Path -> DataFrame) (args : Args) (w : World) :
  (Forall (fun p => In NoOfEvals (columns (read_csv p))) (files args) /\
   exists w',
     main read_csv args w = (w', Ok tt) /\
     List.length (written w') =
     List.length (written w) + List.length (files args)) \/
  (exists before p after w',
     files args = before ++ p :: after /\
     Forall (fun q => In NoOfEvals (columns (read_csv q))) before /\
     ~ In NoOfEvals (columns (read_csv p)) /\
     main read_csv args w =
     (w', Raise (ValueError (missing_column_message p (read_csv p)))) /\
     written w' = written w).
Proof.
  assert (Hdec : forall l,
            Forall (fun q => ~ lacks_key read_csv q) l ->
            Forall (fun q => In NoOfEvals (columns (read_csv q))) l).
  { intros l H. eapply Forall_impl; [| exact H]. intros q Hq.
    unfold lacks_key in Hq.
    destruct (in_dec string_dec NoOfEvals (columns (read_csv q))); tauto. }
  destruct (first_offender read_csv (files args))
    as [Hall | (before & p & after & Hsplit & Hb & Hp)].
  - left. split; [apply Hdec; exact Hall |].
    apply (main_completes read_csv args w Hall).
  - right.
    pose proof (map_snd_combine _ _ (choose_labels args) (files args)
                  (length_choose_labels args)) as Hm.
    rewrite Hsplit in Hm at 2.
    destruct (load_all_aborts_first read_csv _ w before p after Hm Hb Hp)
      as (w' & E & Hw).
    exists before, p, after, w'.
    split; [exact Hsplit |]. split; [apply Hdec; exact Hb |].
    split; [exact Hp |]. split; [| exact Hw].
    unfold main, bind at 1. rewrite E. reflexivity.
Qed.

(** *** Flags without effect *)

Lemma for_each_ext (X Y : Type) (f g : X -> M Y) (l : list X) :
  (forall a w, f a w = g a w) -> forall w, for_each f l w = for_each g l w.
Proof.
  intros H. induction l as [| a l IH]; intros w; simpl; auto.
  unfold bind. rewrite H. destruct (g a w) as [w1 [b | e]]; auto.
  rewrite IH. reflexivity.
Qed.

Lemma bind_ext (X Y : Type) (m m' : M X) (k k' : X -> M Y) w :
  m w = m' w -> (forall a w1, k a w1 = k' a w1) ->
  bind m k w = bind m' k' w.
Proof.
  intros Hm Hk. unfold bind. rewrite Hm.
  destruct (m' w) as [w1 [a | e]]; auto.
Qed.

(** Two command lines that differ in flags on which neither the limits nor
    the figures depend give the same run. *)
Lemma main_ext (read_csv : Path -> DataFrame) (a a' : Args) :
  files a = files a' -> labels a = labels a' -> no_logy a = no_logy a' ->
  output_dir a = output_dir a' ->
  (forall ds,
     compute_global_limits ds (negb (no_logy a)) (mean_only a)
       (rebase_per_trial a) (x_as_index a) =
     compute_global_limits ds (negb (no_logy a)) (mean_only a')
       (rebase_per_trial a') (x_as_index a')) ->
  (forall df label x0 x1 y0 y1 out,
     plot_single_method df label x0 x1 y0 y1 (negb (no_logy a))
       (mean_only a) (show_mean a) (rebase_per_trial a) (x_as_index a) out =
     plot_single_method df label x0 x1 y0 y1 (negb (no_logy a))
       (mean_only a') (show_mean a') (rebase_per_trial a') (x_as_index a')
       out) ->
  forall w, main read_csv a w = main read_csv a' w.
Proof.
  intros Hf Hl Hn Ho Hlim Hplot w. unfold main.
  assert (Hc : choose_labels a = choose_labels a').
  { unfold choose_labels. rewrite Hl, Hf. reflexivity. }
  rewrite <- Hc, <- Hf, <- Hn.
  apply bind_ext; [reflexivity |]. intros ds w1.
  apply bind_ext; [unfold lift; rewrite Hlim; reflexivity |].
  intros lims w2.
  apply bind_ext; [reflexivity |]. intros _ w3.
  apply bind_ext; [| reflexivity].
  apply for_each_ext. intros d w4. unfold render.
  destruct lims as [[[x0 x1] y0] y1].
  rewrite <- Ho, <- Hn, <- Hplot. reflexivity.
Qed.

Lemma scan_datasets_mean_only logy rebase rebase' idx datasets : forall lim,
  scan_datasets logy true rebase idx datasets lim =
  scan_datasets logy true rebase' idx datasets lim.
Proof.
  induction datasets as [| [label df] ds IH]; intros lim; simpl; auto.
  assert (E : scan_table logy true rebase idx lim df =
              scan_table logy true rebase' idx lim df).
  { unfold scan_table. destruct (trial_columns df); reflexivity. }
  rewrite E. destruct (scan_table logy true rebase' idx lim df); simpl; auto.
Qed.

(** X15: in mean-only mode the flags show-mean and rebase-per-trial have no
    effect: two runs that differ in these flags only print the same lines
    and write the same figures. *)
Theorem X15_mean_only_ignores_show_mean_and_rebase
  (read_csv : Path -> DataFrame) (files : list Path)
  (labels : option (list string)) (no_logy x_as_index : bool)
  (output_dir : string) (show_mean rebase show_mean' rebase' : bool)
  (w : World) :
  main read_csv
    (mkArgs files labels no_logy true show_mean rebase x_as_index output_dir) w
  = main read_csv
      (mkArgs files labels no_logy true show_mean' rebase' x_as_index
         output_dir) w.
Proof.
  apply main_ext; simpl; auto.
  - intros ds. unfold compute_global_limits.
    rewrite (scan_datasets_mean_only _ rebase rebase'). reflexivity.
  - intros df label x0 x1 y0 y1 out. unfold plot_single_method. simpl.
    rewrite !orb_true_r. unfold x_axis_label. rewrite !andb_false_r.
    reflexivity.
Qed.

Lemma per_trial_xy_index_rebase df col rebase rebase' :
  per_trial_xy df col rebase true = per_trial_xy df col rebase' true.
Proof.
  unfold per_trial_xy. destruct (col_index col (columns df)); reflexivity.
Qed.

Lemma scan_trials_index logy rebase rebase' df cols : forall lim,
  scan_trials logy rebase true df cols lim =
  scan_trials logy rebase' true df cols lim.
Proof.
  induction cols as [| col cols IH]; intros lim; simpl; auto.
  rewrite (per_trial_xy_index_rebase df col rebase rebase').
  destruct (per_trial_xy df col rebase' true); simpl; auto.
Qed.

Lemma scan_datasets_index logy mean_only rebase rebase' datasets :
  forall lim,
  scan_datasets logy mean_only rebase true datasets lim =
  scan_datasets logy mean_only rebase' true datasets lim.
Proof.
  induction datasets as [| [label df] ds IH]; intros lim; simpl; auto.
  assert (E : scan_table logy mean_only rebase true lim df =
              scan_table logy mean_only rebase' true lim df).
  { unfold scan_table. destruct (trial_columns df); auto.
    destruct mean_only; auto. apply scan_trials_index. }
  rewrite E.
  destruct (scan_table logy mean_only rebase' true lim df); simpl; auto.
Qed.

Lemma trial_lines_index df rebase rebase' cols : forall i,
  trial_lines df rebase true i cols = trial_lines df rebase' true i cols.
Proof.
  induction cols as [| col cols IH]; intros i; simpl; auto.
  rewrite (per_trial_xy_index_rebase df col rebase rebase').
  destruct (per_trial_xy df col rebase' true); simpl; auto.
  rewrite IH. reflexivity.
Qed.

(** X16: with the row index as x (x-as-index), the flag rebase-per-trial
    has no effect: two runs that differ in this flag only print the same
    lines and write the same figures. *)
Theorem X16_x_as_index_ignores_rebase
  (read_csv : Path -> DataFrame) (files : list Path)
  (labels : option (list string)) (no_logy mean_only show_mean : bool)
  (output_dir : string) (rebase rebase' : bool) (w : World) :
  main read_csv
    (mkArgs files labels no_logy mean_only show_mean rebase true output_dir) w
  = main read_csv
      (mkArgs files labels no_logy mean_only show_mean rebase' true
         output_dir) w.
Proof.
  apply main_ext; simpl; auto.
  - intros ds. unfold compute_global_limits.
    rewrite (scan_datasets_index _ _ rebase rebase'). reflexivity.
  - intros df label x0 x1 y0 y1 out. unfold plot_single_method.
    rewrite (trial_lines_index df rebase rebase'). reflexivity.
Qed.

(** *** File names *)

(** X17: the file name of a figure: replacing the spaces of a label leaves
    no space, keeps the length, changes nothing in a label without space,
    and is idempotent. *)
Theorem X17_replace_spaces (s : string) :
  ~ In " "%char (list_ascii_of_string (replace_spaces s)) /\
  String.length (replace_spaces s) = String.length s /\
  (~ In " "%char (list_ascii_of_string s) -> replace_spaces s = s) /\
  replace_spaces (replace_spaces s) = replace_spaces s.
Proof.
  induction s as [| c s (IH1 & IH2 & IH3 & IH4)]; simpl.
  - repeat split; auto.
  - destruct (Ascii.eqb_spec c " "%char) as [-> | Hc].
    + repeat split.
      * intros [H | H]; [discriminate | contradiction].
      * rewrite IH2. reflexivity.
      * intros H. exfalso. apply H. left. reflexivity.
      * simpl. rewrite IH4. reflexivity.
    + repeat split.
      * intros [H | H]; [congruence | contradiction].
      * rewrite IH2. reflexivity.
      * intros H. rewrite IH3; auto.
      * simpl. destruct (Ascii.eqb_spec c " "%char); [contradiction |].
        rewrite IH4. reflexivity.
Qed.

(** ** The scan only widens the limits *)

Lemma scan_datasets_app logy mean_only rebase idx ds more : forall lim,
  scan_datasets logy mean_only rebase idx (ds ++ more) lim =
  rbind (scan_datasets logy mean_only rebase idx ds lim)
    (fun lim1 => scan_datasets logy mean_only rebase idx more lim1).
Proof.
  induction ds as [| [label df] ds IH]; intros lim; simpl; auto.
  destruct (scan_table logy mean_only rebase idx lim df); simpl; auto.
Qed.

(** X18: the running limits of the scan never narrow and never become NaN:
    the limits reached after more tables have a lower or equal minimum and
    a higher or equal maximum, on both axes, than the limits reached after
    the first tables. *)
Theorem X18_more_tables_widen_the_scan
  (datasets more : list (string * DataFrame))
  (logy mean_only rebase_per_trial x_as_index : bool) (lim lim' : limits) :
  scan_datasets logy mean_only rebase_per_trial x_as_index datasets
    initial_limits = Ok lim ->
  scan_datasets logy mean_only rebase_per_trial x_as_index (datasets ++ more)
    initial_limits = Ok lim' ->
  (xmin lim' <=? xmin lim)%float = true /\
  (xmax lim <=? xmax lim')%float = true /\
  (ymin lim' <=? ymin lim)%float = true /\
  (ymax lim <=? ymax lim')%float = true /\
  is_nan (xmin lim') = false /\ is_nan (xmax lim') = false /\
  is_nan (ymin lim') = false /\ is_nan (ymax lim') = false.
Proof.
  intros H1 H2. rewrite scan_datasets_app, H1 in H2. simpl in H2.
  apply scan_datasets_series_inv in H1. destruct H1 as (sss & _ & ->).
  apply scan_datasets_series_inv in H2. destruct H2 as (sss' & _ & ->).
  destruct (scanned_facts logy (List.concat sss) initial_limits
              initial_limits_notna) as (N & _).
  destruct (scanned_facts logy (List.concat sss')
              (scanned logy (List.concat sss) initial_limits) N)
    as ((A & B & C & D) & (W0 & W1 & W2 & W3) & _).
  repeat split; assumption.
Qed.

Lemma X18_witness :
  (xmin (mkLimits 0 30 1 6) <=? xmin (mkLimits 0 30 1 5))%float = true /\
  (xmax (mkLimits 0 30 1 5) <=? xmax (mkLimits 0 30 1 6))%float = true /\
  (ymin (mkLimits 0 30 1 6) <=? ymin (mkLimits 0 30 1 5))%float = true /\
  (ymax (mkLimits 0 30 1 5) <=? ymax (mkLimits 0 30 1 6))%float = true /\
  is_nan (xmin (mkLimits 0 30 1 6)) = false /\
  is_nan (xmax (mkLimits 0 30 1 6)) = false /\
  is_nan (ymin (mkLimits 0 30 1 6)) = false /\
  is_nan (ymax (mkLimits 0 30 1 6)) = false.
Proof.
  apply (X18_more_tables_widen_the_scan
           [("a"%string, ex_a)] [("b"%string, ex_b)] true false false false).
  - vm_compute. reflexivity.
  - vm_compute. reflexivity.
Defined.

(** ** The loader and the order of the rows *)

Lemma key_lt_irrefl (X : Type) (key : X -> float) a : ~ key_lt key a a.
Proof.
  unfold key_lt. intros H. pose proof (ltb_neq _ _ H) as Hn.
  apply ltb_notna in H. rewrite eqb_refl in Hn by tauto. discriminate.
Qed.

Lemma key_lt_asym (X : Type) (key : X -> float) a b :
  key_lt key a b -> ~ key_lt key b a.
Proof.
  unfold key_lt. intros H H'.
  apply ltb_leb in H. apply leb_ltb_false in H. congruence.
Qed.

(** Two strictly increasing lists with the same elements are equal. *)
Lemma sorted_lt_unique (X : Type) (key : X -> float) (l : list X) :
  forall l',
  StronglySorted (key_lt key) l -> StronglySorted (key_lt key) l' ->
  (forall x, In x l <-> In x l') -> l = l'.
Proof.
  induction l as [| a l IH]; intros [| a' l'] Hs Hs' Hin; auto.
  - exfalso. apply (Hin a'). left. reflexivity.
  - exfalso. apply (Hin a). left. reflexivity.
  - inversion Hs as [| ? ? Hsl Ha]; subst.
    inversion Hs' as [| ? ? Hsl' Ha']; subst.
    rewrite Forall_forall in Ha, Ha'.
    assert (a = a') as <-.
    { destruct (proj1 (Hin a) (or_introl eq_refl)) as [E | H1]; auto.
      destruct (proj2 (Hin a') (or_introl eq_refl)) as [E | H2]; auto.
      exfalso. apply (key_lt_asym _ key a a'); auto. }
    f_equal. apply IH; auto. intros x. split; intros Hx.
    + destruct (proj1 (Hin x) (or_intror Hx)) as [<- | H]; auto.
      exfalso. apply (key_lt_irrefl _ key a). auto.
    + destruct (proj2 (Hin x) (or_intror Hx)) as [<- | H]; auto.
      exfalso. apply (key_lt_irrefl _ key a). auto.
Qed.

(** The rows of the cleaned table, when rows of equal evaluation count are
    equal rows. *)
Lemma clean_rows_members k rs r :
  (forall a b, In a rs -> In b rs ->
     (value_at k a =? value_at k b)%float = true -> a = b) ->
  (In r (clean_rows k rs) <->
   exists r0, In r0 rs /\ r = coerce_key k r0 /\ is_nan (value_at k r0) = false).
Proof.
  intros Hd. split.
  - intros H. apply clean_rows_In in H. destruct H as (r0 & H0 & -> & N).
    rewrite value_at_coerce_key in N. eauto.
  - intros (r0 & H0 & -> & N).
    destruct (drop_duplicates_last_complete _ (value_at k)
                (sort_values (value_at k)
                   (dropna (value_at k) (map (coerce_key k) rs)))
                (coerce_key k r0)) as (r' & Hr' & Er').
    + apply sort_values_In, dropna_In. split; [apply in_map; exact H0 |].
      rewrite value_at_coerce_key. exact N.
    + rewrite value_at_coerce_key. exact N.
    + fold (clean_rows k rs) in Hr'. pose proof Hr' as Hmem.
      apply clean_rows_In in Hmem. destruct Hmem as (r1 & H1 & -> & _).
      rewrite !value_at_coerce_key in Er'.
      rewrite (Hd r1 r0 H1 H0 Er') in Hr'. exact Hr'.
Qed.

(** X19: when rows of the input with equal evaluation counts are equal
    rows, the cleaned table depends on the set of rows only: a table with
    the same columns and the same rows in another order, or repeated,
    cleans to the same table. *)
Theorem X19_cleaning_ignores_row_order (path path' : Path)
  (df df' : DataFrame) (k : nat) :
  col_index NoOfEvals (columns df) = Some k ->
  columns df' = columns df ->
  (forall r, In r (rows df) <-> In r (rows df')) ->
  (forall a b, In a (rows df) -> In b (rows df) ->
     (value_at k a =? value_at k b)%float = true -> a = b) ->
  exists out msgs msgs',
    read_csv_clean path df = Ok (out, msgs) /\
    read_csv_clean path' df' = Ok (out, msgs').
Proof.
  intros Hk Hc Hrows Hd.
  destruct (read_csv_clean_total path df k Hk) as (msgs & E).
  assert (Hk' : col_index NoOfEvals (columns df') = Some k)
    by (rewrite Hc; exact Hk).
  destruct (read_csv_clean_total path' df' k Hk') as (msgs' & E').
  exists (mkDataFrame (columns df) (clean_rows k (rows df))), msgs, msgs'.
  split; [exact E |]. rewrite E', Hc. do 3 f_equal.
  apply (sorted_lt_unique _ (value_at k)); try apply clean_rows_sorted.
  assert (Hd' : forall a b, In a (rows df') -> In b (rows df') ->
            (value_at k a =? value_at k b)%float = true -> a = b).
  { intros a b Ha Hb. apply Hd; apply Hrows; assumption. }
  intros r. rewrite (clean_rows_members k (rows df') r Hd').
  rewrite (clean_rows_members k (rows df) r Hd).
  split; intros (r0 & H0 & Hr); exists r0; (split; [apply Hrows; exact H0 | exact Hr]).
Qed.

Lemma X19_witness :
  exists out msgs msgs',
    read_csv_clean ex_path ex_b = Ok (out, msgs) /\
    read_csv_clean ex_path ex_b_shuffled = Ok (out, msgs').
Proof.
  apply (X19_cleaning_ignores_row_order ex_path ex_path ex_b ex_b_shuffled 0).
  - reflexivity.
  - reflexivity.
  - intros r. simpl. tauto.
  - intros a b Ha Hb. simpl in Ha, Hb.
    destruct Ha as [<- | [<- | [<- | []]]];
      destruct Hb as [<- | [<- | [<- | []]]];
      try reflexivity; vm_compute; discriminate.
Defined.
